(** * numpy-ml, neural_nets/layers/layers.py: a shallow embedding

    The layers of [layers.py] are embedded as Rocq functions over an explicit
    layer state.  Conventions used throughout:

    - NumPy arrays are row-major: a shape and the flat list of entries.
      Entries are float64 in the source; here they are integers, i.e. the
      arithmetic is the exact arithmetic of an ordered commutative ring and
      rounding is not part of the model.
    - Activation functions, weight initialisers, optimizers and the global
      random generator are collaborators of the layers; they appear as
      record fields or as explicit arguments.
    - Python exceptions are values of [exn]; a method is a function from the
      layer state to a result and the (possibly partially mutated) state. *)

From Stdlib Require Import ZArith List Lia Bool.
From stdpp Require Import base gmap strings list fin_maps.
Import ListNotations.

Local Open Scope nat_scope.

(** ** Exceptions and the result monad *)

Inductive exn : Type :=
  | AssertionError
  | KeyError
  | IndexError
  | ValueError
  | TypeError
  | AttributeError
  | UnboundLocalError
  | ZeroDivisionError
  | Unmodelled.

Inductive res (A : Type) : Type :=
  | Ok (a : A)
  | Err (e : exn).
Arguments Ok {A} a.
Arguments Err {A} e.

#[global] Instance res_ret : MRet res := fun A a => Ok a.
#[global] Instance res_bind : MBind res := fun A B k r =>
  match r with
  | Ok a => k a
  | Err e => Err e
  end.

Definition is_ok {A} (r : res A) : bool :=
  match r with Ok _ => true | Err _ => false end.

(** ** Scalars *)

(** The arithmetic on array entries.  It is kept apart from the arithmetic on
    Python integers (cursors, counters) although both are integer arithmetic
    here. *)
Definition sadd : Z -> Z -> Z := Z.add.
Definition ssub : Z -> Z -> Z := Z.sub.
Definition smul : Z -> Z -> Z := Z.mul.

(** ** Finite sums over [0, n) *)

Fixpoint sumn (n : nat) (f : nat -> Z) : Z :=
  match n with
  | O => 0%Z
  | S n' => sadd (sumn n' f) (f n')
  end.

(** [tab n f] is the list [f 0; ...; f (n-1)]. *)
Definition tab {A} (n : nat) (f : nat -> A) : list A := List.map f (List.seq 0 n).

(** ** NumPy arrays *)

Module Np.

Record ndarray : Type := mk { shape : list nat; data : list Z }.

Definition size (sh : list nat) : nat := List.fold_right Nat.mul 1 sh.

Definition wf (a : ndarray) : Prop := length (data a) = size (shape a).

(** [a] is a well-formed [n] by [m] matrix. *)
Definition mat (n m : nat) (a : ndarray) : Prop :=
  shape a = [n; m] /\ length (data a) = n * m.

Definition geti (a : ndarray) (k : nat) : Z := List.nth k (data a) 0%Z.

(** Row-major index arithmetic. *)
Fixpoint ravel (sh idx : list nat) : nat :=
  match sh, idx with
  | _ :: sh', i :: idx' => i * size sh' + ravel sh' idx'
  | _, _ => 0
  end.

Fixpoint unravel (sh : list nat) (k : nat) : list nat :=
  match sh with
  | [] => []
  | _ :: sh' => (k / size sh') :: unravel sh' (k mod size sh')
  end.

Definition zeros (sh : list nat) : ndarray := mk sh (List.repeat 0%Z (size sh)).
Definition zeros_like (a : ndarray) : ndarray := zeros (shape a).

(** Elementwise application of a scalar function (activations). *)
Definition map (f : Z -> Z) (a : ndarray) : ndarray :=
  mk (shape a) (List.map f (data a)).

(** *** Broadcasting *)

(** Shapes are aligned on their last axis; here both are given reversed. *)
Fixpoint bshape_rev (s1 s2 : list nat) : option (list nat) :=
  match s1, s2 with
  | [], _ => Some s2
  | _, [] => Some s1
  | a :: s1', b :: s2' =>
      match bshape_rev s1' s2' with
      | None => None
      | Some r =>
          if Nat.eqb a b then Some (a :: r)
          else if Nat.eqb a 1 then Some (b :: r)
          else if Nat.eqb b 1 then Some (a :: r)
          else None
      end
  end.

Definition broadcast_shapes (s1 s2 : list nat) : option (list nat) :=
  option_map (@List.rev nat) (bshape_rev (List.rev s1) (List.rev s2)).

(** Index into an operand of shape [sh] from an index of the broadcast
    result: leading axes are dropped, axes of extent 1 are read at 0. *)
Definition bidx (sh : list nat) (idx : list nat) : list nat :=
  let idx' := List.skipn (length idx - length sh) idx in
  List.map (fun '(d, i) => if Nat.eqb d 1 then 0 else i) (List.combine sh idx').

Definition bget (a : ndarray) (out_sh : list nat) (k : nat) : Z :=
  geti a (ravel (shape a) (bidx (shape a) (unravel out_sh k))).

Definition binop (f : Z -> Z -> Z) (a b : ndarray) : res ndarray :=
  match broadcast_shapes (shape a) (shape b) with
  | Some sh => Ok (mk sh (tab (size sh) (fun k => f (bget a sh k) (bget b sh k))))
  | None => Err ValueError
  end.

Definition add := binop sadd.
Definition sub := binop ssub.
Definition mul := binop smul.

(** [u <= p] followed by [.astype(float)]. *)
Definition le_float := binop (fun u p => if Z.leb u p then 1%Z else 0%Z).

(** *** Two-dimensional arrays *)

Definition get2 (a : ndarray) (i j : nat) : Z :=
  geti a (i * List.nth 1 (shape a) 0 + j).

(** [np.dot] on two matrices.  Other ranks are not used by the layers. *)
Definition dot (a b : ndarray) : res ndarray :=
  match shape a, shape b with
  | [n; k], [k'; m] =>
      if Nat.eqb k k'
      then Ok (mk [n; m]
                 (tab (n * m) (fun p =>
                    sumn k (fun l => smul (get2 a (p / m) l) (get2 b l (p mod m))))))
      else Err ValueError
  | _, _ => Err Unmodelled
  end.

(** [a.T] for a matrix. *)
Definition T (a : ndarray) : res ndarray :=
  match shape a with
  | [n; m] => Ok (mk [m; n] (tab (m * n) (fun p => get2 a (p mod n) (p / n))))
  | _ => Err Unmodelled
  end.

(** [a.sum(axis=0, keepdims=True)] for a matrix. *)
Definition sum_axis0_keep (a : ndarray) : res ndarray :=
  match shape a with
  | [n; m] => Ok (mk [1; m] (tab m (fun j => sumn n (fun i => get2 a i j))))
  | _ => Err Unmodelled
  end.

(** [np.hstack([a, b])] for two matrices. *)
Definition hstack (a b : ndarray) : res ndarray :=
  match shape a, shape b with
  | [n; m1], [n'; m2] =>
      if Nat.eqb n n'
      then Ok (mk [n; m1 + m2]
                 (tab (n * (m1 + m2)) (fun p =>
                    let i := p / (m1 + m2) in
                    let j := p mod (m1 + m2) in
                    if Nat.ltb j m1 then get2 a i j else get2 b i (j - m1))))
      else Err ValueError
  | _, _ => Err Unmodelled
  end.

(** [a[:, lo:hi]] for a matrix, with Python's clipping of the bounds. *)
Definition cols (a : ndarray) (lo hi : nat) : res ndarray :=
  match shape a with
  | [n; m] =>
      let hi' := Nat.min hi m in
      let lo' := Nat.min lo hi' in
      let w := hi' - lo' in
      Ok (mk [n; w] (tab (n * w) (fun p => get2 a (p / w) (lo' + p mod w))))
  | _ => Err Unmodelled
  end.

(** *** Basic slicing *)

(** One entry of a subscript: an integer index, or a slice [lo:hi:step]
    with non-negative bounds and a positive step. *)
Inductive axis_sel : Type :=
  | Idx (i : nat)
  | Slice (lo hi step : nat).

(** The whole axis, [:]. *)
Definition All (n : nat) : axis_sel := Slice 0 n 1.

(** Number of positions a slice selects on an axis of extent [n]. *)
Definition sel_len (n lo hi step : nat) : nat :=
  let hi' := Nat.min hi n in
  if Nat.ltb lo hi' then (hi' - lo + step - 1) / step else 0.

Fixpoint sel_shape (sh : list nat) (sels : list axis_sel) : list nat :=
  match sh, sels with
  | n :: sh', Idx _ :: sels' => sel_shape sh' sels'
  | n :: sh', Slice lo hi step :: sels' => sel_len n lo hi step :: sel_shape sh' sels'
  | _, _ => []
  end.

(** Integer indices must lie inside their axis. *)
Fixpoint sel_valid (sh : list nat) (sels : list axis_sel) : bool :=
  match sh, sels with
  | n :: sh', Idx i :: sels' => Nat.ltb i n && sel_valid sh' sels'
  | n :: sh', Slice _ _ _ :: sels' => sel_valid sh' sels'
  | [], [] => true
  | _, _ => false
  end.

(** The index in the array of the position [idx] of the selection. *)
Fixpoint sel_source (sels : list axis_sel) (idx : list nat) : list nat :=
  match sels with
  | [] => []
  | Idx i :: sels' => i :: sel_source sels' idx
  | Slice lo _ step :: sels' =>
      match idx with
      | j :: idx' => (lo + step * j) :: sel_source sels' idx'
      | [] => []
      end
  end.

(** The position in the selection of the array index [idx], if selected. *)
Fixpoint sel_locate (sh : list nat) (sels : list axis_sel) (idx : list nat)
  : option (list nat) :=
  match sh, sels, idx with
  | n :: sh', Idx i :: sels', x :: idx' =>
      if Nat.eqb x i then sel_locate sh' sels' idx' else None
  | n :: sh', Slice lo hi step :: sels', x :: idx' =>
      if Nat.leb lo x && Nat.ltb x (Nat.min hi n) && Nat.eqb ((x - lo) mod step) 0
      then option_map (cons ((x - lo) / step)) (sel_locate sh' sels' idx')
      else None
  | [], [], [] => Some []
  | _, _, _ => None
  end.

(** [a[sels]]. *)
Definition getslice (a : ndarray) (sels : list axis_sel) : res ndarray :=
  if sel_valid (shape a) sels
  then let sh := sel_shape (shape a) sels in
       Ok (mk sh (tab (size sh) (fun k =>
                    geti a (ravel (shape a) (sel_source sels (unravel sh k))))))
  else Err IndexError.

(** [a[sels] += rhs]: [rhs] is broadcast to the shape of the selection. *)
Definition iadd_slice (a : ndarray) (sels : list axis_sel) (rhs : ndarray) : res ndarray :=
  sl ← getslice a sels;
  s ← add sl rhs;
  if decide (shape s = shape sl)
  then Ok (mk (shape a) (tab (size (shape a)) (fun k =>
             match sel_locate (shape a) sels (unravel (shape a) k) with
             | Some p => geti s (ravel (shape s) p)
             | None => geti a k
             end)))
  else Err ValueError.

(** *** Four-dimensional arrays *)

Definition get4 (a : ndarray) (i j k l : nat) : Z :=
  geti a (ravel (shape a) [i; j; k; l]).

(** The array of shape [(n1, n2, n3, n4)] with entries [f i j k l]. *)
Definition mk4 (n1 n2 n3 n4 : nat) (f : nat -> nat -> nat -> nat -> Z) : ndarray :=
  mk [n1; n2; n3; n4]
     (tab (n1 * n2 * n3 * n4) (fun p =>
        f (p / (n2 * n3 * n4)) (p / (n3 * n4) mod n2) (p / n4 mod n3) (p mod n4))).

(** A scalar as a zero-dimensional array. *)
Definition scalar (x : Z) : ndarray := mk [] [x].

(** [a[i, j, k, l]] with the bounds check of NumPy. *)
Definition item4 (a : ndarray) (i j k l : nat) : res Z :=
  match shape a with
  | [n1; n2; n3; n4] =>
      if Nat.ltb i n1 && Nat.ltb j n2 && Nat.ltb k n3 && Nat.ltb l n4
      then Ok (get4 a i j k l) else Err IndexError
  | _ => Err IndexError
  end.

(** Modelled from the spec: zero padding of the two spatial axes of a volume
    [(n_ex, rows, cols, ch)] by the resolved amounts [(pr1, pr2, pc1, pc2)]
    (the function [pad2D] of [utils] is not in this file). *)
Definition pad_volume (X : ndarray) (p : nat * nat * nat * nat) : res ndarray :=
  let '(pr1, pr2, pc1, pc2) := p in
  match shape X with
  | [n; r; c; ch] =>
      Ok (mk4 n (r + pr1 + pr2) (c + pc1 + pc2) ch (fun m i j k =>
            if Nat.leb pr1 i && Nat.ltb i (pr1 + r) && Nat.leb pc1 j && Nat.ltb j (pc1 + c)
            then get4 X m (i - pr1) (j - pc1) k else 0%Z))
  | _ => Err ValueError
  end.

(** [a[:, pr1:rows-pr2, pc1:cols-pc2, :]]: the padding frame is cropped. *)
Definition crop_volume (a : ndarray) (p : nat * nat * nat * nat) : res ndarray :=
  let '(pr1, pr2, pc1, pc2) := p in
  match shape a with
  | [n; r; c; ch] => getslice a [All n; Slice pr1 (r - pr2) 1; Slice pc1 (c - pc2) 1; All ch]
  | _ => Err IndexError
  end.

(** *** Transposition and reshaping *)

(** Position of axis [ax] in the permutation [perm]. *)
Fixpoint axis_pos (ax : nat) (perm : list nat) : nat :=
  match perm with
  | [] => 0
  | p :: perm' => if Nat.eqb p ax then 0 else S (axis_pos ax perm')
  end.

(** [a.transpose(perm)]: axis [i] of the result is axis [perm[i]] of [a]. *)
Definition transpose (a : ndarray) (perm : list nat) : res ndarray :=
  if decide (length perm = length (shape a) /\ List.Forall (fun p => p < length perm) perm)
  then
    let sh := List.map (fun p => List.nth p (shape a) 0) perm in
    Ok (mk sh (tab (size sh) (fun k =>
          let idx := unravel sh k in
          geti a (ravel (shape a)
                    (List.map (fun ax => List.nth (axis_pos ax perm) idx 0)
                              (List.seq 0 (length perm)))))))
  else Err ValueError.

(** [a.reshape(sh)] for a shape without [-1]. *)
Definition reshape (a : ndarray) (sh : list nat) : res ndarray :=
  if Nat.eqb (size sh) (length (data a)) then Ok (mk sh (data a)) else Err ValueError.

(** [a.reshape(n, -1)]. *)
Definition reshape_rows (a : ndarray) (n : nat) : res ndarray :=
  let len := length (data a) in
  if Nat.eqb n 0 then Err ValueError
  else if Nat.eqb (len mod n) 0 then Ok (mk [n; len / n] (data a))
  else Err ValueError.

(** [a.sum(axis=1)] for a matrix. *)
Definition sum_axis1 (a : ndarray) : res ndarray :=
  match shape a with
  | [n; m] => Ok (mk [n] (tab n (fun i => sumn m (fun j => get2 a i j))))
  | _ => Err Unmodelled
  end.

End Np.

(** ** Python values, lists and dictionaries *)

Inductive pyval : Type :=
  | VNone
  | VInt (z : Z)
  | VArr (a : Np.ndarray)
  | VList (l : list Np.ndarray).

(** [l[t]] on a Python list: a negative [t] counts from the end. *)
Definition py_index {A} (l : list A) (t : Z) : res A :=
  let n := Z.of_nat (length l) in
  let t' := if (t <? 0)%Z then (t + n)%Z else t in
  if ((0 <=? t') && (t' <? n))%Z
  then match List.nth_error l (Z.to_nat t') with
       | Some x => Ok x
       | None => Err IndexError
       end
  else Err IndexError.

(** [d[k]] on a dictionary. *)
Definition dict_get (d : gmap string pyval) (k : string) : res pyval :=
  match d !! k with
  | Some v => Ok v
  | None => Err KeyError
  end.

(** An operand of a NumPy operation.  [None] yields an object array on which
    arithmetic raises [TypeError]; an empty list is an array of shape (0,). *)
Definition as_array (v : pyval) : res Np.ndarray :=
  match v with
  | VArr a => Ok a
  | VInt z => Ok (Np.mk [] [z])
  | VList [] => Ok (Np.mk [0] [])
  | VList (_ :: _) => Err Unmodelled
  | VNone => Err TypeError
  end.

(** A value used where the code needs an array attribute ([.shape], [.T]). *)
Definition the_array (v : pyval) : res Np.ndarray :=
  match v with
  | VArr a => Ok a
  | _ => Err AttributeError
  end.

Definition the_list (v : pyval) : res (list Np.ndarray) :=
  match v with
  | VList l => Ok l
  | _ => Err TypeError
  end.

Definition the_int (v : pyval) : res Z :=
  match v with
  | VInt z => Ok z
  | _ => Err TypeError
  end.

(** [np.zeros_like(v)]. *)
Definition zeros_like_val (v : pyval) : pyval :=
  match v with
  | VArr a => VArr (Np.zeros_like a)
  | VList l => VArr (Np.zeros (length l :: match l with a :: _ => Np.shape a | [] => [] end))
  | VInt _ | VNone => VArr (Np.zeros [])
  end.

(** ** Collaborators *)

(** An activation: the elementwise function and its local derivative. *)
Record Activation : Type := { fn : Z -> Z; grad : Z -> Z }.

Definition act_fn_of (a : Activation) (x : Np.ndarray) : Np.ndarray := Np.map (fn a) x.
Definition act_grad_of (a : Activation) (x : Np.ndarray) : Np.ndarray := Np.map (grad a) x.

(** The identity activation chosen by [ActivationInitializer(None)]. *)
Definition Affine : Activation := {| fn := fun x => x; grad := fun _ => 1%Z |}.

(** Modelled from the spec: the Optimizer collaborator (the optimizers are not
    in this file).  [apply(current_value, gradient, parameter_key)] returns the
    updated value and keeps an internal per-key cache. *)
Record Optimizer : Type := {
  opt_cache : gmap string pyval;
  opt_rule : option pyval -> pyval -> pyval -> string -> pyval * pyval
}.

Definition optimizer_call (o : Optimizer) (p g : pyval) (k : string) : pyval * Optimizer :=
  let '(p', c') := opt_rule o (opt_cache o !! k) p g k in
  (p', {| opt_cache := <[k := c']> (opt_cache o); opt_rule := opt_rule o |}).

(** The global generator behind [np.random.rand]: the [pos]-th call returns
    [draw pos shape]. *)
Record RandomState : Type := { draw : nat -> list nat -> Np.ndarray; pos : nat }.

Definition np_random_rand (r : RandomState) (sh : list nat) : Np.ndarray * RandomState :=
  (draw r (pos r) sh, {| draw := draw r; pos := S (pos r) |}).

(** ** Methods: state and exceptions *)

Definition M (S A : Type) : Type := S -> res A * S.

#[global] Instance M_ret {S} : MRet (M S) := fun A a s => (Ok a, s).
#[global] Instance M_bind {S} : MBind (M S) := fun A B k m s =>
  match m s with
  | (Ok a, s') => k a s'
  | (Err e, s') => (Err e, s')
  end.

Definition lift {S A} (r : res A) : M S A := fun s => (r, s).
Definition raise {S A} (e : exn) : M S A := fun s => (Err e, s).
Definition gets {S A} (f : S -> A) : M S A := fun s => (Ok (f s), s).
Definition modify {S} (f : S -> S) : M S unit := fun s => (Ok tt, f s).
Definition py_assert {S} (b : bool) : M S unit :=
  if b then mret tt else raise AssertionError.

(** A [for] loop over a list whose body may raise. *)
Fixpoint for_each {S A} (xs : list A) (body : A -> M S unit) : M S unit :=
  match xs with
  | [] => mret tt
  | x :: xs' => body x ≫= fun _ => for_each xs' body
  end.

(** ** LayerBase *)

Module LayerBase.

Record t : Type := mk {
  X : pyval;
  trainable : bool;
  optimizer : Optimizer;
  gradients : gmap string pyval;
  parameters : gmap string pyval;
  derived_variables : gmap string pyval
}.

Definition set_X (v : pyval) (l : t) : t :=
  mk v (trainable l) (optimizer l) (gradients l) (parameters l) (derived_variables l).
Definition set_trainable (b : bool) (l : t) : t :=
  mk (X l) b (optimizer l) (gradients l) (parameters l) (derived_variables l).
Definition set_optimizer (o : Optimizer) (l : t) : t :=
  mk (X l) (trainable l) o (gradients l) (parameters l) (derived_variables l).
Definition set_gradients (g : gmap string pyval) (l : t) : t :=
  mk (X l) (trainable l) (optimizer l) g (parameters l) (derived_variables l).
Definition set_parameters (p : gmap string pyval) (l : t) : t :=
  mk (X l) (trainable l) (optimizer l) (gradients l) p (derived_variables l).
Definition set_derived_variables (d : gmap string pyval) (l : t) : t :=
  mk (X l) (trainable l) (optimizer l) (gradients l) (parameters l) d.

(** [LayerBase.__init__]. *)
Definition init (o : Optimizer) : t := mk VNone true o ∅ ∅ ∅.

Definition freeze : M t unit := modify (set_trainable false).
Definition unfreeze : M t unit := modify (set_trainable true).

Definition flush_gradients : M t unit :=
  tr ← gets trainable;
  _ ← py_assert tr;
  _ ← modify (set_X (VList []));
  _ ← modify (fun l => set_derived_variables ((fun _ => VNone) <$> derived_variables l) l);
  modify (fun l => set_gradients (zeros_like_val <$> gradients l) l).

(** The loop of [update]: one optimizer call per gradient key that is also a
    parameter key. *)
Definition update_step (k : string) (v : pyval) (acc : gmap string pyval * Optimizer)
  : gmap string pyval * Optimizer :=
  match acc.1 !! k with
  | Some p =>
      let '(p', o') := optimizer_call acc.2 p v k in
      (<[k := p']> acc.1, o')
  | None => acc
  end.

(** [update]; [flush] is the [flush_gradients] of the object's class. *)
Definition update (flush : M t unit) : M t unit :=
  tr ← gets trainable;
  _ ← py_assert tr;
  _ ← modify (fun l =>
         let '(ps, o) := map_fold update_step (parameters l, optimizer l) (gradients l) in
         set_optimizer o (set_parameters ps l));
  flush.

End LayerBase.

(** [a.shape[i]]. *)
Definition shape_at (a : Np.ndarray) (i : nat) : res nat :=
  match List.nth_error (Np.shape a) i with
  | Some n => Ok n
  | None => Err IndexError
  end.

(** ** RestrictedBoltzmannMachine *)

Module RBM.

Record t : Type := mk {
  base : LayerBase.t;
  K : Z;
  n_in : option nat;
  n_out : nat;
  act_fn_V : Activation;
  act_fn_H : Activation;
  init_weights : list nat -> Np.ndarray;
  is_initialized : bool;
  np_random : RandomState
}.

Definition set_base (b : LayerBase.t) (l : t) : t :=
  mk b (K l) (n_in l) (n_out l) (act_fn_V l) (act_fn_H l) (init_weights l)
     (is_initialized l) (np_random l).
Definition set_n_in (n : option nat) (l : t) : t :=
  mk (base l) (K l) n (n_out l) (act_fn_V l) (act_fn_H l) (init_weights l)
     (is_initialized l) (np_random l).
Definition set_is_initialized (b : bool) (l : t) : t :=
  mk (base l) (K l) (n_in l) (n_out l) (act_fn_V l) (act_fn_H l) (init_weights l)
     b (np_random l).
Definition set_np_random (r : RandomState) (l : t) : t :=
  mk (base l) (K l) (n_in l) (n_out l) (act_fn_V l) (act_fn_H l) (init_weights l)
     (is_initialized l) r.

Definition on_base {A} (m : M LayerBase.t A) : M t A := fun l =>
  let '(r, b) := m (base l) in (r, set_base b l).

Definition set_dv (k : string) (v : pyval) : M t unit :=
  modify (fun l => set_base (LayerBase.set_derived_variables
                               (<[k := v]> (LayerBase.derived_variables (base l))) (base l)) l).
Definition set_grad (k : string) (v : pyval) : M t unit :=
  modify (fun l => set_base (LayerBase.set_gradients
                               (<[k := v]> (LayerBase.gradients (base l))) (base l)) l).
Definition get_dv (k : string) : M t pyval := fun l =>
  (dict_get (LayerBase.derived_variables (base l)) k, l).
Definition get_param (k : string) : M t pyval := fun l =>
  (dict_get (LayerBase.parameters (base l)) k, l).

(** A Bernoulli draw [np.random.rand(...) <= p] of the shape of [p], as floats. *)
Definition sample (p : Np.ndarray) : M t Np.ndarray := fun l =>
  let '(u, r) := np_random_rand (np_random l) (Np.shape p) in
  (Np.le_float u p, set_np_random r l).

Definition _init_params : M t unit :=
  n ← gets n_in;
  match n with
  | None => raise TypeError
  | Some n_in =>
      n_out ← gets n_out;
      iw ← gets init_weights;
      let b_in := Np.zeros [1; n_in] in
      let b_out := Np.zeros [1; n_out] in
      let W := iw [n_in; n_out] in
      _ ← modify (fun l => set_base (LayerBase.set_parameters
             (<["W" := VArr W]> (<["b_in" := VArr b_in]> (<["b_out" := VArr b_out]> ∅)))
             (base l)) l);
      _ ← modify (fun l => set_base (LayerBase.set_gradients
             (<["W" := VArr (Np.zeros_like W)]>
                (<["b_in" := VArr (Np.zeros_like b_in)]>
                   (<["b_out" := VArr (Np.zeros_like b_out)]> ∅)))
             (base l)) l);
      _ ← modify (fun l => set_base (LayerBase.set_derived_variables
             (<["V" := VNone]> (<["p_H" := VNone]> (<["p_V_prime" := VNone]>
                (<["p_H_prime" := VNone]> (<["positive_grad" := VNone]>
                   (<["negative_grad" := VNone]> ∅))))))
             (base l)) l);
      modify (set_is_initialized true)
  end.

(** [__init__]: the attributes are set, with [n_in = None], and
    [_init_params] is called at once. *)
Definition init (n_out : nat) (K : Z) (actV actH : Activation)
    (iw : list nat -> Np.ndarray) (rs : RandomState) (o : Optimizer) : res unit * t :=
  _init_params
    (mk (LayerBase.set_parameters
           (<["W" := VNone]> (<["b_in" := VNone]> (<["b_out" := VNone]> ∅)))
           (LayerBase.init o))
        K None n_out actV actH iw false rs).

(** The state carried around the CD loop: [H_prime] and, once an iteration
    has run, [p_V_prime] and [p_H_prime]. *)
Record chain : Type := mk_chain {
  H_prime : Np.ndarray;
  stats : option (Np.ndarray * Np.ndarray)
}.

(** One iteration [k] of the loop [for k in range(K)] of [forward]. *)
Definition gibbs_step (W : Np.ndarray) (b_in : pyval) (b_out : Np.ndarray)
    (k : nat) (c : chain) : M t chain :=
  actV ← gets act_fn_V;
  actH ← gets act_fn_H;
  selfK ← gets K;
  WT ← lift (Np.T W);
  HW ← lift (Np.dot (H_prime c) WT);
  Z_V_prime ← lift (b ← as_array b_in; Np.add HW b);
  let p_V_prime := act_fn_of actV Z_V_prime in
  let V_prime := p_V_prime in
  VW ← lift (Np.dot V_prime W);
  Z_H_prime ← lift (Np.add VW b_out);
  let p_H_prime := act_fn_of actH Z_H_prime in
  if negb (Z.of_nat k =? selfK - 1)%Z
  then H' ← sample p_H_prime; mret (mk_chain H' (Some (p_V_prime, p_H_prime)))
  else mret (mk_chain p_H_prime (Some (p_V_prime, p_H_prime))).

Fixpoint gibbs_loop (W : Np.ndarray) (b_in : pyval) (b_out : Np.ndarray)
    (ks : list nat) (c : chain) : M t chain :=
  match ks with
  | [] => mret c
  | k :: ks' => gibbs_step W b_in b_out k c ≫= gibbs_loop W b_in b_out ks'
  end.

(** [forward(V, K=None)]. *)
Definition forward (V : Np.ndarray) (Karg : option Z) : M t unit :=
  ini ← gets is_initialized;
  _ ← (if (ini : bool) then mret tt
       else (n ← lift (shape_at V 1);
             _ ← modify (set_n_in (Some n));
             _init_params)
       : M t unit);
  selfK ← gets K;
  let K := match Karg with None => selfK | Some k => k end in
  Wv ← get_param "W";
  b_in ← get_param "b_in";
  b_outv ← get_param "b_out";
  actH ← gets act_fn_H;
  W ← lift (as_array Wv);
  VW ← lift (Np.dot V W);
  b_out ← lift (as_array b_outv);
  Z_H ← lift (Np.add VW b_out);
  let p_H := act_fn_of actH Z_H in
  H ← sample p_H;
  VT ← lift (Np.T V);
  positive_grad ← lift (Np.dot VT p_H);
  _ ← set_dv "V" (VArr V);
  _ ← set_dv "p_H" (VArr p_H);
  _ ← set_dv "positive_grad" (VArr positive_grad);
  c ← gibbs_loop W b_in b_out (List.seq 0 (Z.to_nat K)) (mk_chain H None);
  match stats c with
  | None => raise UnboundLocalError
  | Some (p_V_prime, p_H_prime) =>
      pVT ← lift (Np.T p_V_prime);
      negative_grad ← lift (Np.dot pVT p_H_prime);
      _ ← set_dv "p_V_prime" (VArr p_V_prime);
      _ ← set_dv "p_H_prime" (VArr p_H_prime);
      set_dv "negative_grad" (VArr negative_grad)
  end.

(** [backward()]. *)
Definition backward : M t unit :=
  V ← get_dv "V";
  p_H ← get_dv "p_H";
  p_V_prime ← get_dv "p_V_prime";
  p_H_prime ← get_dv "p_H_prime";
  positive_grad ← get_dv "positive_grad";
  negative_grad ← get_dv "negative_grad";
  g_b_in ← lift (a ← as_array V; b ← as_array p_V_prime; Np.sub a b);
  _ ← set_grad "b_in" (VArr g_b_in);
  g_b_out ← lift (a ← as_array p_H; b ← as_array p_H_prime; Np.sub a b);
  _ ← set_grad "b_out" (VArr g_b_out);
  g_W ← lift (a ← as_array positive_grad; b ← as_array negative_grad; Np.sub a b);
  set_grad "W" (VArr g_W).

Definition CD_update (X : Np.ndarray) : M t unit :=
  _ ← forward X None; backward.

(** [reconstruct(X, n_steps, return_prob)]. *)
Definition reconstruct (X : Np.ndarray) (n_steps : Z) (return_prob : bool) : M t Np.ndarray :=
  _ ← forward X (Some n_steps);
  v ← get_dv "p_V_prime";
  _ ← on_base LayerBase.flush_gradients;
  if return_prob then lift (as_array v)
  else p ← lift (the_array v); sample p.

(** An initialised layer with [nin] visible and [nout] hidden units, and a
    generator that returns arrays of the requested shape. *)
Record rbm_ok (l : t) (nin nout : nat) (W b_in b_out : Np.ndarray) : Prop := {
  ok_init : is_initialized l = true;
  ok_W : LayerBase.parameters (base l) !! "W" = Some (VArr W);
  ok_b_in : LayerBase.parameters (base l) !! "b_in" = Some (VArr b_in);
  ok_b_out : LayerBase.parameters (base l) !! "b_out" = Some (VArr b_out);
  ok_W_mat : Np.mat nin nout W;
  ok_b_in_mat : Np.mat 1 nin b_in;
  ok_b_out_mat : Np.mat 1 nout b_out;
  ok_draw : forall k n m, Np.mat n m (draw (np_random l) k [n; m])
}.

(** [l'] is [l] up to the position of the random generator. *)
Definition rngvar (l l' : t) : Prop :=
  exists r, l' = set_np_random r l /\ draw r = draw (np_random l).

Definition chain_stats_ok (n_ex nin nout : nat) (c : chain) : Prop :=
  exists pV pH, stats c = Some (pV, pH) /\ Np.mat n_ex nin pV /\ Np.mat n_ex nout pH.

Definition dv (l : t) := LayerBase.derived_variables (base l).
Definition grads (l : t) := LayerBase.gradients (base l).

End RBM.

(** ** Access to the LayerBase part of a layer object *)

Class HasBase (T : Type) : Type := {
  get_base : T -> LayerBase.t;
  put_base : LayerBase.t -> T -> T
}.

#[global] Instance base_has_base : HasBase LayerBase.t := {|
  get_base b := b;
  put_base b _ := b
|}.

Section BaseAccess.
Context {T : Type} `{HasBase T}.

Definition upd_base (f : LayerBase.t -> LayerBase.t) (l : T) : T :=
  put_base (f (get_base l)) l.

(** Run a LayerBase method on the object. *)
Definition on_base {A} (m : M LayerBase.t A) : M T A := fun l =>
  let '(r, b) := m (get_base l) in (r, put_base b l).

Definition get_dv (k : string) : M T pyval := fun l =>
  (dict_get (LayerBase.derived_variables (get_base l)) k, l).
Definition get_param (k : string) : M T pyval := fun l =>
  (dict_get (LayerBase.parameters (get_base l)) k, l).
Definition get_grad (k : string) : M T pyval := fun l =>
  (dict_get (LayerBase.gradients (get_base l)) k, l).

Definition set_dv (k : string) (v : pyval) : M T unit :=
  modify (upd_base (fun b =>
    LayerBase.set_derived_variables (<[k := v]> (LayerBase.derived_variables b)) b)).
Definition set_grad (k : string) (v : pyval) : M T unit :=
  modify (upd_base (fun b =>
    LayerBase.set_gradients (<[k := v]> (LayerBase.gradients b)) b)).
Definition set_param (k : string) (v : pyval) : M T unit :=
  modify (upd_base (fun b =>
    LayerBase.set_parameters (<[k := v]> (LayerBase.parameters b)) b)).

(** [self.parameters = d], [self.gradients = d], [self.derived_variables = d]. *)
Definition put_params (d : gmap string pyval) : M T unit :=
  modify (upd_base (LayerBase.set_parameters d)).
Definition put_grads (d : gmap string pyval) : M T unit :=
  modify (upd_base (LayerBase.set_gradients d)).
Definition put_dvs (d : gmap string pyval) : M T unit :=
  modify (upd_base (LayerBase.set_derived_variables d)).
Definition put_X (v : pyval) : M T unit :=
  modify (upd_base (LayerBase.set_X v)).
Definition get_X : M T pyval := gets (fun l => LayerBase.X (get_base l)).

Definition assert_trainable : M T unit :=
  gets (fun l => LayerBase.trainable (get_base l)) ≫= py_assert.

(** [self.gradients[k] += v]: the sum must have the shape of the stored array. *)
Definition iadd_grad (k : string) (v : Np.ndarray) : M T unit :=
  g ← get_grad k;
  a ← lift (as_array g);
  s ← lift (Np.add a v);
  if decide (Np.shape s = Np.shape a) then set_grad k (VArr s) else raise ValueError.

(** [self.derived_variables[k].append(v)]. *)
Definition append_dv (k : string) (v : Np.ndarray) : M T unit :=
  d ← get_dv k;
  match d with
  | VList xs => set_dv k (VList (xs ++ [v]))
  | _ => raise AttributeError
  end.

(** [self.derived_variables[k] += n] on an integer entry. *)
Definition incr_dv (k : string) (n : Z) : M T unit :=
  d ← get_dv k;
  match d with
  | VInt z => set_dv k (VInt (z + n))
  | _ => raise TypeError
  end.

End BaseAccess.

(** [n, m = a.shape]. *)
Definition shape2 (a : Np.ndarray) : res (nat * nat) :=
  match Np.shape a with
  | [n; m] => Ok (n, m)
  | _ => Err ValueError
  end.

(** The override of [flush_gradients] shared by RNNCell and LSTMCell. *)
Definition cell_flush : M LayerBase.t unit :=
  _ ← assert_trainable;
  _ ← put_X (VList []);
  _ ← modify (upd_base (fun b =>
         LayerBase.set_derived_variables ((fun _ => VList []) <$> LayerBase.derived_variables b) b));
  _ ← set_dv "n_timesteps" (VInt 0);
  _ ← set_dv "current_step" (VInt 0);
  modify (upd_base (fun b =>
    LayerBase.set_gradients
      (map_fold (fun k v g => <[k := zeros_like_val v]> g)
                (LayerBase.gradients b) (LayerBase.parameters b)) b)).

(** ** FullyConnected *)

Module FullyConnected.

Record t : Type := mk {
  base : LayerBase.t;
  n_in : option nat;
  n_out : nat;
  act_fn : Activation;
  init_weights : list nat -> Np.ndarray;
  is_initialized : bool
}.

#[global] Instance has_base : HasBase t := {|
  get_base := base;
  put_base b l := mk b (n_in l) (n_out l) (act_fn l) (init_weights l) (is_initialized l)
|}.

Definition set_n_in (n : option nat) (l : t) : t :=
  mk (base l) n (n_out l) (act_fn l) (init_weights l) (is_initialized l).
Definition set_is_initialized (b : bool) (l : t) : t :=
  mk (base l) (n_in l) (n_out l) (act_fn l) (init_weights l) b.

(** [FullyConnected.__init__]. *)
Definition init (n_out : nat) (act : Activation) (iw : list nat -> Np.ndarray)
    (o : Optimizer) : t :=
  mk (LayerBase.set_parameters (<["W" := VNone]> (<["b" := VNone]> ∅)) (LayerBase.init o))
     None n_out act iw false.

Definition _init_params : M t unit :=
  n ← gets n_in;
  match n with
  | None => raise TypeError
  | Some n_in =>
      n_out ← gets n_out;
      iw ← gets init_weights;
      let b := Np.zeros [1; n_out] in
      let W := iw [n_in; n_out] in
      _ ← put_params (<["W" := VArr W]> (<["b" := VArr b]> ∅));
      _ ← put_dvs (<["Z" := VNone]> (<["Y" := VNone]> ∅));
      _ ← put_grads (<["W" := VArr (Np.zeros_like W)]> (<["b" := VArr (Np.zeros_like b)]> ∅));
      modify (set_is_initialized true)
  end.

Definition forward (X : Np.ndarray) : M t Np.ndarray :=
  ini ← gets is_initialized;
  _ ← (if (ini : bool) then mret tt
       else (n ← lift (shape_at X 1); _ ← modify (set_n_in (Some n)); _init_params)
       : M t unit);
  _ ← put_X (VArr X);
  W ← get_param "W";
  b ← get_param "b";
  act ← gets act_fn;
  Z ← lift (w ← as_array W; xw ← Np.dot X w; bb ← as_array b; Np.add xw bb);
  let Y := act_fn_of act Z in
  _ ← put_dvs (<["Z" := VArr Z]> (<["Y" := VArr Y]> ∅));
  mret Y.

Definition backward (dLdY : Np.ndarray) : M t Np.ndarray :=
  _ ← assert_trainable;
  X ← get_X;
  _ ← py_assert (match X with VNone => false | _ => true end);
  W ← get_param "W";
  Z ← get_dv "Z";
  act ← gets act_fn;
  dZ ← lift (z ← as_array Z; Np.mul dLdY (act_grad_of act z));
  dW ← lift (x ← the_array X; xT ← Np.T x; Np.dot xT dZ);
  dB ← lift (Np.sum_axis0_keep dZ);
  dX ← lift (w ← the_array W; wT ← Np.T w; Np.dot dZ wT);
  _ ← put_grads (<["W" := VArr dW]> (<["b" := VArr dB]>
                   (<["Z" := VArr dZ]> (<["Y" := VArr dLdY]> ∅))));
  mret dX.

Definition flush_gradients : M t unit := on_base LayerBase.flush_gradients.
Definition update : M t unit := on_base (LayerBase.update LayerBase.flush_gradients).
Definition freeze : M t unit := on_base LayerBase.freeze.

End FullyConnected.

(** ** RNNCell *)

Module RNNCell.

Record t : Type := mk {
  base : LayerBase.t;
  n_in : option nat;
  n_out : nat;
  act_fn : Activation;
  init_weights : list nat -> Np.ndarray;
  is_initialized : bool
}.

#[global] Instance has_base : HasBase t := {|
  get_base := base;
  put_base b l := mk b (n_in l) (n_out l) (act_fn l) (init_weights l) (is_initialized l)
|}.

Definition set_n_in (n : option nat) (l : t) : t :=
  mk (base l) n (n_out l) (act_fn l) (init_weights l) (is_initialized l).
Definition set_is_initialized (b : bool) (l : t) : t :=
  mk (base l) (n_in l) (n_out l) (act_fn l) (init_weights l) b.

(** [RNNCell.__init__]. *)
Definition init (n_out : nat) (act : Activation) (iw : list nat -> Np.ndarray)
    (o : Optimizer) : t :=
  mk (LayerBase.set_parameters
        (<["Waa" := VNone]> (<["Wax" := VNone]> (<["ba" := VNone]> (<["bx" := VNone]> ∅))))
        (LayerBase.init o))
     None n_out act iw false.

Definition _init_params : M t unit :=
  _ ← put_X (VList []);
  n ← gets n_in;
  match n with
  | None => raise TypeError
  | Some n_in =>
      n_out ← gets n_out;
      iw ← gets init_weights;
      let Wax := iw [n_in; n_out] in
      let Waa := iw [n_out; n_out] in
      let ba := Np.zeros [n_out; 1] in
      let bx := Np.zeros [n_out; 1] in
      _ ← put_params (<["Waa" := VArr Waa]> (<["Wax" := VArr Wax]>
                        (<["ba" := VArr ba]> (<["bx" := VArr bx]> ∅))));
      _ ← put_grads (<["Waa" := VArr (Np.zeros_like Waa)]> (<["Wax" := VArr (Np.zeros_like Wax)]>
                       (<["ba" := VArr (Np.zeros_like ba)]> (<["bx" := VArr (Np.zeros_like bx)]> ∅))));
      _ ← put_dvs (<["A" := VList []]> (<["Z" := VList []]> (<["n_timesteps" := VInt 0]>
                     (<["current_step" := VInt 0]> (<["dLdA_accumulator" := VNone]> ∅)))));
      modify (set_is_initialized true)
  end.

Definition forward (Xt : Np.ndarray) : M t Np.ndarray :=
  ini ← gets is_initialized;
  _ ← (if (ini : bool) then mret tt
       else (n ← lift (shape_at Xt 1); _ ← modify (set_n_in (Some n)); _init_params)
       : M t unit);
  _ ← incr_dv "n_timesteps" 1;
  _ ← incr_dv "current_step" 1;
  ba ← get_param "ba";
  bx ← get_param "bx";
  Wax ← get_param "Wax";
  Waa ← get_param "Waa";
  As ← (get_dv "A" ≫= fun v => lift (the_list v));
  _ ← (if decide (length As = 0)
       then ('(n_ex, _) ← lift (shape2 Xt);
             n_out ← gets n_out;
             append_dv "A" (Np.zeros [n_ex; n_out]))
       else mret tt : M t unit);
  As ← (get_dv "A" ≫= fun v => lift (the_list v));
  act ← gets act_fn;
  Zt ← lift (a ← py_index As (-1);
             waa ← as_array Waa; t1 ← Np.dot a waa;
             b1 ← the_array ba; b1T ← Np.T b1; t2 ← Np.add t1 b1T;
             wax ← as_array Wax; t3 ← Np.dot Xt wax; t4 ← Np.add t2 t3;
             b2 ← the_array bx; b2T ← Np.T b2; Np.add t4 b2T);
  let At := act_fn_of act Zt in
  X ← get_X;
  _ ← match X with
      | VList xs => put_X (VList (xs ++ [Xt]))
      | _ => raise AttributeError
      end;
  _ ← append_dv "Z" Zt;
  _ ← append_dv "A" At;
  mret At.

Definition backward (dLdAt : Np.ndarray) : M t Np.ndarray :=
  _ ← assert_trainable;
  _ ← incr_dv "current_step" (-1);
  Zs ← get_dv "Z";
  As ← get_dv "A";
  t ← (get_dv "current_step" ≫= fun v => lift (the_int v));
  dA_acc ← get_dv "dLdA_accumulator";
  dA_acc ← lift (match dA_acc with
                 | VNone => as0 ← the_list As; a0 ← py_index as0 0;
                            Ok (VArr (Np.zeros_like a0))
                 | v => Ok v
                 end);
  Wax ← get_param "Wax";
  Waa ← get_param "Waa";
  act ← gets act_fn;
  dA ← lift (acc ← as_array dA_acc; Np.add dLdAt acc);
  dZ ← lift (zs ← the_list Zs; z ← py_index zs t; Np.mul (act_grad_of act z) dA);
  dXt ← lift (w ← the_array Wax; wT ← Np.T w; Np.dot dZ wT);
  gWaa ← lift (as0 ← the_list As; a ← py_index as0 t; aT ← Np.T a; Np.dot aT dZ);
  _ ← iadd_grad "Waa" gWaa;
  X ← get_X;
  gWax ← lift (xs ← the_list X; x ← py_index xs t; xT ← Np.T x; Np.dot xT dZ);
  _ ← iadd_grad "Wax" gWax;
  gb ← lift (s ← Np.sum_axis0_keep dZ; Np.T s);
  _ ← iadd_grad "ba" gb;
  _ ← iadd_grad "bx" gb;
  acc' ← lift (w ← the_array Waa; wT ← Np.T w; Np.dot dZ wT);
  _ ← set_dv "dLdA_accumulator" (VArr acc');
  mret dXt.

Definition flush_gradients : M t unit := on_base cell_flush.
Definition update : M t unit := on_base (LayerBase.update cell_flush).
Definition freeze : M t unit := on_base LayerBase.freeze.

End RNNCell.

(** ** LSTMCell *)

Module LSTMCell.

Record t : Type := mk {
  base : LayerBase.t;
  n_in : option nat;
  n_out : nat;
  act_fn : Activation;
  gate_fn : Activation;
  init_weights : list nat -> Np.ndarray;
  is_initialized : bool
}.

#[global] Instance has_base : HasBase t := {|
  get_base := base;
  put_base b l :=
    mk b (n_in l) (n_out l) (act_fn l) (gate_fn l) (init_weights l) (is_initialized l)
|}.

Definition set_n_in (n : option nat) (l : t) : t :=
  mk (base l) n (n_out l) (act_fn l) (gate_fn l) (init_weights l) (is_initialized l).
Definition set_is_initialized (b : bool) (l : t) : t :=
  mk (base l) (n_in l) (n_out l) (act_fn l) (gate_fn l) (init_weights l) b.

Definition param_keys : list string := ["Wf"; "Wu"; "Wc"; "Wo"; "bf"; "bu"; "bc"; "bo"].

(** [LSTMCell.__init__]. *)
Definition init (n_out : nat) (act gate : Activation) (iw : list nat -> Np.ndarray)
    (o : Optimizer) : t :=
  mk (LayerBase.set_parameters
        (list_to_map ((fun k => (k, VNone)) <$> param_keys)) (LayerBase.init o))
     None n_out act gate iw false.

Definition _init_params : M t unit :=
  _ ← put_X (VList []);
  n ← gets n_in;
  match n with
  | None => raise TypeError
  | Some n_in =>
      n_out ← gets n_out;
      iw ← gets init_weights;
      let Wf := iw [n_in + n_out; n_out] in
      let Wu := iw [n_in + n_out; n_out] in
      let Wc := iw [n_in + n_out; n_out] in
      let Wo := iw [n_in + n_out; n_out] in
      let b0 := Np.zeros [1; n_out] in
      let ps := [("Wf", Wf); ("Wu", Wu); ("Wc", Wc); ("Wo", Wo);
                 ("bf", b0); ("bu", b0); ("bc", b0); ("bo", b0)] in
      _ ← put_params (list_to_map ((fun '(k, a) => (k, VArr a)) <$> ps));
      _ ← put_grads (list_to_map ((fun '(k, a) => (k, VArr (Np.zeros_like a))) <$> ps));
      _ ← put_dvs (list_to_map
             [("C", VList []); ("A", VList []); ("Gf", VList []); ("Gu", VList []);
              ("Go", VList []); ("Gc", VList []); ("Cc", VList []);
              ("n_timesteps", VInt 0); ("current_step", VInt 0);
              ("dLdA_accumulator", VNone); ("dLdC_accumulator", VNone)]);
      modify (set_is_initialized true)
  end.

(** The eight parameters, in the order of [_get_params]. *)
Record params : Type := mk_params {
  Wf : pyval; Wu : pyval; Wc : pyval; Wo : pyval;
  bf : pyval; bu : pyval; bc : pyval; bo : pyval
}.

Definition _get_params : M t params :=
  Wf ← get_param "Wf"; Wu ← get_param "Wu"; Wc ← get_param "Wc"; Wo ← get_param "Wo";
  bf ← get_param "bf"; bu ← get_param "bu"; bc ← get_param "bc"; bo ← get_param "bo";
  mret (mk_params Wf Wu Wc Wo bf bu bc bo).

(** [np.dot(Z, W) + b]. *)
Definition affine (Z : Np.ndarray) (W b : pyval) : res Np.ndarray :=
  w ← as_array W; zw ← Np.dot Z w; bb ← as_array b; Np.add zw bb.

(** [f(np.dot(Z, W) + b)] for an activation [f]. *)
Definition activate (f : Activation) (Z : Np.ndarray) (W b : pyval) : res Np.ndarray :=
  z ← affine Z W b; Ok (act_fn_of f z).

Definition dv_list (k : string) : M t (list Np.ndarray) :=
  get_dv k ≫= fun v => lift (the_list v).

Definition forward (Xt : Np.ndarray) : M t (Np.ndarray * Np.ndarray) :=
  ini ← gets is_initialized;
  _ ← (if (ini : bool) then mret tt
       else (n ← lift (shape_at Xt 1); _ ← modify (set_n_in (Some n)); _init_params)
       : M t unit);
  p ← _get_params;
  _ ← incr_dv "n_timesteps" 1;
  _ ← incr_dv "current_step" 1;
  As ← dv_list "A";
  _ ← (if decide (length As = 0)
       then ('(n_ex, _) ← lift (shape2 Xt);
             n_out ← gets n_out;
             _ ← append_dv "A" (Np.zeros [n_ex; n_out]);
             append_dv "C" (Np.zeros [n_ex; n_out]))
       else mret tt : M t unit);
  A_prev ← (dv_list "A" ≫= fun xs => lift (py_index xs (-1)));
  C_prev ← (dv_list "C" ≫= fun xs => lift (py_index xs (-1)));
  act ← gets act_fn;
  gate ← gets gate_fn;
  Zt ← lift (Np.hstack A_prev Xt);
  Gft ← lift (activate gate Zt (Wf p) (bf p));
  Gut ← lift (activate gate Zt (Wu p) (bu p));
  Got ← lift (activate gate Zt (Wo p) (bo p));
  Cct ← lift (activate act Zt (Wc p) (bc p));
  Ct ← lift (t1 ← Np.mul Gft C_prev; t2 ← Np.mul Gut Cct; Np.add t1 t2);
  At ← lift (Np.mul Got (act_fn_of act Ct));
  X ← get_X;
  _ ← match X with
      | VList xs => put_X (VList (xs ++ [Xt]))
      | _ => raise AttributeError
      end;
  _ ← append_dv "A" At;
  _ ← append_dv "C" Ct;
  _ ← append_dv "Gf" Gft;
  _ ← append_dv "Gu" Gut;
  _ ← append_dv "Go" Got;
  _ ← append_dv "Cc" Cct;
  mret (At, Ct).

Definition backward (dLdAt : Np.ndarray) : M t Np.ndarray :=
  _ ← assert_trainable;
  p ← _get_params;
  _ ← incr_dv "current_step" (-1);
  t ← (get_dv "current_step" ≫= fun v => lift (the_int v));
  Got ← (dv_list "Go" ≫= fun xs => lift (py_index xs t));
  Gft ← (dv_list "Gf" ≫= fun xs => lift (py_index xs t));
  Gut ← (dv_list "Gu" ≫= fun xs => lift (py_index xs t));
  Cct ← (dv_list "Cc" ≫= fun xs => lift (py_index xs t));
  At ← (dv_list "A" ≫= fun xs => lift (py_index xs (t + 1)));
  Ct ← (dv_list "C" ≫= fun xs => lift (py_index xs (t + 1)));
  C_prev ← (dv_list "C" ≫= fun xs => lift (py_index xs t));
  A_prev ← (dv_list "A" ≫= fun xs => lift (py_index xs t));
  Xt ← (get_X ≫= fun X => lift (xs ← the_list X; py_index xs t));
  Zt ← lift (Np.hstack A_prev Xt);
  dA_acc ← get_dv "dLdA_accumulator";
  dC_acc ← get_dv "dLdC_accumulator";
  let dA_acc := match dA_acc with VNone => VArr (Np.zeros_like At) | v => v end in
  let dC_acc := match dC_acc with VNone => VArr (Np.zeros_like Ct) | v => v end in
  act ← gets act_fn;
  gate ← gets gate_fn;
  dA ← lift (acc ← as_array dA_acc; Np.add dLdAt acc);
  dC ← lift (acc ← as_array dC_acc; t1 ← Np.mul dA Got;
             t2 ← Np.mul t1 (act_grad_of act Ct); Np.add acc t2);
  _Go ← lift (affine Zt (Wo p) (bo p));
  _Gf ← lift (affine Zt (Wf p) (bo p));
  _Gu ← lift (affine Zt (Wu p) (bo p));
  _Gc ← lift (affine Zt (Wc p) (bc p));
  dGot ← lift (t1 ← Np.mul dA (act_fn_of act Ct); Np.mul t1 (act_grad_of gate _Go));
  dCct ← lift (t1 ← Np.mul dC Gut; Np.mul t1 (act_grad_of act _Gc));
  dGut ← lift (t1 ← Np.mul dC Cct; Np.mul t1 (act_grad_of gate _Gu));
  dGft ← lift (t1 ← Np.mul dC C_prev; Np.mul t1 (act_grad_of gate _Gf));
  dZ ← lift (wf ← the_array (Wf p); wfT ← Np.T wf; t1 ← Np.dot dGft wfT;
             wu ← the_array (Wu p); wuT ← Np.T wu; t2 ← Np.dot dGut wuT; s1 ← Np.add t1 t2;
             wc ← the_array (Wc p); wcT ← Np.T wc; t3 ← Np.dot dCct wcT; s2 ← Np.add s1 t3;
             wo ← the_array (Wo p); woT ← Np.T wo; t4 ← Np.dot dGot woT; Np.add s2 t4);
  n_out ← gets n_out;
  dXt ← lift (m ← shape_at dZ 1; Np.cols dZ n_out m);
  ZtT ← lift (Np.T Zt);
  _ ← (lift (Np.dot ZtT dCct) ≫= iadd_grad "Wc");
  _ ← (lift (Np.dot ZtT dGut) ≫= iadd_grad "Wu");
  _ ← (lift (Np.dot ZtT dGft) ≫= iadd_grad "Wf");
  _ ← (lift (Np.dot ZtT dGot) ≫= iadd_grad "Wo");
  _ ← (lift (Np.sum_axis0_keep dGot) ≫= iadd_grad "bo");
  _ ← (lift (Np.sum_axis0_keep dGut) ≫= iadd_grad "bu");
  _ ← (lift (Np.sum_axis0_keep dGft) ≫= iadd_grad "bf");
  _ ← (lift (Np.sum_axis0_keep dCct) ≫= iadd_grad "bc");
  accA ← lift (Np.cols dZ 0 n_out);
  _ ← set_dv "dLdA_accumulator" (VArr accA);
  accC ← lift (Np.mul Gft dC);
  _ ← set_dv "dLdC_accumulator" (VArr accC);
  mret dXt.

Definition flush_gradients : M t unit := on_base cell_flush.
Definition update : M t unit := on_base (LayerBase.update cell_flush).
Definition freeze : M t unit := on_base LayerBase.freeze.

End LSTMCell.

(** ** Padding policy *)

Inductive pad_spec : Type :=
  | PadInt (p : nat)
  | PadPair (pr pc : nat)
  | PadQuad (pr1 pr2 pc1 pc2 : nat)
  | PadSame.

(** Effective kernel extent after dilation. *)
Definition eff_kernel (f d : nat) : nat := f * (d + 1) - d.

(** Modelled from the spec: the resolution of a padding policy (the functions
    [pad2D] and [calc_pad_dims_2D] of [utils] are not in this file).  An
    integer is applied on all four sides, a pair to rows and columns, a quad
    as given; "same" makes the output length equal to the input length, the
    excess going to the trailing side. *)
Definition same_pad (len f s d : nat) : nat * nat :=
  let total := s * (len - 1) + eff_kernel f d - len in
  (total / 2, total - total / 2).

Definition resolve_pad (p : pad_spec) (in_rows in_cols fr fc s d : nat)
  : nat * nat * nat * nat :=
  match p with
  | PadInt p => (p, p, p, p)
  | PadPair pr pc => (pr, pr, pc, pc)
  | PadQuad pr1 pr2 pc1 pc2 => (pr1, pr2, pc1, pc2)
  | PadSame =>
      let '(pr1, pr2) := same_pad in_rows fr s d in
      let '(pc1, pc2) := same_pad in_cols fc s d in
      (pr1, pr2, pc1, pc2)
  end.

(** [pad2D(X, pad, kernel_shape, stride, dilation)]: the padded volume and
    the resolved padding. *)
Definition pad2D (X : Np.ndarray) (p : pad_spec) (kernel : nat * nat) (s d : nat)
  : res (Np.ndarray * (nat * nat * nat * nat)) :=
  match Np.shape X with
  | [n; r; c; ch] =>
      let q := resolve_pad p r c kernel.1 kernel.2 s d in
      Xp ← Np.pad_volume X q; Ok (Xp, q)
  | _ => Err ValueError
  end.

(** Output length [floor(1 + (len + pad_before + pad_after - kernel) / stride)]. *)
Definition out_dim (len p1 p2 k s : nat) : res Z :=
  if Nat.eqb s 0 then Err ZeroDivisionError
  else Ok (1 + (Z.of_nat len + Z.of_nat p1 + Z.of_nat p2 - Z.of_nat k) / Z.of_nat s)%Z.

(** A loop whose body updates an accumulator and may raise. *)
Fixpoint foldM {A B} (f : B -> A -> res B) (xs : list A) (b : B) : res B :=
  match xs with
  | [] => Ok b
  | x :: xs' => b' ← f b x; foldM f xs' b'
  end.

(** [range(n)]. *)
Definition range (n : Z) : list nat := List.seq 0 (Z.to_nat n).

(** The largest entry of a list, and the position of its first occurrence. *)
Definition list_max (l : list Z) : option Z :=
  match l with
  | [] => None
  | x :: l' => Some (List.fold_left Z.max l' x)
  end.

Fixpoint index_of (x : Z) (l : list Z) : option nat :=
  match l with
  | [] => None
  | y :: l' => if Z.eqb y x then Some 0 else option_map S (index_of x l')
  end.

(** ** Pool2D *)

Module Pool2D.

Inductive pool_mode : Type := Max | Average.

Record t : Type := mk {
  base : LayerBase.t;
  pad : pad_spec;
  mode : pool_mode;
  in_ch : option nat;
  out_ch : option nat;
  stride : nat;
  kernel_shape : nat * nat;
  is_initialized : bool
}.

#[global] Instance has_base : HasBase t := {|
  get_base := base;
  put_base b l := mk b (pad l) (mode l) (in_ch l) (out_ch l) (stride l) (kernel_shape l)
                     (is_initialized l)
|}.

(** [Pool2D.__init__]. *)
Definition init (kernel : nat * nat) (stride : nat) (pad : pad_spec) (mode : pool_mode)
    (o : Optimizer) : t :=
  mk (LayerBase.init o) pad mode None None stride kernel false.

Definition _init_params : M t unit :=
  _ ← put_dvs (<["out_rows" := VNone]> (<["out_cols" := VNone]> (<["masks" := VList []]> ∅)));
  modify (fun l => mk (base l) (pad l) (mode l) (in_ch l) (out_ch l) (stride l)
                      (kernel_shape l) true).

(** The scalar quotient of the average mode.  Scalars are integers here, so
    the quotient is given when it is exact; a quotient that is not an integer
    (or the [nan] of a division by zero) has no counterpart and is left
    unmodelled. *)
Definition sdiv (a b : Z) : res Z :=
  if (b =? 0)%Z then Err Unmodelled
  else if (a mod b =? 0)%Z then Ok (a / b)%Z
  else Err Unmodelled.

(** [np.max(xi)] and [np.mean(xi)] on a window. *)
Definition pool_fn (m : pool_mode) (xi : Np.ndarray) : res Z :=
  match m with
  | Max => match list_max (Np.data xi) with
           | Some v => Ok v
           | None => Err ValueError
           end
  | Average => sdiv (List.fold_left sadd (Np.data xi) 0%Z)
                    (Z.of_nat (length (Np.data xi)))
  end.

(** [Y[m, i, j, c] = v]. *)
Definition set4 (Y : Np.ndarray) (m i j c : nat) (v : Z) : Np.ndarray :=
  Np.mk (Np.shape Y)
        (<[Np.ravel (Np.shape Y) [m; i; j; c] := v]> (Np.data Y)).

Definition to_dim (z : Z) : res nat :=
  if (z <? 0)%Z then Err ValueError else Ok (Z.to_nat z).

Definition forward (X : Np.ndarray) : M t Np.ndarray :=
  ini ← gets is_initialized;
  _ ← (if (ini : bool) then mret tt
       else (n ← lift (shape_at X 3);
             _ ← modify (fun l => mk (base l) (pad l) (mode l) (Some n) (Some n) (stride l)
                                     (kernel_shape l) (is_initialized l));
             _init_params)
       : M t unit);
  _ ← put_X (VArr X);
  l ← gets (fun l => l);
  let '(fr, fc) := kernel_shape l in
  let s := stride l in
  '(n_ex, in_rows, in_cols) ← lift (match Np.shape X with
                                    | [a; b; c; _] => Ok (a, b, c)
                                    | _ => Err ValueError
                                    end);
  '(X_pad, (pr1, pr2, pc1, pc2)) ← lift (pad2D X (pad l) (fr, fc) s 0);
  out_rows ← lift (out_dim in_rows pr1 pr2 fr s);
  out_cols ← lift (out_dim in_cols pc1 pc2 fc s);
  _ ← set_dv "out_rows" (VInt out_rows);
  _ ← set_dv "out_cols" (VInt out_cols);
  och ← lift (match out_ch l with Some n => Ok n | None => Err TypeError end);
  Y0 ← lift (r ← to_dim out_rows; c ← to_dim out_cols; Ok (Np.zeros [n_ex; r; c; och]));
  lift (foldM (fun Y m =>
    foldM (fun Y i =>
      foldM (fun Y j =>
        foldM (fun Y c =>
          let i0 := i * s in let i1 := i * s + fr in
          let j0 := j * s in let j1 := j * s + fc in
          xi ← Np.getslice X_pad [Np.Idx m; Np.Slice i0 i1 1; Np.Slice j0 j1 1; Np.Idx c];
          v ← pool_fn (mode l) xi;
          Ok (set4 Y m i j c v))
        (List.seq 0 och) Y)
      (range out_cols) Y)
    (range out_rows) Y)
  (List.seq 0 n_ex) Y0).

(** The mask of the max mode: a single [True] at the first position, in
    row-major order, that holds the largest entry of [xi]. *)
Definition first_max_mask (xi : Np.ndarray) : res Np.ndarray :=
  match list_max (Np.data xi) with
  | None => Err ValueError
  | Some v =>
      match index_of v (Np.data xi) with
      | None => Err IndexError
      | Some k => Ok (Np.mk (Np.shape xi)
                        (tab (length (Np.data xi)) (fun p => if Nat.eqb p k then 1%Z else 0%Z)))
      end
  end.

Definition backward (dLdY : Np.ndarray) : M t Np.ndarray :=
  _ ← assert_trainable;
  Xv ← get_X;
  l ← gets (fun l => l);
  X ← lift (the_array Xv);
  '(n_ex, in_rows, in_cols) ← lift (match Np.shape X with
                                    | [a; b; c; _] => Ok (a, b, c)
                                    | _ => Err ValueError
                                    end);
  let '(fr, fc) := kernel_shape l in
  let s := stride l in
  '(X_pad, p) ← lift (pad2D X (pad l) (fr, fc) s 0);
  out_rows ← (get_dv "out_rows" ≫= fun v => lift (the_int v));
  out_cols ← (get_dv "out_cols" ≫= fun v => lift (the_int v));
  och ← lift (match out_ch l with Some n => Ok n | None => Err TypeError end);
  dX ← lift (foldM (fun dX m =>
    foldM (fun dX i =>
      foldM (fun dX j =>
        foldM (fun dX c =>
          let i0 := i * s in let i1 := i * s + fr in
          let j0 := j * s in let j1 := j * s + fc in
          dy ← Np.item4 dLdY m i j c;
          let sels := [Np.Idx m; Np.Slice i0 i1 1; Np.Slice j0 j1 1; Np.Idx c] in
          match mode l with
          | Max =>
              xi ← Np.getslice X sels;
              mask ← first_max_mask xi;
              g ← Np.mul mask (Np.scalar dy);
              Np.iadd_slice dX sels g
          | Average =>
              q ← sdiv dy (Z.of_nat (fr * fc));
              g ← Ok (Np.mk [fr; fc] (List.repeat q (fr * fc)));
              Np.iadd_slice dX sels g
          end)
        (List.seq 0 och) dX)
      (range out_cols) dX)
    (range out_rows) dX)
  (List.seq 0 n_ex) (Np.zeros_like X_pad));
  lift (Np.crop_volume dX p).

End Pool2D.

(** ** The convolution engine *)

Definition quad : Type := nat * nat * nat * nat.

(** Output extents of a convolution over a volume of the given spatial size. *)
Definition out_dims (in_rows in_cols fr fc s d : nat) (p : quad) : res (nat * nat) :=
  let '(pr1, pr2, pc1, pc2) := p in
  r ← (out_dim in_rows pr1 pr2 (eff_kernel fr d) s ≫= Pool2D.to_dim);
  c ← (out_dim in_cols pc1 pc2 (eff_kernel fc d) s ≫= Pool2D.to_dim);
  Ok (r, c).

(** Modelled from the spec: the cross-correlation [conv2D] of [utils] (not in
    this file): pad, then for every output position multiply the dilated
    receptive field with the kernel and sum; no kernel flip. *)
Definition conv2D (X W : Np.ndarray) (s : nat) (p : pad_spec) (d : nat) : res Np.ndarray :=
  match Np.shape W, Np.shape X with
  | [fr; fc; in_ch; out_ch], [n_ex; in_rows; in_cols; _] =>
      '(X_pad, q) ← pad2D X p (fr, fc) s d;
      '(out_rows, out_cols) ← out_dims in_rows in_cols fr fc s d q;
      Ok (Np.mk4 n_ex out_rows out_cols out_ch (fun m i j c =>
            sumn fr (fun a => sumn fc (fun b => sumn in_ch (fun k =>
              smul (Np.get4 X_pad m (i * s + a * (d + 1)) (j * s + b * (d + 1)) k)
                   (Np.get4 W a b k c))))))
  | _, _ => Err ValueError
  end.

(** Modelled from the spec: the window-unrolling transform [im2col] of
    [utils] (not in this file).  The input is padded; the column of the
    result for output position [(i, j)] of example [m] holds the dilated
    receptive field of that position across all input channels.  Rows are
    ordered by (channel, kernel row, kernel column) and columns by (output
    row, output column, example), the layout that the reshapes of
    [Conv2D.backward] rely on.  The resolved padding is returned too. *)
Definition im2col (X : Np.ndarray) (W_shape : list nat) (p : pad_spec) (s d : nat)
  : res (Np.ndarray * quad) :=
  match W_shape, Np.shape X with
  | [fr; fc; n_in; _], [n_ex; in_rows; in_cols; _] =>
      '(X_pad, q) ← pad2D X p (fr, fc) s d;
      '(out_rows, out_cols) ← out_dims in_rows in_cols fr fc s d q;
      let nrows := n_in * fr * fc in
      let ncols := out_rows * out_cols * n_ex in
      Ok (Np.mk [nrows; ncols]
            (tab (nrows * ncols) (fun e =>
               let row := e / ncols in
               let col := e mod ncols in
               let k := row / (fr * fc) in
               let a := row / fc mod fr in
               let b := row mod fc in
               let i := col / (out_cols * n_ex) in
               let j := col / n_ex mod out_cols in
               let m := col mod n_ex in
               Np.get4 X_pad m (i * s + a * (d + 1)) (j * s + b * (d + 1)) k)),
          q)
  | _, _ => Err ValueError
  end.

(** [np.add.at]: add [v] to the entry at flat position [pos]. *)
Definition add_at (a : Np.ndarray) (pos : nat) (v : Z) : res Np.ndarray :=
  match Np.data a !! pos with
  | Some x => Ok (Np.mk (Np.shape a) (<[pos := sadd x v]> (Np.data a)))
  | None => Err IndexError
  end.

(** Modelled from the spec: the inverse scatter-add [col2im] of [utils] (not
    in this file).  The entries of every column are added back into their
    receptive-field footprint in a zero volume of the padded size, laid out
    as (example, channel, row, column); the padding frame is then cropped. *)
Definition col2im (X_col : Np.ndarray) (X_shape W_shape : list nat) (q : quad) (s d : nat)
  : res Np.ndarray :=
  match W_shape, X_shape with
  | [fr; fc; n_in; _], [n_ex; in_rows; in_cols; _] =>
      let '(pr1, pr2, pc1, pc2) := q in
      '(out_rows, out_cols) ← out_dims in_rows in_cols fr fc s d q;
      let nrows := n_in * fr * fc in
      let ncols := out_rows * out_cols * n_ex in
      let sh := [n_ex; n_in; in_rows + pr1 + pr2; in_cols + pc1 + pc2] in
      X_pad ← foldM (fun acc e =>
                 let row := e / ncols in
                 let col := e mod ncols in
                 let k := row / (fr * fc) in
                 let a := row / fc mod fr in
                 let b := row mod fc in
                 let i := col / (out_cols * n_ex) in
                 let j := col / n_ex mod out_cols in
                 let m := col mod n_ex in
                 add_at acc (Np.ravel sh [m; k; i * s + a * (d + 1); j * s + b * (d + 1)])
                        (Np.geti X_col e))
               (List.seq 0 (nrows * ncols)) (Np.zeros sh);
      Np.getslice X_pad
        [Np.All n_ex; Np.All n_in;
         Np.Slice pr1 (in_rows + pr1 + pr2 - pr2) 1; Np.Slice pc1 (in_cols + pc1 + pc2 - pc2) 1]
  | _, _ => Err ValueError
  end.

(** ** Conv2D *)

Module Conv2D.

Record t : Type := mk {
  base : LayerBase.t;
  pad : pad_spec;
  in_ch : option nat;
  out_ch : nat;
  stride : nat;
  dilation : nat;
  kernel_shape : nat * nat;
  act_fn : Activation;
  init_weights : list nat -> Np.ndarray;
  is_initialized : bool
}.

#[global] Instance has_base : HasBase t := {|
  get_base := base;
  put_base b l := mk b (pad l) (in_ch l) (out_ch l) (stride l) (dilation l) (kernel_shape l)
                     (act_fn l) (init_weights l) (is_initialized l)
|}.

(** [Conv2D.__init__]. *)
Definition init (out_ch : nat) (kernel : nat * nat) (pad : pad_spec) (stride dilation : nat)
    (act : Activation) (iw : list nat -> Np.ndarray) (o : Optimizer) : t :=
  mk (LayerBase.set_parameters (<["W" := VNone]> (<["b" := VNone]> ∅)) (LayerBase.init o))
     pad None out_ch stride dilation kernel act iw false.

Definition _init_params : M t unit :=
  l ← gets (fun l => l);
  match in_ch l with
  | None => raise TypeError
  | Some n_in =>
      let '(fr, fc) := kernel_shape l in
      let W := init_weights l [fr; fc; n_in; out_ch l] in
      let b := Np.zeros [1; 1; 1; out_ch l] in
      _ ← put_params (<["W" := VArr W]> (<["b" := VArr b]> ∅));
      _ ← put_grads (<["W" := VArr (Np.zeros_like W)]> (<["b" := VArr (Np.zeros_like b)]> ∅));
      _ ← put_dvs (<["Z" := VNone]> (<["out_rows" := VNone]> (<["out_cols" := VNone]> ∅)));
      modify (fun l => mk (base l) (pad l) (in_ch l) (out_ch l) (stride l) (dilation l)
                          (kernel_shape l) (act_fn l) (init_weights l) true)
  end.

Definition forward (X : Np.ndarray) : M t Np.ndarray :=
  ini ← gets is_initialized;
  _ ← (if (ini : bool) then mret tt
       else (n ← lift (shape_at X 3);
             _ ← modify (fun l => mk (base l) (pad l) (Some n) (out_ch l) (stride l)
                                     (dilation l) (kernel_shape l) (act_fn l)
                                     (init_weights l) (is_initialized l));
             _init_params)
       : M t unit);
  _ ← put_X (VArr X);
  W ← get_param "W";
  b ← get_param "b";
  l ← gets (fun l => l);
  _ ← lift (match Np.shape X with [_; _; _; _] => Ok tt | _ => Err ValueError end);
  Z ← lift (w ← the_array W; z ← conv2D X w (stride l) (pad l) (dilation l);
            bb ← as_array b; Np.add z bb);
  let Y := act_fn_of (act_fn l) Z in
  _ ← (lift (shape_at Z 1) ≫= fun n => set_dv "out_rows" (VInt (Z.of_nat n)));
  _ ← (lift (shape_at Z 2) ≫= fun n => set_dv "out_cols" (VInt (Z.of_nat n)));
  _ ← set_dv "Z" (VArr Z);
  mret Y.

(** The gradients computed by [backward], before they are stored. *)
Definition backward_grads (l : t) (Xv Wv Zv : pyval) (dLdY : Np.ndarray)
  : res (Np.ndarray * Np.ndarray * Np.ndarray) :=
  let d := dilation l in
  W ← the_array Wv;
  '(in_ch, out_ch) ← match Np.shape W with
                     | [_; _; ic; oc] => Ok (ic, oc)
                     | _ => Err ValueError
                     end;
  out_ch ← match Np.shape dLdY with
           | [_; _; _; oc] => Ok oc
           | _ => Err ValueError
           end;
  let '(fr, fc) := kernel_shape l in
  let s := stride l in
  let p := pad l in
  dLdZ ← (z ← as_array Zv; Np.mul dLdY (act_grad_of (act_fn l) z));
  dLdZ_col ← (t ← Np.transpose dLdZ [3; 1; 2; 0]; Np.reshape_rows t out_ch);
  W_col ← (t ← Np.transpose W [3; 2; 0; 1]; r ← Np.reshape_rows t out_ch; Np.T r);
  X ← the_array Xv;
  '(X_col, q) ← im2col X (Np.shape W) p s d;
  dB ← (sm ← Np.sum_axis1 dLdZ_col; Np.reshape sm [1; 1; 1; length (Np.data sm)]);
  dW ← (xt ← Np.T X_col; pr ← Np.dot dLdZ_col xt;
        r ← Np.reshape pr [out_ch; in_ch; fr; fc]; Np.transpose r [2; 3; 1; 0]);
  dX_col ← Np.dot W_col dLdZ_col;
  dX ← (c ← col2im dX_col (Np.shape X) (Np.shape W) q s d; Np.transpose c [0; 2; 3; 1]);
  Ok (dX, dW, dB).

Definition backward (dLdY : Np.ndarray) : M t Np.ndarray :=
  X ← get_X;
  W ← get_param "W";
  Z ← get_dv "Z";
  l ← gets (fun l => l);
  '(dX, dW, dB) ← lift (backward_grads l X W Z dLdY);
  _ ← set_grad "W" (VArr dW);
  _ ← set_grad "b" (VArr dB);
  mret dX.

(** The body of the four nested loops of [_backward_naive]. *)
Definition naive_step (l : t) (W X_pad dZ : Np.ndarray) (m i j c : nat)
    (acc : Np.ndarray * Np.ndarray * Np.ndarray)
  : res (Np.ndarray * Np.ndarray * Np.ndarray) :=
  let '(dX, dW, dB) := acc in
  let '(fr, fc) := kernel_shape l in
  let s := stride l in
  let d := dilation l in
  let i0 := i * s in let i1 := i * s + fr * (d + 1) - d in
  let j0 := j * s in let j1 := j * s + fc * (d + 1) - d in
  let all ax a := Np.All (List.nth ax (Np.shape a) 0) in
  wc ← Np.getslice W [all 0 W; all 1 W; all 2 W; Np.Idx c];
  kernel ← Np.item4 dZ m i j c;
  let win := [Np.Idx m; Np.Slice i0 i1 (d + 1); Np.Slice j0 j1 (d + 1); all 3 X_pad] in
  window ← Np.getslice X_pad win;
  dB ← Np.iadd_slice dB [all 0 dB; all 1 dB; all 2 dB; Np.Idx c] (Np.scalar kernel);
  dW ← (g ← Np.mul window (Np.scalar kernel);
        Np.iadd_slice dW [all 0 dW; all 1 dW; all 2 dW; Np.Idx c] g);
  dX ← (g ← Np.mul wc (Np.scalar kernel); Np.iadd_slice dX win g);
  Ok (dX, dW, dB).

Definition naive_grads (l : t) (Xv Wv bv Zv : pyval) (dLdY : Np.ndarray)
  : res (Np.ndarray * Np.ndarray * Np.ndarray) :=
  '(n_ex, out_rows, out_cols, out_ch) ← match Np.shape dLdY with
                                        | [a; b; c; e] => Ok (a, b, c, e)
                                        | _ => Err ValueError
                                        end;
  X ← the_array Xv;
  '(X_pad, q) ← pad2D X (pad l) (kernel_shape l) (stride l) (dilation l);
  dZ ← (z ← as_array Zv; Np.mul dLdY (act_grad_of (act_fn l) z));
  W ← as_array Wv;
  b ← as_array bv;
  '(dX, dW, dB) ←
    foldM (fun acc m =>
      foldM (fun acc i =>
        foldM (fun acc j =>
          foldM (fun acc c => naive_step l W X_pad dZ m i j c acc)
                (List.seq 0 out_ch) acc)
          (List.seq 0 out_cols) acc)
        (List.seq 0 out_rows) acc)
      (List.seq 0 n_ex) (Np.zeros_like X_pad, Np.zeros_like W, Np.zeros_like b);
  dX ← Np.crop_volume dX q;
  Ok (dX, dW, dB).

Definition _backward_naive (dLdY : Np.ndarray) : M t Np.ndarray :=
  W ← get_param "W";
  b ← get_param "b";
  Z ← get_dv "Z";
  X ← get_X;
  l ← gets (fun l => l);
  '(dX, dW, dB) ← lift (naive_grads l X W b Z dLdY);
  _ ← set_grad "W" (VArr dW);
  _ ← set_grad "b" (VArr dB);
  mret dX.

Definition flush_gradients : M t unit := on_base LayerBase.flush_gradients.
Definition update : M t unit := on_base (LayerBase.update LayerBase.flush_gradients).
Definition freeze : M t unit := on_base LayerBase.freeze.

End Conv2D.

(** ** Add and Multiply *)

Module Combinator.

Inductive kind : Type := Add | Multiply.

Record t : Type := mk { base : LayerBase.t; which : kind; act_fn : Activation }.

#[global] Instance has_base : HasBase t := {|
  get_base := base;
  put_base b l := mk b (which l) (act_fn l)
|}.

(** [__init__]: [_init_params] sets the single derived variable. *)
Definition init (k : kind) (act : Activation) (o : Optimizer) : t :=
  mk (LayerBase.set_derived_variables
        (<[match k with Add => "sum" | Multiply => "product" end := VNone]> ∅)
        (LayerBase.init o)) k act.

(** [out += x] and [out *= x]: the result must have the shape of [out]. *)
Definition inplace (f : Np.ndarray -> Np.ndarray -> res Np.ndarray) (out x : Np.ndarray)
  : res Np.ndarray :=
  s ← f out x;
  if decide (Np.shape s = Np.shape out) then Ok s else Err ValueError.

Definition forward (X : list Np.ndarray) : M t Np.ndarray :=
  _ ← put_X (VList X);
  l ← gets (fun l => l);
  x0 ← lift (py_index X 0);
  out ← lift (foldM (fun acc x => match which l with
                                  | Add => inplace Np.add acc x
                                  | Multiply => inplace Np.mul acc x
                                  end) (List.tl X) x0);
  _ ← set_dv (match which l with Add => "sum" | Multiply => "product" end) (VArr out);
  mret (act_fn_of (act_fn l) out).

Definition backward (dLdY : Np.ndarray) : M t (list Np.ndarray) :=
  l ← gets (fun l => l);
  v ← get_dv (match which l with Add => "sum" | Multiply => "product" end);
  Xv ← get_X;
  let g := (a ← as_array v; Np.mul dLdY (act_grad_of (act_fn l) a)) in
  match which l with
  | Add =>
      X ← lift (the_list Xv);
      lift (foldM (fun acc _ => gi ← g; Ok (acc ++ [gi])) X [])
  | Multiply =>
      g ← lift g;
      X ← lift (the_list Xv);
      lift (foldM (fun grads '(i, x) =>
                     foldM (fun acc '(j, gj) =>
                              if Nat.eqb j i then Ok (acc ++ [gj])
                              else (p ← Np.mul gj x; Ok (acc ++ [p])))
                           (List.combine (List.seq 0 (length grads)) grads) [])
                  (List.combine (List.seq 0 (length X)) X)
                  (List.map (fun _ => g) X))
  end.

Definition flush_gradients : M t unit := on_base LayerBase.flush_gradients.
Definition update : M t unit := on_base (LayerBase.update LayerBase.flush_gradients).

End Combinator.

(** ** Flatten *)

Module Flatten.

Inductive keep : Type := First | Last | AllDims.

Record t : Type := mk { base : LayerBase.t; keep_dim : keep; in_dims : option (list nat) }.

#[global] Instance has_base : HasBase t := {|
  get_base := base;
  put_base b l := mk b (keep_dim l) (in_dims l)
|}.

Definition init (k : keep) (o : Optimizer) : t := mk (LayerBase.init o) k None.

Definition forward (X : Np.ndarray) : M t Np.ndarray :=
  _ ← modify (fun l => mk (base l) (keep_dim l) (Some (Np.shape X)));
  k ← gets keep_dim;
  match k with
  | AllDims => mret (Np.mk [1; length (Np.data X)] (Np.data X))
  | First => lift (n ← shape_at X 0; Np.reshape_rows X n)
  | Last => lift (n ← shape_at X (length (Np.shape X) - 1);
                  if Nat.eqb n 0 then Err ValueError
                  else if Nat.eqb (length (Np.data X) mod n) 0
                       then Ok (Np.mk [length (Np.data X) / n; n] (Np.data X))
                       else Err ValueError)
  end.

(** [dLdy.reshape] applied to the unpacked [in_dims]: with [in_dims = ()]
    the call is [dLdy.reshape()], which has no shape argument and raises. *)
Definition backward (dLdy : Np.ndarray) : M t Np.ndarray :=
  d ← gets in_dims;
  match d with
  | Some [] => raise TypeError
  | Some sh => lift (Np.reshape dLdy sh)
  | None => raise AttributeError
  end.

Definition flush_gradients : M t unit := on_base LayerBase.flush_gradients.
Definition update : M t unit := on_base (LayerBase.update LayerBase.flush_gradients).

End Flatten.

(** ** Layers whose arithmetic is left to their numeric kernels

    Batch normalisation needs means, variances and square roots; Conv1D and
    Deconv2D go through helpers of [utils] ([pad1D], [conv1D], [dilate],
    [deconv2D_naive], [calc_pad_dims_2D]) that are not in this file.  For
    these layers the dictionary bookkeeping of the methods is modelled
    exactly and the arrays they compute are results of the [kernel] fields. *)

Module BatchNorm.

(** [two_d] distinguishes BatchNorm2D from BatchNorm1D. *)
Record t : Type := mk {
  base : LayerBase.t;
  two_d : bool;
  n_in : option nat;
  is_initialized : bool;
  rand : list nat -> Np.ndarray;
  (** [X.mean(axis=...)] and [X.var(axis=...)] of the batch *)
  batch_stats : Np.ndarray -> res (Np.ndarray * Np.ndarray);
  (** [mm * r + (1.0 - mm) * s] for a running statistic [r] and a batch
      statistic [s] *)
  mix : pyval -> Np.ndarray -> res Np.ndarray;
  (** input, mean, variance, scaler, intercept:
      [scaler * ((X - mean) / sqrt(var + ep)) + intercept] *)
  normalise : Np.ndarray -> pyval -> pyval -> pyval -> pyval -> res Np.ndarray;
  (** input, scaler, upstream gradient: dX, dScaler, dIntercept *)
  backward_kernel : pyval -> pyval -> Np.ndarray
                    -> res (Np.ndarray * Np.ndarray * Np.ndarray)
}.

#[global] Instance has_base : HasBase t := {|
  get_base := base;
  put_base b l := mk b (two_d l) (n_in l) (is_initialized l) (rand l)
                     (batch_stats l) (mix l) (normalise l) (backward_kernel l)
|}.

Definition param_keys : list string := ["scaler"; "intercept"; "running_var"; "running_mean"].

Definition init (two_d : bool) rand bs mx nm bk (o : Optimizer) : t :=
  mk (LayerBase.set_parameters (list_to_map ((fun k => (k, VNone)) <$> param_keys))
        (LayerBase.init o))
     two_d None false rand bs mx nm bk.

Definition _init_params : M t unit :=
  l ← gets (fun l => l);
  match n_in l with
  | None => raise TypeError
  | Some n =>
      let scaler := rand l [n] in
      let intercept := Np.zeros [n] in
      let running_mean := Np.zeros [n] in
      let running_var := Np.mk [n] (List.repeat 1%Z n) in
      _ ← put_params (<["scaler" := VArr scaler]> (<["intercept" := VArr intercept]>
             (<["running_var" := VArr running_var]> (<["running_mean" := VArr running_mean]> ∅))));
      _ ← put_grads (<["scaler" := VArr (Np.zeros_like scaler)]>
             (<["intercept" := VArr (Np.zeros_like intercept)]> ∅));
      modify (fun l => mk (base l) (two_d l) (n_in l) true (rand l)
                          (batch_stats l) (mix l) (normalise l) (backward_kernel l))
  end.

Definition forward (X : Np.ndarray) : M t Np.ndarray :=
  ini ← gets is_initialized;
  _ ← (if (ini : bool) then mret tt
       else (td ← gets two_d;
             n ← lift (shape_at X (if (td : bool) then 3 else 1));
             _ ← modify (fun l => mk (base l) (two_d l) (Some n) (is_initialized l) (rand l)
                                     (batch_stats l) (mix l) (normalise l)
                                     (backward_kernel l));
             _init_params)
       : M t unit);
  _ ← put_X (VArr X);
  rm ← get_param "running_mean";
  rv ← get_param "running_var";
  scaler ← get_param "scaler";
  intercept ← get_param "intercept";
  l ← gets (fun l => l);
  '(X_mean, X_var) ← (if LayerBase.trainable (base l)
       then ('(m, v) ← lift (batch_stats l X);
             new_rm ← lift (mix l rm m);
             _ ← set_param "running_mean" (VArr new_rm);
             new_rv ← lift (mix l rv v);
             _ ← set_param "running_var" (VArr new_rv);
             mret (VArr m, VArr v))
       else mret (rm, rv) : M t (pyval * pyval));
  lift (normalise l X X_mean X_var scaler intercept).

Definition backward (dLdy : Np.ndarray) : M t Np.ndarray :=
  _ ← assert_trainable;
  scaler ← get_param "scaler";
  X ← get_X;
  l ← gets (fun l => l);
  '(dX, dScaler, dIntercept) ← lift (backward_kernel l X scaler dLdy);
  _ ← put_grads (<["scaler" := VArr dScaler]> (<["intercept" := VArr dIntercept]> ∅));
  mret dX.

Definition flush_gradients : M t unit := on_base LayerBase.flush_gradients.
Definition update : M t unit := on_base (LayerBase.update LayerBase.flush_gradients).

End BatchNorm.

(** Conv1D and Deconv2D: same bookkeeping, different kernels. *)
Module ConvLike.

Inductive kind : Type := Conv1D | Deconv2D.

Record t : Type := mk {
  base : LayerBase.t;
  which : kind;
  in_ch : option nat;
  out_ch : nat;
  kernel_dims : list nat;
  act_fn : Activation;
  init_weights : list nat -> Np.ndarray;
  is_initialized : bool;
  (** input, W, b: the pre-activation Z *)
  forward_kernel : Np.ndarray -> pyval -> pyval -> res Np.ndarray;
  (** cached input, W, cached Z, upstream gradient: dX, dW, dB *)
  backward_kernel : pyval -> pyval -> pyval -> Np.ndarray
                    -> res (Np.ndarray * Np.ndarray * Np.ndarray)
}.

#[global] Instance has_base : HasBase t := {|
  get_base := base;
  put_base b l := mk b (which l) (in_ch l) (out_ch l) (kernel_dims l) (act_fn l)
                     (init_weights l) (is_initialized l) (forward_kernel l) (backward_kernel l)
|}.

Definition init (k : kind) (out_ch : nat) (kernel_dims : list nat) (act : Activation)
    iw fk bk (o : Optimizer) : t :=
  mk (LayerBase.set_parameters (<["W" := VNone]> (<["b" := VNone]> ∅)) (LayerBase.init o))
     k None out_ch kernel_dims act iw false fk bk.

Definition _init_params : M t unit :=
  l ← gets (fun l => l);
  match in_ch l with
  | None => raise TypeError
  | Some n =>
      let W := init_weights l (kernel_dims l ++ [n; out_ch l]) in
      let b := Np.zeros (List.repeat 1 (length (kernel_dims l) + 1) ++ [out_ch l]) in
      _ ← put_params (<["W" := VArr W]> (<["b" := VArr b]> ∅));
      _ ← put_grads (<["W" := VArr (Np.zeros_like W)]> (<["b" := VArr (Np.zeros_like b)]> ∅));
      _ ← put_dvs (<["Z" := VNone]> (<["out_rows" := VNone]> (<["out_cols" := VNone]> ∅)));
      modify (fun l => mk (base l) (which l) (in_ch l) (out_ch l) (kernel_dims l) (act_fn l)
                          (init_weights l) true (forward_kernel l) (backward_kernel l))
  end.

Definition forward (X : Np.ndarray) : M t Np.ndarray :=
  ini ← gets is_initialized;
  _ ← (if (ini : bool) then mret tt
       else (k ← gets which;
             n ← lift (shape_at X (match k with Conv1D => 2 | Deconv2D => 3 end));
             _ ← modify (fun l => mk (base l) (which l) (Some n) (out_ch l) (kernel_dims l)
                                     (act_fn l) (init_weights l) (is_initialized l)
                                     (forward_kernel l) (backward_kernel l));
             _init_params)
       : M t unit);
  _ ← put_X (VArr X);
  W ← get_param "W";
  b ← get_param "b";
  l ← gets (fun l => l);
  Z ← lift (forward_kernel l X W b);
  let Y := act_fn_of (act_fn l) Z in
  _ ← (lift (shape_at Z 1) ≫= fun n => set_dv "out_rows" (VInt (Z.of_nat n)));
  _ ← (lift (shape_at Z 2) ≫= fun n => set_dv "out_cols" (VInt (Z.of_nat n)));
  _ ← set_dv "Z" (VArr Z);
  mret Y.

Definition backward (dLdY : Np.ndarray) : M t Np.ndarray :=
  X ← get_X;
  W ← get_param "W";
  Z ← get_dv "Z";
  l ← gets (fun l => l);
  '(dX, dW, dB) ← lift (backward_kernel l X W Z dLdY);
  _ ← set_grad "W" (VArr dW);
  _ ← set_grad "b" (VArr dB);
  mret dX.

Definition flush_gradients : M t unit := on_base LayerBase.flush_gradients.
Definition update : M t unit := on_base (LayerBase.update LayerBase.flush_gradients).

End ConvLike.

#[global] Instance rbm_has_base : HasBase RBM.t := {|
  get_base := RBM.base;
  put_base := RBM.set_base
|}.

(** ** The closed set of layers and their contract *)

Inductive layer : Type :=
  | LRBM (l : RBM.t)
  | LCombinator (l : Combinator.t)
  | LBatchNorm (l : BatchNorm.t)
  | LFullyConnected (l : FullyConnected.t)
  | LRNNCell (l : RNNCell.t)
  | LLSTMCell (l : LSTMCell.t)
  | LPool2D (l : Pool2D.t)
  | LFlatten (l : Flatten.t)
  | LConvLike (l : ConvLike.t)
  | LConv2D (l : Conv2D.t).

Definition layer_base (l : layer) : LayerBase.t :=
  match l with
  | LRBM l => get_base l
  | LCombinator l => get_base l
  | LBatchNorm l => get_base l
  | LFullyConnected l => get_base l
  | LRNNCell l => get_base l
  | LLSTMCell l => get_base l
  | LPool2D l => get_base l
  | LFlatten l => get_base l
  | LConvLike l => get_base l
  | LConv2D l => get_base l
  end.

(** A call of one of the contract's methods.  [Forward] carries the input
    batch ([Combinator] layers take a list of inputs, the other layers its
    first element) and the optional [K] of the Boltzmann machine. *)
Inductive call : Type :=
  | Forward (X : list Np.ndarray) (K : option Z)
  | Backward (dLdY : Np.ndarray)
  | Update
  | Flush.

Definition first_input (X : list Np.ndarray) : Np.ndarray :=
  List.hd (Np.zeros []) X.

(** The state of the layer after the call, whether it returned or raised. *)
Definition after (l : layer) (c : call) : layer :=
  match l, c with
  | LRBM l, Forward X K => LRBM (RBM.forward (first_input X) K l).2
  | LRBM l, Backward _ => LRBM (RBM.backward l).2
  | LRBM l, Update => LRBM (RBM.on_base (LayerBase.update LayerBase.flush_gradients) l).2
  | LRBM l, Flush => LRBM (RBM.on_base LayerBase.flush_gradients l).2
  | LCombinator l, Forward X _ => LCombinator (Combinator.forward X l).2
  | LCombinator l, Backward d => LCombinator (Combinator.backward d l).2
  | LCombinator l, Update => LCombinator (Combinator.update l).2
  | LCombinator l, Flush => LCombinator (Combinator.flush_gradients l).2
  | LBatchNorm l, Forward X _ => LBatchNorm (BatchNorm.forward (first_input X) l).2
  | LBatchNorm l, Backward d => LBatchNorm (BatchNorm.backward d l).2
  | LBatchNorm l, Update => LBatchNorm (BatchNorm.update l).2
  | LBatchNorm l, Flush => LBatchNorm (BatchNorm.flush_gradients l).2
  | LFullyConnected l, Forward X _ => LFullyConnected (FullyConnected.forward (first_input X) l).2
  | LFullyConnected l, Backward d => LFullyConnected (FullyConnected.backward d l).2
  | LFullyConnected l, Update => LFullyConnected (FullyConnected.update l).2
  | LFullyConnected l, Flush => LFullyConnected (FullyConnected.flush_gradients l).2
  | LRNNCell l, Forward X _ => LRNNCell (RNNCell.forward (first_input X) l).2
  | LRNNCell l, Backward d => LRNNCell (RNNCell.backward d l).2
  | LRNNCell l, Update => LRNNCell (RNNCell.update l).2
  | LRNNCell l, Flush => LRNNCell (RNNCell.flush_gradients l).2
  | LLSTMCell l, Forward X _ => LLSTMCell (LSTMCell.forward (first_input X) l).2
  | LLSTMCell l, Backward d => LLSTMCell (LSTMCell.backward d l).2
  | LLSTMCell l, Update => LLSTMCell (LSTMCell.update l).2
  | LLSTMCell l, Flush => LLSTMCell (LSTMCell.flush_gradients l).2
  | LPool2D l, Forward X _ => LPool2D (Pool2D.forward (first_input X) l).2
  | LPool2D l, Backward d => LPool2D (Pool2D.backward d l).2
  | LPool2D l, Update => LPool2D (on_base (LayerBase.update LayerBase.flush_gradients) l).2
  | LPool2D l, Flush => LPool2D (on_base LayerBase.flush_gradients l).2
  | LFlatten l, Forward X _ => LFlatten (Flatten.forward (first_input X) l).2
  | LFlatten l, Backward d => LFlatten (Flatten.backward d l).2
  | LFlatten l, Update => LFlatten (Flatten.update l).2
  | LFlatten l, Flush => LFlatten (Flatten.flush_gradients l).2
  | LConvLike l, Forward X _ => LConvLike (ConvLike.forward (first_input X) l).2
  | LConvLike l, Backward d => LConvLike (ConvLike.backward d l).2
  | LConvLike l, Update => LConvLike (ConvLike.update l).2
  | LConvLike l, Flush => LConvLike (ConvLike.flush_gradients l).2
  | LConv2D l, Forward X _ => LConv2D (Conv2D.forward (first_input X) l).2
  | LConv2D l, Backward d => LConv2D (Conv2D.backward d l).2
  | LConv2D l, Update => LConv2D (Conv2D.update l).2
  | LConv2D l, Flush => LConv2D (Conv2D.flush_gradients l).2
  end.

(** The parameter keys that the constructor of the layer's class declares. *)
Definition declared_keys (l : layer) : gset string :=
  match l with
  | LRBM _ => {["W"; "b_in"; "b_out"]}
  | LCombinator _ | LPool2D _ | LFlatten _ => ∅
  | LBatchNorm _ => {["scaler"; "intercept"; "running_var"; "running_mean"]}
  | LFullyConnected _ | LConvLike _ | LConv2D _ => {["W"; "b"]}
  | LRNNCell _ => {["Waa"; "Wax"; "ba"; "bx"]}
  | LLSTMCell _ => {["Wf"; "Wu"; "Wc"; "Wo"; "bf"; "bu"; "bc"; "bo"]}
  end.

(** Gradient keys that are no parameter keys: the cached [Z] and [Y] that
    [FullyConnected.backward] stores. *)
Definition extra_gradient_keys (l : layer) : gset string :=
  match l with
  | LFullyConnected _ => {["Z"; "Y"]}
  | _ => ∅
  end.

(** The invariant of the key sets. *)
Definition keys_ok (l : layer) : Prop :=
  declared_keys l ⊆ dom (LayerBase.parameters (layer_base l)) /\
  dom (LayerBase.gradients (layer_base l)) ⊆
    dom (LayerBase.parameters (layer_base l)) ∪ extra_gradient_keys l.

(** A method keeps a property of the parameter and gradient dictionaries:
    if it holds before the call it holds after it, whether the call returned
    or raised. *)
Definition keeps {T A} `{HasBase T}
    (P : gmap string pyval -> gmap string pyval -> Prop) (m : M T A) : Prop :=
  forall l, P (LayerBase.parameters (get_base l)) (LayerBase.gradients (get_base l)) ->
            P (LayerBase.parameters (get_base (m l).2))
              (LayerBase.gradients (get_base (m l).2)).

(** Declared keys [D] are parameter keys and gradient keys are parameter keys
    or among [E]. *)
Definition keys_prop (D E : gset string) (ps gs : gmap string pyval) : Prop :=
  D ⊆ dom ps /\ dom gs ⊆ dom ps ∪ E.

(** ** Vocabulary of the statements *)

(** What one optimizer call returns for key [k]: the new value and the new
    cache entry. *)
Definition opt_value (o : Optimizer) (p g : pyval) (k : string) : pyval :=
  (opt_rule o (opt_cache o !! k) p g k).1.
Definition opt_entry (o : Optimizer) (p g : pyval) (k : string) : pyval :=
  (opt_rule o (opt_cache o !! k) p g k).2.

(** [g] is an all-zero array with the shape of the array [p]. *)
Definition zero_of_shape (g p : pyval) : Prop :=
  exists a b, g = VArr a /\ p = VArr b /\ a = Np.zeros (Np.shape b).

(** The cursor of a recurrent cell cannot index the cache [cache] any more:
    either the cell was never initialised, or the decremented cursor lies
    below [-T] for a cache of [T] timesteps. *)
Definition cursor_exhausted (dvs : gmap string pyval) (cache : string) : Prop :=
  dvs !! "current_step" = None \/
  exists zs c, dvs !! cache = Some (VList zs) /\
               dvs !! "current_step" = Some (VInt c) /\
               (c - 1 < - Z.of_nat (length zs))%Z.

Definition failed {A S} (r : res A * S) : Prop := exists e, r.1 = Err e.

(** ** Sequences of calls *)

(** The object after the calls [m x] for the arguments [xs], in order, when
    every one of them returns. *)
Fixpoint returned {S A B} (m : A -> M S B) (xs : list A) (l : S) : option S :=
  match xs with
  | [] => Some l
  | x :: xs' =>
      match m x l with
      | (Ok _, l1) => returned m xs' l1
      | (Err _, _) => None
      end
  end.

(** The object after the calls [m x] for the arguments [xs], in order, each
    of which may return or raise. *)
Fixpoint after_calls {S A B} (m : A -> M S B) (xs : list A) (l : S) : S :=
  match xs with
  | [] => l
  | x :: xs' => after_calls m xs' (m x l).2
  end.

(** The cursor is at [T] and the cache [cache] holds [T] timesteps, as [T]
    forward calls of a sequence leave them. *)
Definition cell_window (dvs : gmap string pyval) (cache : string) (T : nat) : Prop :=
  dvs !! "current_step" = Some (VInt (Z.of_nat T)) /\
  exists zs, dvs !! cache = Some (VList zs) /\ length zs = T.

(** A cell before the first forward call of a sequence: as [__init__] made
    it, or initialised and with empty caches. *)
Definition cell_start (initialized : bool) (dvs : gmap string pyval) (cache : string) : Prop :=
  (initialized = false /\ dvs !! "current_step" = None) \/
  (initialized = true /\ cell_window dvs cache 0).

(** A method leaves a view of the object as it is, whether it returns or
    raises. *)
Definition fixes {S V A} (view : S -> V) (m : M S A) : Prop :=
  forall l, view (m l).2 = view l.

(** What the cursor arithmetic of a cell depends on: whether the cell is
    initialised and trainable, its cache, and for the LSTM cell (whose
    [backward] reads the parameters before it moves the cursor) its
    parameters. *)
Definition rnn_frame (l : RNNCell.t) : bool * bool * option pyval :=
  (RNNCell.is_initialized l, LayerBase.trainable (RNNCell.base l),
   LayerBase.derived_variables (RNNCell.base l) !! "Z").
Definition rnn_cursor (l : RNNCell.t) : option pyval :=
  LayerBase.derived_variables (RNNCell.base l) !! "current_step".
Definition rnn_view (l : RNNCell.t) := (rnn_frame l, rnn_cursor l).

Definition lstm_frame (l : LSTMCell.t) : bool * bool * gmap string pyval * option pyval :=
  (LSTMCell.is_initialized l, LayerBase.trainable (LSTMCell.base l),
   LayerBase.parameters (LSTMCell.base l),
   LayerBase.derived_variables (LSTMCell.base l) !! "Go").
Definition lstm_cursor (l : LSTMCell.t) : option pyval :=
  LayerBase.derived_variables (LSTMCell.base l) !! "current_step".
Definition lstm_view (l : LSTMCell.t) := (lstm_frame l, lstm_cursor l).

Definition rnn_start (l : RNNCell.t) : Prop :=
  cell_start (RNNCell.is_initialized l) (LayerBase.derived_variables (RNNCell.base l)) "Z".
Definition lstm_start (l : LSTMCell.t) : Prop :=
  cell_start (LSTMCell.is_initialized l) (LayerBase.derived_variables (LSTMCell.base l)) "Go".

(** ** Machines on which contrastive divergence can run *)

(** A bias that can be added to an [n] by [m] matrix without changing its
    shape: of shape [(1, m)] as [_init_params] creates it, of shape [(n, m)]
    as an update with the gradients of [backward] leaves it, or of any other
    shape that broadcasts onto [(n, m)]. *)
Definition bias_ok (n m : nat) (b : Np.ndarray) : Prop :=
  Np.broadcast_shapes [n; m] (Np.shape b) = Some [n; m].

(** The machines that can take a batch of [n_ex] examples with [nin]
    features.  The generator returns arrays of the requested shape, and
    either the machine is initialised, with an [nin] by [nout] weight matrix
    and biases that can be added to the activations, or it is not, and the
    first [forward] creates its parameters with [init_weights]. *)
Definition rbm_ready (l : RBM.t) (n_ex nin nout : nat) : Prop :=
  (forall k n m, Np.mat n m (draw (RBM.np_random l) k [n; m])) /\
  ((RBM.is_initialized l = true /\
    exists W b_in b_out,
      LayerBase.parameters (RBM.base l) !! "W" = Some (VArr W) /\
      LayerBase.parameters (RBM.base l) !! "b_in" = Some (VArr b_in) /\
      LayerBase.parameters (RBM.base l) !! "b_out" = Some (VArr b_out) /\
      Np.mat nin nout W /\ bias_ok n_ex nin b_in /\ bias_ok n_ex nout b_out)
   \/
   (RBM.is_initialized l = false /\ RBM.n_out l = nout /\
    Np.mat nin nout (RBM.init_weights l [nin; nout]))).

(** The two ways in which a Gibbs step, taking the machine from [l] to [l'],
    can leave the hidden states of the chain [c]: as the raw probabilities
    [p_H_prime] of the step, with no call of the generator, or as the
    Bernoulli draw [rand <= p_H_prime], with one call. *)
Definition kept_raw (l l' : RBM.t) (c : RBM.chain) : Prop :=
  l' = l /\ exists pV pH, RBM.stats c = Some (pV, pH) /\ RBM.H_prime c = pH.

Definition resampled (l l' : RBM.t) (c : RBM.chain) : Prop :=
  exists pV pH, RBM.stats c = Some (pV, pH) /\
                RBM.sample pH l = (Ok (RBM.H_prime c), l').

(** The number of Gibbs steps that [forward(V, K)] runs. *)
Definition steps_run (l : RBM.t) (Karg : option Z) : Z :=
  match Karg with None => RBM.K l | Some k => k end.

(** ** Arrays as functions of their index *)

(** [idx] is an index into an array of shape [sh]. *)
Definition inb (sh idx : list nat) : Prop := List.Forall2 lt idx sh.

(** The entry of [a] at the index [idx]. *)
Definition get (a : Np.ndarray) (idx : list nat) : Z :=
  Np.geti a (Np.ravel (Np.shape a) idx).

(** The array of shape [sh] whose entry at [idx] is [F idx]. *)
Definition of_fun (sh : list nat) (F : list nat -> Z) : Np.ndarray :=
  Np.mk sh (tab (Np.size sh) (fun k => F (Np.unravel sh k))).

(** Every slice of the subscript has a positive step. *)
Definition steps_pos (sels : list Np.axis_sel) : Prop :=
  List.Forall (fun s => match s with Np.Idx _ => True | Np.Slice _ _ st => 0 < st end) sels.

(** ** Initialised layers *)

(** An initialised dense layer with [nin] inputs and [nout] units. *)
Record fc_ok (l : FullyConnected.t) (nin nout : nat) (W b : Np.ndarray) : Prop := {
  fc_init : FullyConnected.is_initialized l = true;
  fc_W : LayerBase.parameters (FullyConnected.base l) !! "W" = Some (VArr W);
  fc_b : LayerBase.parameters (FullyConnected.base l) !! "b" = Some (VArr b);
  fc_W_mat : Np.mat nin nout W;
  fc_b_mat : Np.mat 1 nout b
}.

(** The weight initialiser returns well-formed matrices of the requested
    shape. *)
Definition init_ok (iw : list nat -> Np.ndarray) : Prop :=
  forall n m, Np.mat n m (iw [n; m]).

(** An initialised recurrent cell with [nin] inputs and [nout] hidden units. *)
Record rnn_ok (l : RNNCell.t) (nin nout : nat) (Waa Wax ba bx : Np.ndarray) : Prop := {
  rnn_init : RNNCell.is_initialized l = true;
  rnn_nout : RNNCell.n_out l = nout;
  rnn_Waa : LayerBase.parameters (RNNCell.base l) !! "Waa" = Some (VArr Waa);
  rnn_Wax : LayerBase.parameters (RNNCell.base l) !! "Wax" = Some (VArr Wax);
  rnn_ba : LayerBase.parameters (RNNCell.base l) !! "ba" = Some (VArr ba);
  rnn_bx : LayerBase.parameters (RNNCell.base l) !! "bx" = Some (VArr bx);
  rnn_Waa_mat : Np.mat nout nout Waa;
  rnn_Wax_mat : Np.mat nin nout Wax;
  rnn_ba_mat : Np.mat nout 1 ba;
  rnn_bx_mat : Np.mat nout 1 bx
}.

(** The caches of a recurrent cell: the two counters, the cached inputs
    [Xs], pre-activations [Zs] and hidden states [As]; the last hidden
    state, if there is one, is an [n_ex] by [nout] matrix. *)
Record rnn_caches (l : RNNCell.t) (n_ex nout : nat) (T c : Z)
    (Xs Zs As : list Np.ndarray) : Prop := {
  rnn_T : LayerBase.derived_variables (RNNCell.base l) !! "n_timesteps" = Some (VInt T);
  rnn_c : LayerBase.derived_variables (RNNCell.base l) !! "current_step" = Some (VInt c);
  rnn_As : LayerBase.derived_variables (RNNCell.base l) !! "A" = Some (VList As);
  rnn_Zs : LayerBase.derived_variables (RNNCell.base l) !! "Z" = Some (VList Zs);
  rnn_Xs : LayerBase.X (RNNCell.base l) = VList Xs;
  rnn_last : As <> [] -> Np.mat n_ex nout (List.last As (Np.zeros []))
}.

(** The hidden states after the initial state has been supplied. *)
Definition with_initial_state (n_ex nout : nat) (As : list Np.ndarray) : list Np.ndarray :=
  match As with
  | [] => [Np.zeros [n_ex; nout]]
  | _ => As
  end.

(** ** Add and Multiply *)

(** Every array of [xs] is well formed and has the shape [sh]. *)
Definition same_shape (sh : list nat) (xs : list Np.ndarray) : Prop :=
  List.Forall (fun x => Np.shape x = sh /\ Np.wf x) xs.

Definition combine_op (k : Combinator.kind) : Z -> Z -> Z :=
  match k with Combinator.Add => sadd | Combinator.Multiply => smul end.

Definition combine_key (k : Combinator.kind) : string :=
  match k with Combinator.Add => "sum" | Combinator.Multiply => "product" end.

(** The entry at [idx] of [x0 op x1 op ... op xn], from the left. *)
Definition fold_entries (op : Z -> Z -> Z) (x0 : Np.ndarray) (xs : list Np.ndarray)
    (idx : list nat) : Z :=
  List.fold_left (fun acc x => op acc (get x idx)) xs (get x0 idx).

(** [g] times the entries at [idx] of all the inputs but the [j]-th. *)
Definition prod_except (j : nat) (g : Z) (xs : list Np.ndarray) (idx : list nat) : Z :=
  List.fold_left (fun acc '(i, x) => if Nat.eqb i j then acc else smul acc (get x idx))
                 (List.combine (List.seq 0 (length xs)) xs) g.

(** One pass of the inner loop of [Multiply.backward]: every gradient but the
    [i]-th is multiplied by the input [x]. *)
Definition times_input (sh : list nat) (i : nat) (x : Np.ndarray) (j : nat) (gj : Np.ndarray)
  : Np.ndarray :=
  if Nat.eqb j i then gj else of_fun sh (fun idx => smul (get gj idx) (get x idx)).

(** The accumulated gradients of a recurrent cell, with the shapes of the
    parameters. *)
Record rnn_grads (l : RNNCell.t) (nin nout : nat) (gWaa gWax gba gbx : Np.ndarray) : Prop := {
  rnn_gWaa : LayerBase.gradients (RNNCell.base l) !! "Waa" = Some (VArr gWaa);
  rnn_gWax : LayerBase.gradients (RNNCell.base l) !! "Wax" = Some (VArr gWax);
  rnn_gba : LayerBase.gradients (RNNCell.base l) !! "ba" = Some (VArr gba);
  rnn_gbx : LayerBase.gradients (RNNCell.base l) !! "bx" = Some (VArr gbx);
  rnn_gWaa_mat : Np.mat nout nout gWaa;
  rnn_gWax_mat : Np.mat nin nout gWax;
  rnn_gba_mat : Np.mat nout 1 gba;
  rnn_gbx_mat : Np.mat nout 1 gbx
}.

(** The gradient [acc] that flows into a timestep from the later ones: the
    stored accumulator, or zeros of the shape of the first hidden state when
    none is stored. *)
Definition rnn_incoming (l : RNNCell.t) (n_ex nout : nat) (As : list Np.ndarray)
    (acc : Np.ndarray) : Prop :=
  (LayerBase.derived_variables (RNNCell.base l) !! "dLdA_accumulator" = Some VNone /\
   (exists A0, List.nth_error As 0 = Some A0 /\ Np.mat n_ex nout A0) /\ acc = Np.zeros [n_ex; nout]) \/
  (LayerBase.derived_variables (RNNCell.base l) !! "dLdA_accumulator" = Some (VArr acc) /\
   Np.mat n_ex nout acc).

(** ** The LSTM cell *)

(** An initialised LSTM cell with [nin] inputs and [nout] hidden units. *)
Record lstm_ok (l : LSTMCell.t) (nin nout : nat) (p : LSTMCell.params)
    (Wf Wu Wc Wo bf bu bc bo : Np.ndarray) : Prop := {
  lstm_init : LSTMCell.is_initialized l = true;
  lstm_nout : LSTMCell.n_out l = nout;
  lstm_params : LSTMCell._get_params l = (Ok p, l);
  lstm_p : p = LSTMCell.mk_params (VArr Wf) (VArr Wu) (VArr Wc) (VArr Wo)
                                  (VArr bf) (VArr bu) (VArr bc) (VArr bo);
  lstm_Wf : Np.mat (nin + nout) nout Wf;
  lstm_Wu : Np.mat (nin + nout) nout Wu;
  lstm_Wc : Np.mat (nin + nout) nout Wc;
  lstm_Wo : Np.mat (nin + nout) nout Wo;
  lstm_bf : Np.mat 1 nout bf;
  lstm_bu : Np.mat 1 nout bu;
  lstm_bc : Np.mat 1 nout bc;
  lstm_bo : Np.mat 1 nout bo
}.

(** A cache of the cell: the list stored under the key [k]. *)
Definition lstm_list (l : LSTMCell.t) (k : string) (xs : list Np.ndarray) : Prop :=
  LayerBase.derived_variables (LSTMCell.base l) !! k = Some (VList xs).

(** The counters and the hidden and cell states of an LSTM cell. *)
Record lstm_caches (l : LSTMCell.t) (n_ex nout : nat) (T c : Z)
    (Xs As Cs : list Np.ndarray) : Prop := {
  lstm_T : LayerBase.derived_variables (LSTMCell.base l) !! "n_timesteps" = Some (VInt T);
  lstm_c : LayerBase.derived_variables (LSTMCell.base l) !! "current_step" = Some (VInt c);
  lstm_As : lstm_list l "A" As;
  lstm_Cs : lstm_list l "C" Cs;
  lstm_Xs : LayerBase.X (LSTMCell.base l) = VList Xs;
  lstm_lastA : As <> [] -> Np.mat n_ex nout (List.last As (Np.zeros []));
  lstm_lastC : As <> [] -> Cs <> [] /\ Np.mat n_ex nout (List.last Cs (Np.zeros []))
}.

(** [np.dot(Z, W) + b] at one entry. *)
Definition affine_entry (nk : nat) (Zt W b : Np.ndarray) (i j : nat) : Z :=
  sadd (sumn nk (fun k => smul (Np.get2 Zt i k) (Np.get2 W k j))) (Np.get2 b 0 j).

(** The cell states after the initial state has been supplied: the zero
    state is appended when there is no hidden state yet. *)
Definition with_initial_cell (n_ex nout : nat) (As Cs : list Np.ndarray) : list Np.ndarray :=
  match As with
  | [] => Cs ++ [Np.zeros [n_ex; nout]]
  | _ => Cs
  end.

(** ** Concrete layers and inputs *)

Module Ex.

(** A matrix from its rows. *)
Definition matrix (rows : list (list Z)) : Np.ndarray :=
  Np.mk [length rows; length (List.hd [] rows)] (List.concat rows).

(** Plain gradient descent with learning rate 1 and no cache. *)
Definition sgd : Optimizer := {|
  opt_cache := ∅;
  opt_rule := fun _ p g _ =>
    match p, g with
    | VArr a, VArr b =>
        match Np.sub a b with
        | Ok r => (VArr r, VNone)
        | Err _ => (p, VNone)
        end
    | _, _ => (p, VNone)
    end
|}.

(** A generator whose draws are all zero. *)
Definition zero_rng : RandomState := {| draw := fun _ sh => Np.zeros sh; pos := 0 |}.

(** An activation with a non-constant derivative. *)
Definition Square : Activation := {| fn := fun x => smul x x; grad := fun x => smul 2 x |}.

(** An initialiser that fills the weights with ones. *)
Definition ones (sh : list nat) : Np.ndarray := Np.mk sh (List.repeat 1%Z (Np.size sh)).

Definition rbm_W : Np.ndarray := matrix [[1]; [2]]%Z.
Definition rbm_b_in : Np.ndarray := matrix [[0; 0]]%Z.
Definition rbm_b_out : Np.ndarray := matrix [[1]]%Z.
Definition rbm_V : Np.ndarray := matrix [[1; 0]; [0; 1]]%Z.

(** An initialised machine with two visible units, one hidden unit, K = 1. *)
Definition rbm : RBM.t := {|
  RBM.base := {|
    LayerBase.X := VNone;
    LayerBase.trainable := true;
    LayerBase.optimizer := sgd;
    LayerBase.gradients :=
      <["W" := VArr (Np.zeros [2; 1])]> (<["b_in" := VArr (Np.zeros [1; 2])]>
        (<["b_out" := VArr (Np.zeros [1; 1])]> ∅));
    LayerBase.parameters :=
      <["W" := VArr rbm_W]> (<["b_in" := VArr rbm_b_in]> (<["b_out" := VArr rbm_b_out]> ∅));
    LayerBase.derived_variables :=
      <["V" := VNone]> (<["p_H" := VNone]> (<["p_V_prime" := VNone]>
        (<["p_H_prime" := VNone]> (<["positive_grad" := VNone]>
          (<["negative_grad" := VNone]> ∅)))))
  |};
  RBM.K := 1;
  RBM.n_in := Some 2;
  RBM.n_out := 1;
  RBM.act_fn_V := Affine;
  RBM.act_fn_H := Affine;
  RBM.init_weights := Np.zeros;
  RBM.is_initialized := true;
  RBM.np_random := zero_rng
|}.

(** A machine with one hidden unit as [__init__] sets its attributes, not
    yet initialised. *)
Definition rbm_new : RBM.t :=
  RBM.mk (LayerBase.set_parameters
            (<["W" := VNone]> (<["b_in" := VNone]> (<["b_out" := VNone]> ∅)))
            (LayerBase.init sgd))
         1 None 1 Affine Affine ones false zero_rng.

(** That machine after a first [forward] and [backward] on [rbm_V] and an
    [update]: its biases now have one row for each example. *)
Definition rbm_updated : RBM.t :=
  (RBM.on_base (LayerBase.update LayerBase.flush_gradients)
     (RBM.backward (RBM.forward rbm_V None rbm_new).2).2).2.

(** The same machine, frozen. *)
Definition rbm_frozen : RBM.t :=
  RBM.set_base (LayerBase.set_trainable false (RBM.base rbm)) rbm.

(** A fresh dense layer with one output unit, and a one-example batch. *)
Definition fc : FullyConnected.t := FullyConnected.init 1 Affine ones sgd.
Definition fc_X : Np.ndarray := matrix [[1; 2]]%Z.
Definition fc_dLdY : Np.ndarray := matrix [[1]]%Z.

(** The dense layer after its first batch. *)
Definition fc_ready : FullyConnected.t := (FullyConnected.forward fc_X fc).2.

(** A fresh recurrent cell with two hidden units; one input feature. *)
Definition rnn : RNNCell.t := RNNCell.init 2 Square ones sgd.
Definition rnn_X : Np.ndarray := matrix [[1]]%Z.
Definition rnn_dLdA : Np.ndarray := matrix [[1; 1]]%Z.

(** The recurrent cell after its first timestep, and its caches. *)
Definition rnn_ready : RNNCell.t := (RNNCell.forward rnn_X rnn).2.
Definition rnn_cache (k : string) : list Np.ndarray :=
  match LayerBase.derived_variables (RNNCell.base rnn_ready) !! k with
  | Some (VList l) => l
  | _ => []
  end.

(** A long short-term memory cell with one input feature and one hidden unit,
    identity activation and squaring gates, all weights 1, all biases 0 but
    the bias [bu] of the update gate, which is [b]. *)
Definition lstm_fresh : LSTMCell.t := LSTMCell.init 1 Affine Square ones sgd.
Definition lstm_with_bu (b : Z) : LSTMCell.t :=
  (set_param "bu" (VArr (matrix [[b]]))
     (LSTMCell._init_params (LSTMCell.set_n_in (Some 1) lstm_fresh)).2).2.
Definition lstm : LSTMCell.t := lstm_with_bu 1.
Definition lstm_X : Np.ndarray := matrix [[1]]%Z.
Definition lstm_dLdA : Np.ndarray := matrix [[1]]%Z.

(** The loss [L = A_1] of a one-step sequence, as a function of [bu]. *)
Definition lstm_loss (b : Z) : res Z :=
  match (LSTMCell.forward lstm_X (lstm_with_bu b)).1 with
  | Ok (A, _) => Ok (Np.geti A 0)
  | Err e => Err e
  end.

(** A max-pooling layer with a 1 x 2 window, stride 2 and one column of
    padding on the left; a one-example, one-channel input of one row. *)
Definition pool : Pool2D.t := Pool2D.init (1, 2) 2 (PadQuad 0 0 1 0) Pool2D.Max sgd.
Definition pool_X : Np.ndarray := Np.mk [1; 1; 2; 1] [5; 3]%Z.
Definition pool_dLdY : Np.ndarray := Np.mk [1; 1; 1; 1] [9]%Z.

(** Arrays with varied entries. *)
Definition ramp (sh : list nat) : Np.ndarray :=
  Np.mk sh (tab (Np.size sh) (fun k => (Z.of_nat (k * k + 3 * k) mod 7 - 3)%Z)).

(** A convolution layer with two filters of size 2 x 2, one row/column of
    padding, stride 1 and dilation 1; a batch of two 3 x 4 images with two
    channels. *)
Definition conv : Conv2D.t := Conv2D.init 2 (2, 2) (PadInt 1) 1 1 Square ramp sgd.
Definition conv_X : Np.ndarray := ramp [2; 3; 4; 2].
Definition conv_dLdY : Np.ndarray :=
  Np.mk [2; 3; 4; 2] (tab 48 (fun k => (Z.of_nat (5 * k) mod 11 - 5)%Z)).

(** An addition and a multiplication layer, two inputs of one shape, and
    the layers after [forward] on them. *)
Definition add_layer : Combinator.t := Combinator.init Combinator.Add Square sgd.
Definition mul_layer : Combinator.t := Combinator.init Combinator.Multiply Affine sgd.
Definition pair : list Np.ndarray := [matrix [[1; 2]]%Z; matrix [[3; 4]]%Z].
Definition add_ready : Combinator.t := (Combinator.forward pair add_layer).2.
Definition mul_ready : Combinator.t := (Combinator.forward pair mul_layer).2.

End Ex.

(** * Facts about sums, tabulated lists and arrays *)

Ltac sring := unfold sadd, ssub, smul in *; ring.

Lemma sumn_ext n f g : (forall i, i < n -> f i = g i) -> sumn n f = sumn n g.
Proof.
  induction n as [|n IH]; intros H; simpl; [reflexivity|].
  rewrite IH by (intros; apply H; lia). rewrite H by lia. reflexivity.
Qed.

Lemma sumn_zero n f : (forall i, i < n -> f i = 0%Z) -> sumn n f = 0%Z.
Proof.
  induction n as [|n IH]; intros H; simpl; [reflexivity|].
  rewrite IH by (intros; apply H; lia). rewrite H by lia. reflexivity.
Qed.

Lemma sumn_add n f g :
  sumn n (fun i => (f i + g i)%Z) = (sumn n f + sumn n g)%Z.
Proof. induction n as [|n IH]; simpl; [reflexivity | rewrite IH; sring]. Qed.

Lemma sumn_sub n f g :
  sumn n (fun i => (f i - g i)%Z) = (sumn n f - sumn n g)%Z.
Proof. induction n as [|n IH]; simpl; [reflexivity | rewrite IH; sring]. Qed.

Lemma sumn_scale_l n c f :
  sumn n (fun i => (c * f i)%Z) = (c * sumn n f)%Z.
Proof. induction n as [|n IH]; simpl; [sring | rewrite IH; sring]. Qed.

Lemma sumn_scale_r n c f :
  sumn n (fun i => (f i * c)%Z) = (sumn n f * c)%Z.
Proof. induction n as [|n IH]; simpl; [sring | rewrite IH; sring]. Qed.

Lemma sumn_swap n m (f : nat -> nat -> Z) :
  sumn n (fun i => sumn m (fun j => f i j)) = sumn m (fun j => sumn n (fun i => f i j)).
Proof.
  induction n as [|n IH]; simpl.
  - symmetry. apply sumn_zero. reflexivity.
  - rewrite IH, <- sumn_add. reflexivity.
Qed.

(** A sum that picks a single index. *)
Lemma sumn_pick n a (f : nat -> Z) :
  a < n -> sumn n (fun i => if Nat.eqb i a then f i else 0%Z) = f a.
Proof.
  induction n as [|n IH]; intros Ha; [lia|]. simpl.
  destruct (Nat.eqb_spec n a) as [->|Hne].
  - rewrite sumn_zero; [sring|]. intros i Hi.
    destruct (Nat.eqb_spec i a); [lia | reflexivity].
  - rewrite IH by lia. sring.
Qed.

Lemma sumn_pick_none n a (f : nat -> Z) :
  n <= a -> sumn n (fun i => if Nat.eqb i a then f i else 0%Z) = 0%Z.
Proof.
  intros Ha. apply sumn_zero. intros i Hi.
  destruct (Nat.eqb_spec i a); [lia | reflexivity].
Qed.

Lemma sumn_app a b (f : nat -> Z) :
  sumn (a + b) f = (sumn a f + sumn b (fun j => f (a + j)%nat))%Z.
Proof.
  induction b as [|b IH]; simpl.
  - rewrite Nat.add_0_r. sring.
  - rewrite Nat.add_succ_r. simpl. rewrite IH. sring.
Qed.

(** A sum over [n * m] indices as a double sum. *)
Lemma sumn_prod n m (f : nat -> Z) :
  sumn (n * m) f = sumn n (fun i => sumn m (fun j => f (i * m + j))).
Proof.
  induction n as [|n IH]; simpl; [reflexivity|].
  rewrite <- IH. replace (m + n * m) with (n * m + m) by lia.
  apply sumn_app.
Qed.

Lemma length_tab {A} n (f : nat -> A) : length (tab n f) = n.
Proof. unfold tab. rewrite List.length_map, List.length_seq. reflexivity. Qed.

Lemma nth_tab {A} n (f : nat -> A) k d : k < n -> List.nth k (tab n f) d = f k.
Proof.
  intros H. unfold tab.
  rewrite (List.nth_indep _ d (f 0)) by (rewrite List.length_map, List.length_seq; exact H).
  rewrite List.map_nth, List.seq_nth by exact H. reflexivity.
Qed.

Lemma tab_ext {A} n (f g : nat -> A) : (forall k, k < n -> f k = g k) -> tab n f = tab n g.
Proof.
  intros H. unfold tab. apply List.map_ext_in. intros k Hk.
  apply List.in_seq in Hk. apply H. lia.
Qed.

Lemma list_eq_nth (l1 l2 : list Z) :
  length l1 = length l2 ->
  (forall k, k < length l1 -> List.nth k l1 0%Z = List.nth k l2 0%Z) -> l1 = l2.
Proof. intros Hl H. apply (List.nth_ext _ _ 0%Z 0%Z Hl). exact H. Qed.

Lemma nth_repeat_zero n k : List.nth k (List.repeat 0%Z n) 0%Z = 0%Z.
Proof.
  revert k. induction n as [|n IH]; intros [|k]; simpl; auto.
Qed.

(** Index arithmetic for a row-major matrix. *)
Lemma idx2_div i j m : j < m -> (i * m + j) / m = i.
Proof. intros H. rewrite Nat.div_add_l by lia. rewrite Nat.div_small by lia. lia. Qed.

Lemma idx2_mod i j m : j < m -> (i * m + j) mod m = j.
Proof.
  intros H. rewrite Nat.add_comm, Nat.Div0.mod_add. apply Nat.mod_small. exact H.
Qed.

Lemma idx2_lt i j n m : i < n -> j < m -> i * m + j < n * m.
Proof. intros. nia. Qed.

Lemma idx2_decode k n m : k < n * m -> k / m < n /\ k mod m < m /\ k = (k / m) * m + k mod m.
Proof.
  intros H. assert (m <> 0) by (intros ->; lia).
  split; [apply Nat.Div0.div_lt_upper_bound; lia|].
  split; [apply Nat.mod_upper_bound; lia|].
  rewrite (Nat.div_mod_eq k m) at 1. lia.
Qed.

Module NpF.
Import Np.

Lemma size2 n m : size [n; m] = n * m.
Proof. simpl. lia. Qed.

Lemma mat_wf n m a : mat n m a -> wf a.
Proof. intros [Hs Hl]. unfold wf. rewrite Hs, size2. exact Hl. Qed.

Lemma mat_mk n m f : mat n m (mk [n; m] (tab (n * m) f)).
Proof. split; [reflexivity | apply length_tab]. Qed.

Lemma get2_mk n m f i j :
  i < n -> j < m -> get2 (mk [n; m] (tab (n * m) f)) i j = f (i * m + j).
Proof.
  intros Hi Hj. unfold get2, geti. simpl.
  apply nth_tab. apply idx2_lt; assumption.
Qed.

(** Two matrices with the same entries are equal. *)
Lemma mat_ext n m a b :
  mat n m a -> mat n m b ->
  (forall i j, i < n -> j < m -> get2 a i j = get2 b i j) -> a = b.
Proof.
  intros [Hsa Hla] [Hsb Hlb] H. destruct a as [sa da], b as [sb db]. simpl in *.
  subst sa sb. f_equal. apply list_eq_nth; [congruence|].
  intros k Hk. rewrite Hla in Hk.
  destruct (idx2_decode k n m Hk) as (Hi & Hj & E).
  specialize (H _ _ Hi Hj). unfold get2, geti in H. simpl in H.
  rewrite <- E in H. exact H.
Qed.

Lemma dot_spec a b n k m :
  shape a = [n; k] -> shape b = [k; m] ->
  exists c, dot a b = Ok c /\ mat n m c /\
    forall i j, i < n -> j < m ->
      get2 c i j = sumn k (fun l => (get2 a i l * get2 b l j)%Z).
Proof.
  intros Ha Hb. unfold dot. rewrite Ha, Hb, Nat.eqb_refl.
  eexists; split; [reflexivity|]. split; [apply mat_mk|].
  intros i j Hi Hj. rewrite get2_mk by assumption.
  rewrite idx2_div, idx2_mod by assumption. reflexivity.
Qed.

Lemma T_spec a n m :
  shape a = [n; m] ->
  exists c, T a = Ok c /\ mat m n c /\
    forall i j, i < m -> j < n -> get2 c i j = get2 a j i.
Proof.
  intros Ha. unfold T. rewrite Ha.
  eexists; split; [reflexivity|]. split; [apply mat_mk|].
  intros i j Hi Hj. rewrite get2_mk by assumption.
  rewrite idx2_div, idx2_mod by assumption. reflexivity.
Qed.

Lemma map_mat f a n m : mat n m a -> mat n m (map f a).
Proof. intros [Hs Hl]. split; simpl; [exact Hs | rewrite List.length_map; exact Hl]. Qed.

Lemma get2_map f a n m i j :
  mat n m a -> i < n -> j < m -> get2 (map f a) i j = f (get2 a i j).
Proof.
  intros [Hs Hl] Hi Hj. unfold get2, geti. simpl. rewrite Hs. simpl.
  rewrite (List.nth_indep _ 0%Z (f 0%Z))
    by (rewrite List.length_map, Hl; apply idx2_lt; assumption).
  apply List.map_nth.
Qed.

(** Elementwise operations on equal shapes, and a matrix plus a row. *)
Lemma unravel2 n m k : unravel [n; m] k = [k / m; k mod m].
Proof.
  unfold unravel. change (size [m]) with (m * 1). change (size []) with 1.
  rewrite !Nat.mul_1_r, Nat.div_1_r. reflexivity.
Qed.

Lemma binop_same f a b n m :
  mat n m a -> mat n m b ->
  exists c, binop f a b = Ok c /\ mat n m c /\
    forall i j, i < n -> j < m -> get2 c i j = f (get2 a i j) (get2 b i j).
Proof.
  intros [Hsa Hla] [Hsb Hlb]. unfold binop, broadcast_shapes.
  rewrite Hsa, Hsb. simpl. rewrite !Nat.eqb_refl. simpl.
  eexists; split; [reflexivity|].
  rewrite Nat.mul_1_r. split; [apply mat_mk|].
  intros i j Hi Hj. rewrite get2_mk by assumption.
  unfold bget. rewrite Hsa, Hsb, unravel2.
  rewrite idx2_div, idx2_mod by assumption. unfold bidx. simpl.
  unfold get2. rewrite Hsa, Hsb. simpl.
  destruct (Nat.eqb_spec n 1) as [->|Hn], (Nat.eqb_spec m 1) as [->|Hm];
    repeat (f_equal; try lia).
Qed.

Lemma zeros_mat n m : mat n m (zeros [n; m]).
Proof.
  split; [reflexivity|]. unfold zeros. simpl. rewrite List.repeat_length. lia.
Qed.

Lemma broadcast_row n m : broadcast_shapes [n; m] [1; m] = Some [n; m].
Proof.
  unfold broadcast_shapes. simpl. rewrite !Nat.eqb_refl.
  destruct (Nat.eqb_spec n 1) as [->|Hn]; reflexivity.
Qed.

(** Adding an operand whose shape broadcasts onto that of a matrix gives a
    matrix of the same shape. *)
Lemma binop_onto f a b n m :
  mat n m a -> broadcast_shapes [n; m] (shape b) = Some [n; m] ->
  exists c, binop f a b = Ok c /\ mat n m c.
Proof.
  intros [Hsa Hla] Hb. unfold binop. rewrite Hsa, Hb.
  eexists; split; [reflexivity|]. rewrite size2. apply mat_mk.
Qed.

Lemma binop_row f a b n m :
  mat n m a -> mat 1 m b ->
  exists c, binop f a b = Ok c /\ mat n m c /\
    forall i j, i < n -> j < m -> get2 c i j = f (get2 a i j) (get2 b 0 j).
Proof.
  intros [Hsa Hla] [Hsb Hlb]. unfold binop.
  rewrite Hsa, Hsb, broadcast_row.
  eexists; split; [reflexivity|].
  rewrite size2. split; [apply mat_mk|].
  intros i j Hi Hj. rewrite get2_mk by assumption.
  unfold bget. rewrite Hsa, Hsb, unravel2.
  rewrite idx2_div, idx2_mod by assumption. unfold bidx. simpl.
  unfold get2. rewrite Hsa, Hsb. simpl.
  destruct (Nat.eqb_spec n 1) as [->|Hn], (Nat.eqb_spec m 1) as [->|Hm];
    repeat (f_equal; try lia).
Qed.

End NpF.

(** * RestrictedBoltzmannMachine: the contrastive-divergence statistics *)

Section RBMFacts.
Import Np NpF.
Import RBM (rbm_ok, rngvar, chain_stats_ok, dv, grads).

Lemma le_float_mat u p n m :
  mat n m u -> mat n m p -> exists h, le_float u p = Ok h /\ mat n m h.
Proof.
  intros Hu Hp. destruct (binop_same (fun u p => if Z.leb u p then 1%Z else 0%Z) u p n m Hu Hp)
    as (h & E & Hh & _). eauto.
Qed.

Lemma rngvar_refl l : rngvar l l.
Proof. exists (RBM.np_random l). destruct l; split; reflexivity. Qed.

Lemma rngvar_step l l' r :
  rngvar l l' -> draw r = draw (RBM.np_random l') -> rngvar l (RBM.set_np_random r l').
Proof.
  intros (r0 & -> & E) Hr. exists r. split; [destruct l; reflexivity|].
  rewrite Hr. simpl. exact E.
Qed.

Lemma sample_ok l l' p n m :
  (forall k n m, mat n m (draw (RBM.np_random l) k [n; m])) ->
  rngvar l l' -> mat n m p ->
  exists h l'', RBM.sample p l' = (Ok h, l'') /\ rngvar l l'' /\ mat n m h.
Proof.
  intros Hd Hv Hp. unfold RBM.sample, np_random_rand.
  assert (Hu : mat n m (draw (RBM.np_random l') (pos (RBM.np_random l')) (shape p))).
  { destruct Hv as (r & -> & E). simpl. rewrite E. destruct Hp as [-> _]. apply Hd. }
  destruct (le_float_mat _ _ _ _ Hu Hp) as (h & -> & Hh).
  eexists _, _. split; [reflexivity|]. split; [|exact Hh].
  apply rngvar_step; [exact Hv | reflexivity].
Qed.

Lemma row_bias_ok n m b : mat 1 m b -> bias_ok n m b.
Proof. intros [Hs _]. unfold bias_ok. rewrite Hs. apply broadcast_row. Qed.

Lemma same_bias_ok n m b : mat n m b -> bias_ok n m b.
Proof.
  intros [Hs _]. unfold bias_ok, broadcast_shapes. rewrite Hs. simpl.
  rewrite !Nat.eqb_refl. reflexivity.
Qed.

Section Gibbs.
Variables (l : RBM.t) (n_ex nin nout : nat) (W b_in b_out : ndarray).
Hypothesis HW : mat nin nout W.
Hypothesis Hbin : bias_ok n_ex nin b_in.
Hypothesis Hbout : bias_ok n_ex nout b_out.
Hypothesis Hdraw : forall k n m, mat n m (draw (RBM.np_random l) k [n; m]).

(** One step of the loop: it returns, the statistics are matrices, and the
    hidden states are the raw probabilities when [k = self.K - 1] and a
    Bernoulli draw otherwise. *)
Lemma gibbs_step_run k c l' :
  rngvar l l' -> mat n_ex nout (RBM.H_prime c) ->
  exists c' l'', RBM.gibbs_step W (VArr b_in) b_out k c l' = (Ok c', l'') /\
    rngvar l l'' /\ mat n_ex nout (RBM.H_prime c') /\ chain_stats_ok n_ex nin nout c' /\
    if (Z.of_nat k =? RBM.K l' - 1)%Z then kept_raw l' l'' c' else resampled l' l'' c'.
Proof.
  intros Hv Hc. unfold RBM.gibbs_step.
  cbv [mbind mret M_bind M_ret res_bind gets modify lift raise as_array].
  destruct (T_spec W _ _ (proj1 HW)) as (WT & -> & HWT & _).
  destruct (dot_spec (RBM.H_prime c) WT n_ex nout nin (proj1 Hc) (proj1 HWT))
    as (HWm & -> & HHW & _).
  destruct (binop_onto sadd HWm b_in _ _ HHW Hbin) as (ZV & EZV & HZV).
  unfold add. rewrite EZV.
  pose proof (map_mat (fn (RBM.act_fn_V l')) _ _ _ HZV) as HpV.
  destruct (dot_spec _ W n_ex nin nout (proj1 HpV) (proj1 HW)) as (VW & EVW & HVW & _).
  unfold act_fn_of. rewrite EVW.
  destruct (binop_onto sadd VW b_out _ _ HVW Hbout) as (ZH & EZH & HZH).
  rewrite EZH.
  pose proof (map_mat (fn (RBM.act_fn_H l')) _ _ _ HZH) as HpH.
  destruct (Z.of_nat k =? RBM.K l' - 1)%Z; cbn [negb].
  - eexists _, _. split; [reflexivity|]. split; [exact Hv|]. split; [exact HpH|].
    split; [eexists _, _; split; [reflexivity|]; split; assumption|].
    split; [reflexivity|]. eexists _, _. split; reflexivity.
  - destruct (sample_ok l l' _ _ _ Hdraw Hv HpH) as (h & l'' & Es & Hv' & Hh).
    rewrite Es.
    eexists _, _. split; [reflexivity|]. split; [exact Hv'|]. split; [exact Hh|].
    split; [eexists _, _; split; [reflexivity|]; split; assumption|].
    eexists _, _. split; [reflexivity|]. exact Es.
Qed.

Lemma gibbs_step_ok k c l' :
  rngvar l l' -> mat n_ex nout (RBM.H_prime c) ->
  exists c' l'', RBM.gibbs_step W (VArr b_in) b_out k c l' = (Ok c', l'') /\
    rngvar l l'' /\ mat n_ex nout (RBM.H_prime c') /\ chain_stats_ok n_ex nin nout c'.
Proof.
  intros Hv Hc. destruct (gibbs_step_run k c l' Hv Hc) as (c' & l'' & E & H1 & H2 & H3 & _).
  eauto 8.
Qed.

Lemma gibbs_loop_run ks c l' :
  rngvar l l' -> mat n_ex nout (RBM.H_prime c) ->
  exists c' l'', RBM.gibbs_loop W (VArr b_in) b_out ks c l' = (Ok c', l'') /\
    rngvar l l'' /\ mat n_ex nout (RBM.H_prime c') /\
    (ks <> [] \/ chain_stats_ok n_ex nin nout c -> chain_stats_ok n_ex nin nout c').
Proof.
  revert c l'. induction ks as [|k ks IH]; intros c l' Hv Hc.
  - eexists _, _. split; [reflexivity|]. split; [assumption|]. split; [assumption|].
    intros [Hs|Hs]; [congruence | assumption].
  - simpl. destruct (gibbs_step_ok k c l' Hv Hc) as (c1 & l1 & E & Hv1 & Hc1 & Hs1).
    cbv [mbind M_bind]. rewrite E.
    destruct (IH c1 l1 Hv1 Hc1) as (c' & l'' & E' & Hv' & Hc' & Hs').
    exists c', l''. split; [exact E'|]. split; [assumption|]. split; [assumption|].
    intros _. apply Hs'. right. assumption.
Qed.

Lemma gibbs_loop_ok ks c l' :
  rngvar l l' -> mat n_ex nout (RBM.H_prime c) ->
  ks <> [] \/ chain_stats_ok n_ex nin nout c ->
  exists c' l'', RBM.gibbs_loop W (VArr b_in) b_out ks c l' = (Ok c', l'') /\
    rngvar l l'' /\ chain_stats_ok n_ex nin nout c'.
Proof.
  intros Hv Hc Hs. destruct (gibbs_loop_run ks c l' Hv Hc) as (c' & l'' & E & Hv' & _ & Hs').
  eauto 8.
Qed.

End Gibbs.

Lemma gibbs_loop_app W b_in b_out ks1 ks2 c (l : RBM.t) :
  RBM.gibbs_loop W b_in b_out (ks1 ++ ks2) c l =
  match RBM.gibbs_loop W b_in b_out ks1 c l with
  | (Ok c1, l1) => RBM.gibbs_loop W b_in b_out ks2 c1 l1
  | (Err e, l1) => (Err e, l1)
  end.
Proof.
  revert c l. induction ks1 as [|k ks1 IH]; intros c l; [reflexivity|].
  simpl. cbv [mbind M_bind].
  destruct (RBM.gibbs_step W b_in b_out k c l) as [[c1|e] l1]; [apply IH | reflexivity].
Qed.

(** What [forward] leaves in [derived_variables], on an initialised
    machine. *)
Lemma RBM_forward_run l V Karg n_ex nin nout W b_in b_out :
  RBM.is_initialized l = true ->
  LayerBase.parameters (RBM.base l) !! "W" = Some (VArr W) ->
  LayerBase.parameters (RBM.base l) !! "b_in" = Some (VArr b_in) ->
  LayerBase.parameters (RBM.base l) !! "b_out" = Some (VArr b_out) ->
  mat nin nout W -> bias_ok n_ex nin b_in -> bias_ok n_ex nout b_out ->
  (forall k n m, mat n m (draw (RBM.np_random l) k [n; m])) ->
  mat n_ex nin V -> (1 <= steps_run l Karg)%Z ->
  exists l1 pH pV pH' pg ng,
    RBM.forward V Karg l = (Ok tt, l1) /\
    dv l1 !! "V" = Some (VArr V) /\
    dv l1 !! "p_H" = Some (VArr pH) /\
    dv l1 !! "p_V_prime" = Some (VArr pV) /\
    dv l1 !! "p_H_prime" = Some (VArr pH') /\
    dv l1 !! "positive_grad" = Some (VArr pg) /\
    dv l1 !! "negative_grad" = Some (VArr ng) /\
    mat n_ex nout pH /\ mat n_ex nin pV /\ mat n_ex nout pH' /\
    mat nin nout pg /\ mat nin nout ng /\
    (forall i j, i < nin -> j < nout ->
       get2 pg i j = sumn n_ex (fun e => (get2 V e i * get2 pH e j)%Z)) /\
    (forall i j, i < nin -> j < nout ->
       get2 ng i j = sumn n_ex (fun e => (get2 pV e i * get2 pH' e j)%Z)).
Proof.
  intros ok_init0 ok_W0 ok_b_in0 ok_b_out0 ok_W_mat0 ok_b_in_b ok_b_out_b ok_draw0 HV HK.
  unfold RBM.forward.
  cbv [mbind mret M_bind M_ret gets modify lift raise RBM.get_param dict_get RBM.set_dv].
  rewrite ok_init0, ok_W0, ok_b_in0, ok_b_out0.
  cbv [as_array].
  destruct (dot_spec V W n_ex nin nout (proj1 HV) (proj1 ok_W_mat0)) as (VW & -> & HVW & _).
  destruct (binop_onto sadd VW b_out _ _ HVW ok_b_out_b) as (ZH & EZH & HZH).
  unfold add. rewrite EZH. unfold act_fn_of.
  pose proof (map_mat (fn (RBM.act_fn_H l)) _ _ _ HZH) as HpH.
  destruct (sample_ok l l _ _ _ ok_draw0 (rngvar_refl l) HpH) as (h & l' & -> & Hv & Hh).
  destruct (T_spec V _ _ (proj1 HV)) as (VT & -> & HVT & HVTget).
  destruct (dot_spec VT _ nin n_ex nout (proj1 HVT) (proj1 HpH)) as (pg & Epg & Hpg & Hpgget).
  rewrite Epg.
  cbn [RBM.base RBM.set_base LayerBase.derived_variables LayerBase.set_derived_variables
       LayerBase.gradients LayerBase.parameters LayerBase.X LayerBase.trainable LayerBase.optimizer].
  match goal with |- context [RBM.gibbs_loop _ _ _ _ _ ?s] => set (l0 := s) end.
  assert (Hd0 : forall k n m, mat n m (draw (RBM.np_random l0) k [n; m])).
  { destruct Hv as (r & -> & E). subst l0. simpl. rewrite E. exact ok_draw0. }
  match goal with |- context [RBM.gibbs_loop _ _ _ ?ks _ l0] => set (steps := ks) end.
  assert (Hsteps : steps <> []).
  { subst steps. unfold steps_run in HK.
    destruct Karg as [k|];
      match goal with |- seq 0 (Z.to_nat ?z) <> [] =>
        destruct (Z.to_nat z) eqn:E; [lia | discriminate] end. }
  destruct (gibbs_loop_ok l0 n_ex nin nout W b_in b_out ok_W_mat0 ok_b_in_b ok_b_out_b Hd0
              steps (RBM.mk_chain h None) l0 (rngvar_refl l0) Hh (or_introl Hsteps))
    as (c & l2 & -> & Hv2 & (pV & pH' & Ec & HpV & HpH')).
  rewrite Ec.
  destruct (T_spec pV _ _ (proj1 HpV)) as (pVT & -> & HpVT & HpVTget).
  destruct (dot_spec pVT pH' nin n_ex nout (proj1 HpVT) (proj1 HpH')) as (ng & -> & Hng & Hngget).
  destruct Hv2 as (r2 & -> & E2).
  eexists _, _, pV, pH', pg, ng. split; [reflexivity|].
  unfold dv. subst l0.
  cbn [RBM.base RBM.set_base RBM.set_np_random LayerBase.derived_variables
       LayerBase.set_derived_variables].
  split_and!; try assumption; try (by simplify_map_eq).
  - intros i j Hi Hj. rewrite Hpgget by assumption.
    apply sumn_ext. intros e He. rewrite HVTget by assumption. reflexivity.
  - intros i j Hi Hj. rewrite Hngget by assumption.
    apply sumn_ext. intros e He. rewrite HpVTget by assumption. reflexivity.
Qed.

(** The machine that the first [forward] on a batch with [nin] features
    makes of a machine that is not initialised. *)
Lemma RBM_forward_lazy l V Karg n_ex nin :
  RBM.is_initialized l = false -> mat n_ex nin V ->
  RBM.forward V Karg l =
  RBM.forward V Karg (RBM._init_params (RBM.set_n_in (Some nin) l)).2.
Proof.
  intros Hini [HsV _]. unfold RBM.forward at 1.
  cbv [mbind mret M_bind M_ret res_bind gets modify lift raise].
  rewrite Hini. unfold shape_at. rewrite HsV. cbn [nth_error].
  unfold RBM.forward, RBM._init_params.
  cbv [mbind mret M_bind M_ret res_bind gets modify lift raise].
  cbn [RBM.n_in RBM.set_n_in RBM.is_initialized RBM.set_is_initialized RBM.set_base snd fst].
  reflexivity.
Qed.

(** C3.  For every machine that can take the batch [V], initialised or not,
    whatever the shape of its biases, [forward(V)] and [backward()] return
    and the stored gradients are [V - p_V'] for the visible bias,
    [p_H - p_H'] for the hidden bias and [V^T p_H - p_V'^T p_H'] for the
    weights, where [p_H], [p_V'], [p_H'] are the statistics that [forward]
    cached in [derived_variables]. *)
Theorem RBM_backward_gradients l V Karg n_ex nin nout :
  rbm_ready l n_ex nin nout -> mat n_ex nin V -> (1 <= steps_run l Karg)%Z ->
  exists l1 l2 pH pV pH' g_b_in g_b_out g_W,
    RBM.forward V Karg l = (Ok tt, l1) /\
    RBM.backward l1 = (Ok tt, l2) /\
    dv l1 !! "p_H" = Some (VArr pH) /\
    dv l1 !! "p_V_prime" = Some (VArr pV) /\
    dv l1 !! "p_H_prime" = Some (VArr pH') /\
    grads l2 !! "b_in" = Some (VArr g_b_in) /\
    grads l2 !! "b_out" = Some (VArr g_b_out) /\
    grads l2 !! "W" = Some (VArr g_W) /\
    mat n_ex nin g_b_in /\ mat n_ex nout g_b_out /\ mat nin nout g_W /\
    (forall e i, e < n_ex -> i < nin ->
       get2 g_b_in e i = (get2 V e i - get2 pV e i)%Z) /\
    (forall e j, e < n_ex -> j < nout ->
       get2 g_b_out e j = (get2 pH e j - get2 pH' e j)%Z) /\
    (forall i j, i < nin -> j < nout ->
       get2 g_W i j = (sumn n_ex (fun e => (get2 V e i * get2 pH e j)%Z)
                       - sumn n_ex (fun e => (get2 pV e i * get2 pH' e j)%Z))%Z).
Proof.
  intros (Hdraw & Hl) HV HK.
  assert (Hrun : exists l1 pH pV pH' pg ng,
    RBM.forward V Karg l = (Ok tt, l1) /\
    dv l1 !! "V" = Some (VArr V) /\
    dv l1 !! "p_H" = Some (VArr pH) /\
    dv l1 !! "p_V_prime" = Some (VArr pV) /\
    dv l1 !! "p_H_prime" = Some (VArr pH') /\
    dv l1 !! "positive_grad" = Some (VArr pg) /\
    dv l1 !! "negative_grad" = Some (VArr ng) /\
    mat n_ex nout pH /\ mat n_ex nin pV /\ mat n_ex nout pH' /\
    mat nin nout pg /\ mat nin nout ng /\
    (forall i j, i < nin -> j < nout ->
       get2 pg i j = sumn n_ex (fun e => (get2 V e i * get2 pH e j)%Z)) /\
    (forall i j, i < nin -> j < nout ->
       get2 ng i j = sumn n_ex (fun e => (get2 pV e i * get2 pH' e j)%Z))).
  { destruct Hl as [(Hini & W & b_in & b_out & EW & Ebi & Ebo & HW & Hbi & Hbo)
                   | (Hini & Hno & HW)].
    - exact (RBM_forward_run l V Karg n_ex nin nout W b_in b_out
               Hini EW Ebi Ebo HW Hbi Hbo Hdraw HV HK).
    - rewrite (RBM_forward_lazy l V Karg n_ex nin Hini HV). subst nout.
      apply (RBM_forward_run _ V Karg n_ex nin (RBM.n_out l)
               (RBM.init_weights l [nin; RBM.n_out l]) (zeros [1; nin])
               (zeros [1; RBM.n_out l]));
        try assumption; try reflexivity.
      + apply row_bias_ok, zeros_mat.
      + apply row_bias_ok, zeros_mat. }
  destruct Hrun
    as (l1 & pH & pV & pH' & pg & ng & Ef & EV & EpH & EpV & EpH' & Epg & Eng &
        HpH & HpV & HpH' & Hpg & Hng & Hpgget & Hngget).
  destruct (binop_same ssub V pV _ _ HV HpV) as (g1 & E1 & Hg1 & Hg1get).
  destruct (binop_same ssub pH pH' _ _ HpH HpH') as (g2 & E2 & Hg2 & Hg2get).
  destruct (binop_same ssub pg ng _ _ Hpg Hng) as (g3 & E3 & Hg3 & Hg3get).
  exists l1. eexists. exists pH, pV, pH', g1, g2, g3.
  split; [exact Ef|]. split.
  { unfold RBM.backward.
    cbv [mbind mret M_bind M_ret res_bind gets modify lift raise RBM.get_dv dict_get RBM.set_grad].
    unfold dv in *. rewrite EV, EpH, EpV, EpH', Epg, Eng.
    cbv [as_array]. unfold sub. rewrite E1, E2, E3. reflexivity. }
  unfold grads.
  cbn [RBM.base RBM.set_base LayerBase.gradients LayerBase.set_gradients].
  split_and!; try assumption; try (by simplify_map_eq).
  intros i j Hi Hj. rewrite Hg3get, Hpgget, Hngget by assumption. reflexivity.
Qed.

Lemma rbm_ex_ok : rbm_ok Ex.rbm 2 1 Ex.rbm_W Ex.rbm_b_in Ex.rbm_b_out.
Proof.
  constructor; try reflexivity; try (split; reflexivity).
  intros k n m. apply zeros_mat.
Qed.

Lemma rbm_V_mat : mat 2 2 Ex.rbm_V.
Proof. split; reflexivity. Qed.

Lemma rbm_new_ready : rbm_ready Ex.rbm_new 2 2 1.
Proof.
  split; [intros k n m; apply zeros_mat|].
  right. split; [reflexivity|]. split; [reflexivity|]. split; reflexivity.
Qed.

Lemma rbm_updated_ready : rbm_ready Ex.rbm_updated 2 2 1.
Proof.
  split; [intros k n m; apply zeros_mat|].
  left. split; [reflexivity|].
  eexists _, _, _.
  split; [vm_compute; reflexivity|].
  split; [vm_compute; reflexivity|].
  split; [vm_compute; reflexivity|].
  split; [split; reflexivity|]. split; reflexivity.
Qed.

Lemma RBM_backward_gradients_witness :
  (exists l1 l2 g_W,
     RBM.forward Ex.rbm_V None Ex.rbm_new = (Ok tt, l1) /\
     RBM.backward l1 = (Ok tt, l2) /\
     grads l2 !! "W" = Some (VArr g_W) /\ mat 2 1 g_W) /\
  (exists l1 l2 g_b_in,
     RBM.forward Ex.rbm_V None Ex.rbm_updated = (Ok tt, l1) /\
     RBM.backward l1 = (Ok tt, l2) /\
     grads l2 !! "b_in" = Some (VArr g_b_in) /\ mat 2 2 g_b_in).
Proof.
  split.
  - destruct (RBM_backward_gradients Ex.rbm_new Ex.rbm_V None 2 2 1)
      as (l1 & l2 & pH & pV & pH' & g1 & g2 & g3 & Ef & Eb & _ & _ & _ & _ & _ & EW
          & _ & _ & HW & _).
    + apply rbm_new_ready.
    + apply rbm_V_mat.
    + simpl. lia.
    + exists l1, l2, g3. auto.
  - destruct (RBM_backward_gradients Ex.rbm_updated Ex.rbm_V None 2 2 1)
      as (l1 & l2 & pH & pV & pH' & g1 & g2 & g3 & Ef & Eb & _ & _ & _ & E1 & _ & _
          & H1 & _).
    + apply rbm_updated_ready.
    + apply rbm_V_mat.
    + vm_compute. discriminate.
    + exists l1, l2, g1. auto.
Defined.




End RBMFacts.

(** * The layer contract: freeze, update, flush_gradients *)

Section ContractFacts.

Lemma update_fold_spec (gs ps : gmap string pyval) (o : Optimizer) :
  let r := map_fold LayerBase.update_step (ps, o) gs in
  (forall k, r.1 !! k =
     match gs !! k, ps !! k with
     | Some g, Some p => Some (opt_value o p g k)
     | _, _ => ps !! k
     end) /\
  opt_rule r.2 = opt_rule o /\
  (forall k, opt_cache r.2 !! k =
     match gs !! k, ps !! k with
     | Some g, Some p => Some (opt_entry o p g k)
     | _, _ => opt_cache o !! k
     end).
Proof.
  cbv zeta. apply (map_fold_weak_ind (fun r m =>
    (forall k, r.1 !! k =
       match m !! k, ps !! k with
       | Some g, Some p => Some (opt_value o p g k)
       | _, _ => ps !! k
       end) /\
    opt_rule r.2 = opt_rule o /\
    (forall k, opt_cache r.2 !! k =
       match m !! k, ps !! k with
       | Some g, Some p => Some (opt_entry o p g k)
       | _, _ => opt_cache o !! k
       end))).
  - split; [|split]; [intros k | reflexivity | intros k];
      rewrite lookup_empty; reflexivity.
  - intros i x m [ps' o'] Hi (Hp & Hr & Hc). simpl in *.
    unfold LayerBase.update_step. simpl.
    pose proof (Hp i) as Hpi. pose proof (Hc i) as Hci. rewrite Hi in Hpi, Hci.
    rewrite Hpi.
    destruct (ps !! i) as [p|] eqn:Epi.
    + unfold optimizer_call. rewrite Hr.
      destruct (opt_rule o (opt_cache o' !! i) p x i) as [p' c'] eqn:Er. simpl.
      assert (Ev : opt_value o p x i = p') by (unfold opt_value; rewrite <- Hci, Er; reflexivity).
      assert (Ee : opt_entry o p x i = c') by (unfold opt_entry; rewrite <- Hci, Er; reflexivity).
      split; [|split; [reflexivity|]]; intros k;
        destruct (decide (i = k)) as [->|Hne].
      * rewrite !lookup_insert_eq, Epi, Ev. reflexivity.
      * rewrite !lookup_insert_ne by assumption. apply Hp.
      * rewrite !lookup_insert_eq, Epi, Ee. reflexivity.
      * rewrite !lookup_insert_ne by assumption. apply Hc.
    + split; [|split; [exact Hr|]]; intros k;
        destruct (decide (i = k)) as [->|Hne].
      * rewrite lookup_insert_eq, Epi. exact Hpi.
      * rewrite lookup_insert_ne by assumption. apply Hp.
      * rewrite lookup_insert_eq, Epi. exact Hci.
      * rewrite lookup_insert_ne by assumption. apply Hc.
Qed.

(** The loop of the recurrent cells' [flush_gradients]. *)
Lemma cell_flush_grads_spec (gs ps : gmap string pyval) k :
  map_fold (fun k v g => <[k := zeros_like_val v]> g) gs ps !! k =
  match ps !! k with
  | Some p => Some (zeros_like_val p)
  | None => gs !! k
  end.
Proof.
  revert k. apply (map_fold_weak_ind (fun r m => forall k,
    r !! k = match m !! k with Some p => Some (zeros_like_val p) | None => gs !! k end)).
  - intros k. rewrite lookup_empty. reflexivity.
  - intros i x m r Hi IH k. destruct (decide (i = k)) as [->|Hne].
    + rewrite !lookup_insert_eq. reflexivity.
    + rewrite !lookup_insert_ne by assumption. apply IH.
Qed.

(** A frozen layer rejects [update] and [flush_gradients] and is left as it was. *)
Lemma frozen_update flush (l : LayerBase.t) :
  LayerBase.trainable l = false ->
  LayerBase.update flush l = (Err AssertionError, l) /\
  LayerBase.flush_gradients l = (Err AssertionError, l) /\
  cell_flush l = (Err AssertionError, l).
Proof.
  intros H. unfold LayerBase.update, LayerBase.flush_gradients, cell_flush, assert_trainable.
  cbv [mbind mret M_bind M_ret gets modify lift raise py_assert get_base base_has_base].
  rewrite H. auto.
Qed.

(** C8 (as amended).  [update()] on a layer that is not frozen replaces the
    value of every key present in both [parameters] and [gradients] by the
    optimizer's result and leaves the other parameters alone; it then
    flushes.  With the flush of [LayerBase], every gradient becomes an
    all-zero array of that gradient's own shape, every derived variable
    becomes [None] and the cached input the empty list.  With the flush of
    the recurrent cells, the gradient of every parameter key becomes an
    all-zero array of the shape of the updated parameter, the two counters
    become 0, every other derived variable the empty list, and the cached
    inputs the empty list. *)
Theorem update_then_flush (l : LayerBase.t) :
  LayerBase.trainable l = true ->
  let new_param k :=
    match LayerBase.gradients l !! k, LayerBase.parameters l !! k with
    | Some g, Some p => Some (opt_value (LayerBase.optimizer l) p g k)
    | _, _ => LayerBase.parameters l !! k
    end in
  (exists l', LayerBase.update LayerBase.flush_gradients l = (Ok tt, l') /\
     (forall k, LayerBase.parameters l' !! k = new_param k) /\
     LayerBase.gradients l' = zeros_like_val <$> LayerBase.gradients l /\
     LayerBase.derived_variables l' = (fun _ => VNone) <$> LayerBase.derived_variables l /\
     LayerBase.X l' = VList []) /\
  (exists l', LayerBase.update cell_flush l = (Ok tt, l') /\
     (forall k, LayerBase.parameters l' !! k = new_param k) /\
     (forall k, LayerBase.gradients l' !! k =
        match new_param k with
        | Some p => Some (zeros_like_val p)
        | None => LayerBase.gradients l !! k
        end) /\
     LayerBase.derived_variables l' =
       <["current_step" := VInt 0]> (<["n_timesteps" := VInt 0]>
         ((fun _ => VList []) <$> LayerBase.derived_variables l)) /\
     LayerBase.X l' = VList []).
Proof.
  intros Htr new_param.
  pose proof (update_fold_spec (LayerBase.gradients l) (LayerBase.parameters l)
                (LayerBase.optimizer l)) as Hf.
  cbv zeta in Hf.
  destruct (map_fold LayerBase.update_step (LayerBase.parameters l, LayerBase.optimizer l)
              (LayerBase.gradients l)) as [ps o] eqn:Efold.
  destruct Hf as (Hp & _ & _). simpl in Hp.
  split.
  - eexists. split.
    + unfold LayerBase.update, LayerBase.flush_gradients.
      cbv [mbind mret M_bind M_ret gets modify lift raise py_assert].
      rewrite Htr, Efold. cbn [LayerBase.trainable LayerBase.set_optimizer
        LayerBase.set_parameters]. rewrite Htr. reflexivity.
    + cbn. split_and!; try reflexivity. exact Hp.
  - eexists. split.
    + unfold LayerBase.update, cell_flush, assert_trainable, put_X, set_dv, upd_base.
      cbv [mbind mret M_bind M_ret gets modify lift raise py_assert get_base put_base
           base_has_base].
      rewrite Htr, Efold. cbn [LayerBase.trainable LayerBase.set_optimizer
        LayerBase.set_parameters]. rewrite Htr. reflexivity.
    + cbn. split_and!; try reflexivity; [exact Hp|].
      intros k. rewrite cell_flush_grads_spec, Hp. reflexivity.
Qed.

Lemma update_then_flush_witness :
  exists l', LayerBase.update LayerBase.flush_gradients (RBM.base Ex.rbm) = (Ok tt, l') /\
             LayerBase.X l' = VList [].
Proof.
  destruct (update_then_flush (RBM.base Ex.rbm)) as [(l' & E & _ & _ & _ & HX) _].
  - reflexivity.
  - exists l'. auto.
Defined.

(** C8, counterexample.  After [forward], [backward] and [update] on a dense
    layer, [gradients] holds an entry [Z] that is no parameter: that gradient
    has no parameter whose shape it could have. *)
Lemma update_gradient_without_parameter :
  exists Y l1 dX l2 l3 g,
    FullyConnected.forward Ex.fc_X Ex.fc = (Ok Y, l1) /\
    FullyConnected.backward Ex.fc_dLdY l1 = (Ok dX, l2) /\
    FullyConnected.update l2 = (Ok tt, l3) /\
    LayerBase.gradients (FullyConnected.base l3) !! "Z" = Some g /\
    ~ (exists p, LayerBase.parameters (FullyConnected.base l3) !! "Z" = Some p /\
                 zero_of_shape g p).
Proof.
  do 6 eexists.
  split; [vm_compute; reflexivity|].
  split; [vm_compute; reflexivity|].
  split; [vm_compute; reflexivity|].
  split; [vm_compute; reflexivity|].
  intros (p & Hp & _). vm_compute in Hp. discriminate.
Qed.

(** C10, counterexample.  [FullyConnected.backward] stores the keys [Z] and
    [Y] in [gradients]; they are not keys of [parameters]. *)
Lemma fc_backward_gradient_keys :
  exists Y l1 dX l2,
    FullyConnected.forward Ex.fc_X Ex.fc = (Ok Y, l1) /\
    FullyConnected.backward Ex.fc_dLdY l1 = (Ok dX, l2) /\
    dom (LayerBase.gradients (FullyConnected.base l1)) ⊆
      dom (LayerBase.parameters (FullyConnected.base l1)) /\
    ~ dom (LayerBase.gradients (FullyConnected.base l2)) ⊆
      dom (LayerBase.parameters (FullyConnected.base l2)).
Proof.
  do 4 eexists.
  split; [vm_compute; reflexivity|].
  split; [vm_compute; reflexivity|].
  split.
  - apply (bool_decide_unpack _). vm_compute. reflexivity.
  - intros H. specialize (H "Z"). rewrite !elem_of_dom in H.
    destruct H as [p Hp]; [eexists; vm_compute; reflexivity|].
    vm_compute in Hp. discriminate.
Qed.

End ContractFacts.

(** * Recurrent cells: the cursor and the accumulators *)

Lemma py_index_below {A} (l : list A) (t : Z) :
  (t < - Z.of_nat (length l))%Z -> py_index l t = Err IndexError.
Proof.
  intros H. unfold py_index.
  destruct (Z.ltb_spec t 0); [|lia].
  destruct (Z.leb_spec 0 (t + Z.of_nat (length l))); [lia|]. reflexivity.
Qed.

(** Closes a goal [failed r] by following the method until it raises. *)
Ltac follow_failure :=
  unfold failed;
  repeat match goal with
    | |- exists e, (Err ?x, _).1 = Err e => exists x; reflexivity
    | |- exists e, (let (_, _) := ?p in _).1 = Err e => destruct p eqn:?
    | |- exists e, (match ?x with _ => _ end).1 = Err e => destruct x eqn:?
    | |- exists e, (match ?x with _ => _ end _).1 = Err e => destruct x eqn:?
    | |- exists e, (if ?x then _ else _).1 = Err e => destruct x eqn:?
    end.

Lemma RNNCell_backward_rejects (l : RNNCell.t) d :
  cursor_exhausted (LayerBase.derived_variables (RNNCell.base l)) "Z" ->
  failed (RNNCell.backward d l).
Proof.
  intros Hex. unfold RNNCell.backward, assert_trainable, incr_dv, iadd_grad, set_dv, get_dv,
    get_param, get_X, upd_base.
  cbv [mbind mret M_bind M_ret res_bind res_ret gets modify lift raise py_assert dict_get
       get_base put_base RNNCell.has_base].
  cbn [RNNCell.base LayerBase.derived_variables LayerBase.set_derived_variables
       LayerBase.parameters LayerBase.trainable LayerBase.X LayerBase.gradients].
  destruct (LayerBase.trainable (RNNCell.base l)); [|eexists; reflexivity].
  destruct Hex as [Hn | (zs & c & HZ & Hc & Hlt)].
  - rewrite Hn. eexists; reflexivity.
  - rewrite Hc.
    cbn [RNNCell.base LayerBase.derived_variables LayerBase.set_derived_variables
       LayerBase.parameters LayerBase.trainable LayerBase.X LayerBase.gradients].
    rewrite lookup_insert_eq. rewrite !lookup_insert_ne by discriminate. rewrite HZ.
    cbv [the_int the_list].
    rewrite (py_index_below zs (c + -1)) by lia.
    follow_failure.
Qed.

Lemma LSTMCell_backward_rejects (l : LSTMCell.t) d :
  cursor_exhausted (LayerBase.derived_variables (LSTMCell.base l)) "Go" ->
  failed (LSTMCell.backward d l).
Proof.
  intros Hex. unfold LSTMCell.backward, LSTMCell._get_params, LSTMCell.dv_list,
    assert_trainable, incr_dv, iadd_grad, set_dv, get_dv, get_param, get_X, upd_base.
  cbv [mbind mret M_bind M_ret res_bind res_ret gets modify lift raise py_assert dict_get
       get_base put_base LSTMCell.has_base].
  cbn [LSTMCell.base LayerBase.derived_variables LayerBase.set_derived_variables
       LayerBase.parameters LayerBase.trainable LayerBase.X LayerBase.gradients].
  destruct (LayerBase.trainable (LSTMCell.base l)); [|eexists; reflexivity].
  destruct (LayerBase.parameters (LSTMCell.base l) !! "Wf"); [|eexists; reflexivity].
  destruct (LayerBase.parameters (LSTMCell.base l) !! "Wu"); [|eexists; reflexivity].
  destruct (LayerBase.parameters (LSTMCell.base l) !! "Wc"); [|eexists; reflexivity].
  destruct (LayerBase.parameters (LSTMCell.base l) !! "Wo"); [|eexists; reflexivity].
  destruct (LayerBase.parameters (LSTMCell.base l) !! "bf"); [|eexists; reflexivity].
  destruct (LayerBase.parameters (LSTMCell.base l) !! "bu"); [|eexists; reflexivity].
  destruct (LayerBase.parameters (LSTMCell.base l) !! "bc"); [|eexists; reflexivity].
  destruct (LayerBase.parameters (LSTMCell.base l) !! "bo"); [|eexists; reflexivity].
  destruct Hex as [Hn | (zs & c & HZ & Hc & Hlt)].
  - rewrite Hn. eexists; reflexivity.
  - rewrite Hc.
    cbn [LSTMCell.base LayerBase.derived_variables LayerBase.set_derived_variables
       LayerBase.parameters LayerBase.trainable LayerBase.X LayerBase.gradients].
    rewrite lookup_insert_eq. cbv [the_int].
    cbn [LSTMCell.base LayerBase.derived_variables LayerBase.set_derived_variables
       LayerBase.parameters LayerBase.trainable LayerBase.X LayerBase.gradients].
    rewrite lookup_insert_ne by discriminate. rewrite HZ.
    cbv [the_list].
    rewrite (py_index_below zs (c + -1)) by lia.
    eexists; reflexivity.
Qed.

(** C5, counterexample.  One forward call followed by two backward calls:
    the second backward call is not rejected; it returns a gradient computed
    from the caches read at index [-1]. *)
Lemma RNNCell_second_backward_accepted :
  exists A l1 dX1 l2 dX2 l3,
    RNNCell.forward Ex.rnn_X Ex.rnn = (Ok A, l1) /\
    RNNCell.backward Ex.rnn_dLdA l1 = (Ok dX1, l2) /\
    LayerBase.derived_variables (RNNCell.base l2) !! "current_step" = Some (VInt 0) /\
    RNNCell.backward Ex.rnn_dLdA l2 = (Ok dX2, l3) /\
    LayerBase.derived_variables (RNNCell.base l3) !! "current_step" = Some (VInt (-1)).
Proof.
  do 6 eexists.
  split; [vm_compute; reflexivity|].
  split; [vm_compute; reflexivity|].
  split; [vm_compute; reflexivity|].
  split; [vm_compute; reflexivity|].
  vm_compute; reflexivity.
Qed.

(** C9.  After [flush_gradients] the accumulator is the empty list, not
    [None]: the first backward call of the next sequence adds it to the
    incoming gradient and raises. *)
Theorem RNNCell_accumulator_after_flush :
  exists A l1 dX l2 l3 A' l4 l5,
    RNNCell.forward Ex.rnn_X Ex.rnn = (Ok A, l1) /\
    RNNCell.backward Ex.rnn_dLdA l1 = (Ok dX, l2) /\
    RNNCell.flush_gradients l2 = (Ok tt, l3) /\
    LayerBase.derived_variables (RNNCell.base l3) !! "dLdA_accumulator" = Some (VList []) /\
    RNNCell.forward Ex.rnn_X l3 = (Ok A', l4) /\
    RNNCell.backward Ex.rnn_dLdA l4 = (Err ValueError, l5).
Proof.
  do 8 eexists.
  split; [vm_compute; reflexivity|].
  split; [vm_compute; reflexivity|].
  split; [vm_compute; reflexivity|].
  split; [vm_compute; reflexivity|].
  split; [vm_compute; reflexivity|].
  vm_compute; reflexivity.
Qed.

(** * LSTMCell: the gradient of the update gate *)

(** Evaluation of a method on a state that holds symbolic scalars:
    everything is computed except the arithmetic on array entries. *)
Ltac symbolic_eval :=
  with_strategy transparent [gmap_empty] (cbv -[sadd smul ssub]).

(** The loss of the one-step sequence is the polynomial [(1 + bu)^2]. *)
Lemma lstm_loss_poly (b : Z) : Ex.lstm_loss b = Ok ((1 + b) * (1 + b))%Z.
Proof.
  unfold Ex.lstm_loss. remember (Ok ((1 + b) * (1 + b))%Z) as rhs.
  symbolic_eval. subst rhs. f_equal. sring.
Qed.

(** C2.  On a one-step sequence with loss [L = A_1], the loss as a function
    of the update-gate bias is [L(bu) = (1 + bu)^2], so that
    [L(1 + h) = L(1) + 4 h + h^2] and the derivative at [bu = 1] is 4.  The
    gradient that [backward] accumulates for [bu] is 2: the derivative of the
    gate is taken at [Z_t W_u + b_o], not at [Z_t W_u + b_u]. *)
Theorem LSTMCell_update_gate_gradient :
  (forall h : Z, Ex.lstm_loss (1 + h) = Ok (4 + 4 * h + h * h)%Z) /\
  exists out l1 dX l2,
    LSTMCell.forward Ex.lstm_X Ex.lstm = (Ok out, l1) /\
    LSTMCell.backward Ex.lstm_dLdA l1 = (Ok dX, l2) /\
    LayerBase.gradients (LSTMCell.base l2) !! "bu" = Some (VArr (Np.mk [1; 1] [2%Z])).
Proof.
  split.
  - intros h. rewrite lstm_loss_poly. f_equal. ring.
  - do 4 eexists.
    split; [vm_compute; reflexivity|].
    split; [vm_compute; reflexivity|].
    vm_compute; reflexivity.
Qed.

(** * Pool2D and the frozen Conv2D *)

(** C7.  A 1 x 2 window with stride 2 over a row [5; 3] padded by one zero on
    the left: the only window covers the padding and the entry 5, so 5 is its
    maximum and the forward pass returns it.  The backward pass looks for the
    maximum in the unpadded input at the window's coordinates, finds it at
    offset 0, adds the upstream gradient 9 to the padding frame, and returns
    a gradient that is zero everywhere. *)
Theorem Pool2D_max_backward_with_padding :
  exists l1 dX l2,
    Pool2D.forward Ex.pool_X Ex.pool = (Ok (Np.mk [1; 1; 1; 1] [5%Z]), l1) /\
    Pool2D.backward Ex.pool_dLdY l1 = (Ok dX, l2) /\
    dX = Np.mk [1; 1; 2; 1] [0; 0]%Z.
Proof.
  do 3 eexists.
  split; [vm_compute; reflexivity|].
  split; [vm_compute; reflexivity|].
  reflexivity.
Qed.

(** C4.  A frozen Conv2D layer: [backward] has no assertion on [trainable];
    it returns a gradient and overwrites the stored gradients. *)
Theorem Conv2D_backward_when_frozen :
  exists Y l1 l2 dX l3,
    Conv2D.forward Ex.conv_X Ex.conv = (Ok Y, l1) /\
    Conv2D.freeze l1 = (Ok tt, l2) /\
    LayerBase.trainable (Conv2D.base l2) = false /\
    Conv2D.backward Ex.conv_dLdY l2 = (Ok dX, l3) /\
    LayerBase.gradients (Conv2D.base l3) !! "b" =
      Some (VArr (Np.mk [1; 1; 1; 2] [214; 278]%Z)) /\
    LayerBase.gradients (Conv2D.base l2) !! "b" =
      Some (VArr (Np.mk [1; 1; 1; 2] [0; 0]%Z)) /\
    LayerBase.parameters (Conv2D.base l3) = LayerBase.parameters (Conv2D.base l2).
Proof.
  do 5 eexists.
  split; [vm_compute; reflexivity|].
  split; [vm_compute; reflexivity|].
  split; [reflexivity|].
  split; [vm_compute; reflexivity|].
  split; [vm_compute; reflexivity|].
  split; [vm_compute; reflexivity|].
  vm_compute; reflexivity.
Qed.

(** * The key sets of [parameters] and [gradients] *)

Set Warnings "-clear-no-such-hyp".

Section Keeps.
Context {T : Type} `{HasBase T}.
(** The setters of the object act on its LayerBase part only. *)
Hypothesis get_put : forall b (l : T), get_base (put_base b l) = b.
Variable P : gmap string pyval -> gmap string pyval -> Prop.

Lemma keeps_bind {A B} (m : M T A) (k : A -> M T B) :
  keeps P m -> (forall a, keeps P (k a)) -> keeps P (m ≫= k).
Proof.
  intros Hm Hk l Hl. unfold mbind, M_bind.
  specialize (Hm l Hl). destruct (m l) as [[a|e] l']; simpl in *.
  - apply Hk. exact Hm.
  - exact Hm.
Qed.

Lemma keeps_pure {A} (m : M T A) : (forall l, (m l).2 = l) -> keeps P m.
Proof. intros E l Hl. rewrite E. exact Hl. Qed.

Lemma keeps_ret {A} (a : A) : keeps P (mret a).
Proof. apply keeps_pure. reflexivity. Qed.
Lemma keeps_lift {A} (r : res A) : keeps P (lift r).
Proof. apply keeps_pure. reflexivity. Qed.
Lemma keeps_raise {A} e : keeps P (raise e : M T A).
Proof. apply keeps_pure. reflexivity. Qed.
Lemma keeps_gets {A} (f : T -> A) : keeps P (gets f).
Proof. apply keeps_pure. reflexivity. Qed.
Lemma keeps_assert b : keeps P (py_assert b : M T unit).
Proof. apply keeps_pure. destruct b; reflexivity. Qed.
Lemma keeps_get_dv k : keeps P (get_dv k).
Proof. apply keeps_pure. reflexivity. Qed.
Lemma keeps_get_param k : keeps P (get_param k).
Proof. apply keeps_pure. reflexivity. Qed.
Lemma keeps_get_grad k : keeps P (get_grad k).
Proof. apply keeps_pure. reflexivity. Qed.
Lemma keeps_get_X : keeps P get_X.
Proof. apply keeps_pure. reflexivity. Qed.
Lemma keeps_assert_trainable : keeps P assert_trainable.
Proof. apply keeps_bind; [apply keeps_gets | intros; apply keeps_assert]. Qed.

(** A change of fields outside the LayerBase part. *)
Lemma keeps_modify_other (f : T -> T) :
  (forall l, get_base (f l) = get_base l) -> keeps P (modify f).
Proof. intros E l Hl. simpl. rewrite E. exact Hl. Qed.

Lemma keeps_upd_base (f : LayerBase.t -> LayerBase.t) :
  (forall b, P (LayerBase.parameters b) (LayerBase.gradients b) ->
             P (LayerBase.parameters (f b)) (LayerBase.gradients (f b))) ->
  keeps P (modify (upd_base f)).
Proof. intros Hf l Hl. simpl. unfold upd_base. rewrite get_put. apply Hf. exact Hl. Qed.

Lemma keeps_put_X v : keeps P (put_X v).
Proof. apply keeps_upd_base. intros b Hb. exact Hb. Qed.
Lemma keeps_set_dv k v : keeps P (set_dv k v).
Proof. apply keeps_upd_base. intros b Hb. exact Hb. Qed.
Lemma keeps_put_dvs d : keeps P (put_dvs d).
Proof. apply keeps_upd_base. intros b Hb. exact Hb. Qed.

Lemma keeps_append_dv k v : keeps P (append_dv k v).
Proof.
  apply keeps_bind; [apply keeps_get_dv|]. intros [| |?|?];
    first [apply keeps_raise | apply keeps_set_dv].
Qed.

Lemma keeps_incr_dv k n : keeps P (incr_dv k n).
Proof.
  apply keeps_bind; [apply keeps_get_dv|]. intros [|?| |?];
    first [apply keeps_raise | apply keeps_set_dv].
Qed.

Lemma keeps_on_base {A} (m : M LayerBase.t A) :
  keeps P m -> keeps P (on_base m).
Proof.
  intros Hm l Hl. unfold on_base. specialize (Hm (get_base l) Hl).
  destruct (m (get_base l)) as [r b]. simpl in *. rewrite get_put. exact Hm.
Qed.

End Keeps.

Section KeysFacts.
Variables D E : gset string.
Local Abbreviation P := (keys_prop D E).

Lemma base_get_put : forall b (l : LayerBase.t), get_base (put_base b l) = b.
Proof. reflexivity. Qed.

Lemma keys_flush : keeps P LayerBase.flush_gradients.
Proof.
  intros l Hl. unfold LayerBase.flush_gradients.
  cbv [mbind mret M_bind M_ret gets modify lift raise py_assert].
  destruct (LayerBase.trainable l); [|exact Hl].
  cbn. unfold keys_prop in *. rewrite dom_fmap_L. exact Hl.
Qed.

Lemma keys_cell_flush : keeps P cell_flush.
Proof.
  intros l Hl. unfold cell_flush, assert_trainable, put_X, set_dv, upd_base.
  cbv [mbind mret M_bind M_ret gets modify lift raise py_assert get_base put_base
       base_has_base].
  destruct (LayerBase.trainable l); [|exact Hl].
  cbn. unfold keys_prop in *. destruct Hl as [HD HG]. split; [exact HD|].
  intros k Hk. apply elem_of_dom in Hk. rewrite cell_flush_grads_spec in Hk.
  destruct (LayerBase.parameters l !! k) eqn:Ek.
  - apply elem_of_union_l, elem_of_dom. eauto.
  - apply HG, elem_of_dom. exact Hk.
Qed.

Lemma update_fold_dom (gs ps : gmap string pyval) o :
  dom (map_fold LayerBase.update_step (ps, o) gs).1 = dom ps.
Proof.
  destruct (update_fold_spec gs ps o) as (Hp & _).
  apply set_eq. intros k. rewrite !elem_of_dom, Hp.
  destruct (gs !! k), (ps !! k); split; intros [? ?]; eauto; discriminate.
Qed.

Lemma keys_update flush : keeps P flush -> keeps P (LayerBase.update flush).
Proof.
  intros Hf l Hl. unfold LayerBase.update.
  cbv [mbind mret M_bind M_ret gets modify lift raise py_assert].
  destruct (LayerBase.trainable l); [|exact Hl].
  pose proof (update_fold_dom (LayerBase.gradients l) (LayerBase.parameters l)
                (LayerBase.optimizer l)) as Hd.
  destruct (map_fold LayerBase.update_step _ _) as [ps o]. simpl in Hd.
  apply Hf. cbn. unfold keys_prop in *. rewrite Hd. exact Hl.
Qed.

Section OnLayer.
Context {T : Type} `{HasBase T}.
Hypothesis get_put : forall b (l : T), get_base (put_base b l) = b.

(** Storing a gradient under a key that is declared, allowed or present. *)
Lemma keys_set_grad k v : k ∈ D ∪ E -> keeps P (set_grad k v).
Proof.
  intros Hk. apply keeps_upd_base; [exact get_put|]. intros b [HD HG]. cbn.
  split; [exact HD|]. rewrite dom_insert_L. set_solver.
Qed.

Lemma keys_iadd_grad k v : keeps P (iadd_grad (T:=T) k v).
Proof.
  intros l Hl. unfold iadd_grad, get_grad, set_grad, upd_base.
  cbv [mbind mret M_bind M_ret gets modify lift raise dict_get].
  destruct (LayerBase.gradients (get_base l) !! k) as [g|] eqn:Eg; [|exact Hl].
  destruct (as_array g); [|exact Hl]. destruct (Np.add a v); [|exact Hl].
  destruct (decide _); [|exact Hl]. cbn. rewrite get_put. cbn.
  destruct Hl as [HD HG]. split; [exact HD|].
  rewrite dom_insert_L. assert (k ∈ dom (LayerBase.gradients (get_base l)))
    by (apply elem_of_dom; eauto). set_solver.
Qed.

Lemma keys_put_grads d : dom d ⊆ D ∪ E -> keeps P (put_grads d).
Proof.
  intros Hd. apply keeps_upd_base; [exact get_put|]. intros b [HD HG]. cbn.
  split; [exact HD|]. set_solver.
Qed.

Lemma keys_set_param k v : keeps P (set_param k v).
Proof.
  apply keeps_upd_base; [exact get_put|]. intros b [HD HG]. unfold keys_prop. cbn.
  rewrite dom_insert_L. split; set_solver.
Qed.

(** Replacing both dictionaries, as [_init_params] does. *)
Lemma keys_put_both (ps gs : gmap string pyval) (l : T) :
  D ⊆ dom ps -> dom gs ⊆ dom ps ∪ E ->
  P (LayerBase.parameters (get_base (upd_base (LayerBase.set_gradients gs)
        (upd_base (LayerBase.set_parameters ps) l))))
    (LayerBase.gradients (get_base (upd_base (LayerBase.set_gradients gs)
        (upd_base (LayerBase.set_parameters ps) l)))).
Proof.
  intros H1 H2. unfold upd_base. rewrite !get_put. cbn. split; assumption.
Qed.

End OnLayer.
End KeysFacts.

(** ** Walking through a method *)

Ltac keeps_leaf :=
  first
    [ apply keeps_ret | apply keeps_lift | apply keeps_raise | apply keeps_gets
    | apply keeps_assert | apply keeps_get_dv | apply keeps_get_param
    | apply keeps_get_grad | apply keeps_get_X | apply keeps_assert_trainable
    | apply keeps_put_X; reflexivity
    | apply keeps_set_dv; reflexivity
    | apply keeps_put_dvs; reflexivity
    | apply keeps_append_dv; reflexivity
    | apply keeps_incr_dv; reflexivity
    | apply keys_iadd_grad; reflexivity
    | apply keys_set_param; reflexivity
    | apply keys_set_grad; [reflexivity | set_solver]
    | apply keys_put_grads; [reflexivity | set_solver]
    | apply keeps_modify_other; reflexivity ].

(** [extra] closes the calls of other methods of the layer. *)
Ltac keeps_walk_with extra :=
  repeat lazymatch goal with
    | |- keeps _ (_ ≫= _) => apply keeps_bind; [ | intros ? ]
    | |- keeps _ (match ?x with _ => _ end) => destruct x
    | |- keeps _ _ => first [ keeps_leaf | extra ]
    end.

(** The state after [_init_params], whose dictionaries are literals. *)
Ltac init_params_keys :=
  cbv [mbind mret M_bind M_ret gets modify lift raise put_params put_grads put_dvs put_X
       upd_base];
  cbn; unfold keys_prop; split; set_solver.

Section Methods.
Variables D E : gset string.
Local Abbreviation P := (keys_prop D E).

Lemma keys_base_flush {T} `{HasBase T} :
  (forall b (l : T), get_base (put_base b l) = b) ->
  keeps P (on_base (T:=T) LayerBase.flush_gradients).
Proof. intros gp. apply keeps_on_base; [exact gp | apply keys_flush]. Qed.

Lemma keys_base_update {T} `{HasBase T} :
  (forall b (l : T), get_base (put_base b l) = b) ->
  keeps P (on_base (T:=T) (LayerBase.update LayerBase.flush_gradients)).
Proof. intros gp. apply keeps_on_base; [exact gp | apply keys_update, keys_flush]. Qed.

Lemma keys_cell_flush_on {T} `{HasBase T} :
  (forall b (l : T), get_base (put_base b l) = b) ->
  keeps P (on_base (T:=T) cell_flush).
Proof. intros gp. apply keeps_on_base; [exact gp | apply keys_cell_flush]. Qed.

Lemma keys_cell_update_on {T} `{HasBase T} :
  (forall b (l : T), get_base (put_base b l) = b) ->
  keeps P (on_base (T:=T) (LayerBase.update cell_flush)).
Proof. intros gp. apply keeps_on_base; [exact gp | apply keys_update, keys_cell_flush]. Qed.

End Methods.

(** ** The methods of each layer *)

Section FullyConnectedKeys.
Local Abbreviation P := (keys_prop {["W"; "b"]} {["Z"; "Y"]}).

Lemma FC_init_params_keys : keeps P FullyConnected._init_params.
Proof.
  intros l Hl. unfold FullyConnected._init_params.
  cbv [mbind M_bind gets]. cbn. destruct (FullyConnected.n_in l); [|exact Hl].
  init_params_keys.
Qed.

Lemma FC_forward_keys X : keeps P (FullyConnected.forward X).
Proof.
  unfold FullyConnected.forward. keeps_walk_with ltac:(apply FC_init_params_keys).
Qed.

Lemma FC_backward_keys d : keeps P (FullyConnected.backward d).
Proof. unfold FullyConnected.backward. keeps_walk_with fail. Qed.

End FullyConnectedKeys.

Section RNNCellKeys.
Local Abbreviation P := (keys_prop {["Waa"; "Wax"; "ba"; "bx"]} ∅).

Lemma RNNCell_init_params_keys : keeps P RNNCell._init_params.
Proof.
  intros l Hl. unfold RNNCell._init_params.
  cbv [mbind M_bind gets put_X modify upd_base]. cbn.
  destruct (RNNCell.n_in l); [|exact Hl].
  init_params_keys.
Qed.

Lemma RNNCell_forward_keys X : keeps P (RNNCell.forward X).
Proof.
  unfold RNNCell.forward. keeps_walk_with ltac:(apply RNNCell_init_params_keys).
Qed.

Lemma RNNCell_backward_keys d : keeps P (RNNCell.backward d).
Proof. unfold RNNCell.backward. keeps_walk_with fail. Qed.

End RNNCellKeys.

Section LSTMCellKeys.
Local Abbreviation P :=
  (keys_prop {["Wf"; "Wu"; "Wc"; "Wo"; "bf"; "bu"; "bc"; "bo"]} ∅).

Lemma LSTMCell_init_params_keys : keeps P LSTMCell._init_params.
Proof.
  intros l Hl. unfold LSTMCell._init_params.
  cbv [mbind M_bind gets put_X modify upd_base]. cbn.
  destruct (LSTMCell.n_in l); [|exact Hl].
  init_params_keys.
Qed.

Lemma LSTMCell_get_params_keys : keeps P LSTMCell._get_params.
Proof. unfold LSTMCell._get_params. keeps_walk_with fail. Qed.

Lemma LSTMCell_dv_list_keys k : keeps P (LSTMCell.dv_list k).
Proof. unfold LSTMCell.dv_list. keeps_walk_with fail. Qed.

Ltac lstm_calls :=
  first [ apply LSTMCell_init_params_keys | apply LSTMCell_get_params_keys
        | apply LSTMCell_dv_list_keys ].

Lemma LSTMCell_forward_keys X : keeps P (LSTMCell.forward X).
Proof. unfold LSTMCell.forward. keeps_walk_with lstm_calls. Qed.

Lemma LSTMCell_backward_keys d : keeps P (LSTMCell.backward d).
Proof. unfold LSTMCell.backward. keeps_walk_with lstm_calls. Qed.

End LSTMCellKeys.

Section ConvKeys.
Local Abbreviation P := (keys_prop {["W"; "b"]} ∅).

Lemma Conv2D_init_params_keys : keeps P Conv2D._init_params.
Proof.
  intros l Hl. unfold Conv2D._init_params.
  cbv [mbind M_bind gets]. cbn. destruct (Conv2D.in_ch l); [|exact Hl].
  destruct (Conv2D.kernel_shape l). init_params_keys.
Qed.

Lemma Conv2D_forward_keys X : keeps P (Conv2D.forward X).
Proof.
  unfold Conv2D.forward. keeps_walk_with ltac:(apply Conv2D_init_params_keys).
Qed.

Lemma Conv2D_backward_keys d : keeps P (Conv2D.backward d).
Proof. unfold Conv2D.backward. keeps_walk_with fail. Qed.

Lemma Conv2D_backward_naive_keys d : keeps P (Conv2D._backward_naive d).
Proof. unfold Conv2D._backward_naive. keeps_walk_with fail. Qed.

Lemma ConvLike_init_params_keys : keeps P ConvLike._init_params.
Proof.
  intros l Hl. unfold ConvLike._init_params.
  cbv [mbind M_bind gets]. cbn. destruct (ConvLike.in_ch l); [|exact Hl].
  init_params_keys.
Qed.

Lemma ConvLike_forward_keys X : keeps P (ConvLike.forward X).
Proof.
  unfold ConvLike.forward. keeps_walk_with ltac:(apply ConvLike_init_params_keys).
Qed.

Lemma ConvLike_backward_keys d : keeps P (ConvLike.backward d).
Proof. unfold ConvLike.backward. keeps_walk_with fail. Qed.

End ConvKeys.

Section BatchNormKeys.
Local Abbreviation P :=
  (keys_prop {["scaler"; "intercept"; "running_var"; "running_mean"]} ∅).

Lemma BatchNorm_init_params_keys : keeps P BatchNorm._init_params.
Proof.
  intros l Hl. unfold BatchNorm._init_params.
  cbv [mbind M_bind gets]. cbn. destruct (BatchNorm.n_in l); [|exact Hl].
  init_params_keys.
Qed.

Lemma BatchNorm_forward_keys X : keeps P (BatchNorm.forward X).
Proof.
  unfold BatchNorm.forward. keeps_walk_with ltac:(apply BatchNorm_init_params_keys).
Qed.

Lemma BatchNorm_backward_keys d : keeps P (BatchNorm.backward d).
Proof. unfold BatchNorm.backward. keeps_walk_with fail. Qed.

End BatchNormKeys.

Section PlainKeys.
Local Abbreviation P := (keys_prop ∅ ∅).

Lemma Pool2D_init_params_keys : keeps P Pool2D._init_params.
Proof. unfold Pool2D._init_params. keeps_walk_with fail. Qed.

Lemma Pool2D_forward_keys X : keeps P (Pool2D.forward X).
Proof.
  unfold Pool2D.forward. keeps_walk_with ltac:(apply Pool2D_init_params_keys).
Qed.

Lemma Pool2D_backward_keys d : keeps P (Pool2D.backward d).
Proof. unfold Pool2D.backward. keeps_walk_with fail. Qed.

Lemma Combinator_forward_keys X : keeps P (Combinator.forward X).
Proof. unfold Combinator.forward. keeps_walk_with fail. Qed.

Lemma Combinator_backward_keys d : keeps P (Combinator.backward d).
Proof. unfold Combinator.backward. keeps_walk_with fail. Qed.

Lemma Flatten_forward_keys X : keeps P (Flatten.forward X).
Proof. unfold Flatten.forward. keeps_walk_with fail. Qed.

Lemma Flatten_backward_keys d : keeps P (Flatten.backward d).
Proof. unfold Flatten.backward. keeps_walk_with fail. Qed.

End PlainKeys.

Section RBMKeys.
Local Abbreviation P := (keys_prop {["W"; "b_in"; "b_out"]} ∅).

Lemma RBM_init_params_keys : keeps P RBM._init_params.
Proof.
  intros l Hl. unfold RBM._init_params.
  cbv [mbind M_bind gets]. cbn. destruct (RBM.n_in l); [|exact Hl].
  init_params_keys.
Qed.

Lemma RBM_sample_keys p : keeps P (RBM.sample p).
Proof.
  intros l Hl. unfold RBM.sample.
  destruct (np_random_rand _ _). exact Hl.
Qed.

Lemma RBM_set_dv_keys k v : keeps P (RBM.set_dv k v).
Proof. exact (keeps_set_dv (T:=RBM.t) (fun _ _ => eq_refl) P k v). Qed.

Lemma RBM_set_grad_keys k v : k ∈ ({["W"; "b_in"; "b_out"]} : gset string) ->
  keeps P (RBM.set_grad k v).
Proof.
  intros Hk. refine (keys_set_grad _ ∅ (T:=RBM.t) (fun _ _ => eq_refl) k v _). set_solver.
Qed.

Lemma RBM_get_dv_keys k : keeps P (RBM.get_dv k).
Proof. apply keeps_pure. reflexivity. Qed.

Lemma RBM_get_param_keys k : keeps P (RBM.get_param k).
Proof. apply keeps_pure. reflexivity. Qed.

Ltac rbm_calls :=
  first [ apply RBM_init_params_keys | apply RBM_sample_keys | apply RBM_set_dv_keys
        | apply RBM_get_dv_keys | apply RBM_get_param_keys
        | apply RBM_set_grad_keys; set_solver ].

Lemma RBM_gibbs_step_keys W b_in b_out k c : keeps P (RBM.gibbs_step W b_in b_out k c).
Proof. unfold RBM.gibbs_step. keeps_walk_with rbm_calls. Qed.

Lemma RBM_gibbs_loop_keys W b_in b_out ks : forall c,
  keeps P (RBM.gibbs_loop W b_in b_out ks c).
Proof.
  induction ks as [|k ks IH]; intros c; simpl.
  - apply keeps_ret.
  - apply keeps_bind; [apply RBM_gibbs_step_keys | exact IH].
Qed.

Lemma RBM_forward_keys V K : keeps P (RBM.forward V K).
Proof.
  unfold RBM.forward.
  keeps_walk_with ltac:(first [rbm_calls | apply RBM_gibbs_loop_keys]).
Qed.

Lemma RBM_backward_keys : keeps P RBM.backward.
Proof. unfold RBM.backward. keeps_walk_with rbm_calls. Qed.

Lemma RBM_flush_keys : keeps P (RBM.on_base LayerBase.flush_gradients).
Proof. exact (keys_base_flush _ ∅ (T:=RBM.t) (fun _ _ => eq_refl)). Qed.

Lemma RBM_update_keys :
  keeps P (RBM.on_base (LayerBase.update LayerBase.flush_gradients)).
Proof. exact (keys_base_update _ ∅ (T:=RBM.t) (fun _ _ => eq_refl)). Qed.

End RBMKeys.

(** ** The invariant *)

(** The constructors establish the invariant: the parameter keys are declared
    with the value [None] and no gradient is stored. *)
Lemma constructed_keys_ok :
  (forall n act iw o, keys_ok (LFullyConnected (FullyConnected.init n act iw o))) /\
  (forall n act iw o, keys_ok (LRNNCell (RNNCell.init n act iw o))) /\
  (forall n act gate iw o, keys_ok (LLSTMCell (LSTMCell.init n act gate iw o))) /\
  (forall k s p m o, keys_ok (LPool2D (Pool2D.init k s p m o))) /\
  (forall n k p s d act iw o, keys_ok (LConv2D (Conv2D.init n k p s d act iw o))) /\
  (forall k act o, keys_ok (LCombinator (Combinator.init k act o))) /\
  (forall k o, keys_ok (LFlatten (Flatten.init k o))) /\
  (forall td r bs mx nm bk o, keys_ok (LBatchNorm (BatchNorm.init td r bs mx nm bk o))) /\
  (forall k n kd act iw fk bk o, keys_ok (LConvLike (ConvLike.init k n kd act iw fk bk o))).
Proof.
  split_and!; intros; unfold keys_ok; cbn; split; set_solver.
Qed.

(** C10 (amended).  For every layer whose declared parameter keys are keys of
    [parameters] and whose [gradients] keys are keys of [parameters] or, for
    FullyConnected, the keys [Z] and [Y] that its [backward] stores, the same
    holds after every call of [forward], [backward], [update] and
    [flush_gradients], whether the call returned or raised. *)
Theorem gradient_keys_invariant (l : layer) (c : call) :
  keys_ok l -> keys_ok (after l c).
Proof.
  intros Hl. destruct l as [l|l|l|l|l|l|l|l|l|l]; destruct c as [X K|d| |];
    unfold keys_ok, after, layer_base, declared_keys, extra_gradient_keys in *;
    revert Hl; generalize l.
  - apply RBM_forward_keys.
  - apply RBM_backward_keys.
  - apply RBM_update_keys.
  - apply RBM_flush_keys.
  - apply Combinator_forward_keys.
  - apply Combinator_backward_keys.
  - apply (keys_base_update ∅ ∅ (T:=Combinator.t)). reflexivity.
  - apply (keys_base_flush ∅ ∅ (T:=Combinator.t)). reflexivity.
  - apply BatchNorm_forward_keys.
  - apply BatchNorm_backward_keys.
  - apply (keys_base_update _ ∅ (T:=BatchNorm.t)). reflexivity.
  - apply (keys_base_flush _ ∅ (T:=BatchNorm.t)). reflexivity.
  - apply FC_forward_keys.
  - apply FC_backward_keys.
  - apply (keys_base_update _ _ (T:=FullyConnected.t)). reflexivity.
  - apply (keys_base_flush _ _ (T:=FullyConnected.t)). reflexivity.
  - apply RNNCell_forward_keys.
  - apply RNNCell_backward_keys.
  - apply (keys_cell_update_on _ ∅ (T:=RNNCell.t)). reflexivity.
  - apply (keys_cell_flush_on _ ∅ (T:=RNNCell.t)). reflexivity.
  - apply LSTMCell_forward_keys.
  - apply LSTMCell_backward_keys.
  - apply (keys_cell_update_on _ ∅ (T:=LSTMCell.t)). reflexivity.
  - apply (keys_cell_flush_on _ ∅ (T:=LSTMCell.t)). reflexivity.
  - apply Pool2D_forward_keys.
  - apply Pool2D_backward_keys.
  - apply (keys_base_update ∅ ∅ (T:=Pool2D.t)). reflexivity.
  - apply (keys_base_flush ∅ ∅ (T:=Pool2D.t)). reflexivity.
  - apply Flatten_forward_keys.
  - apply Flatten_backward_keys.
  - apply (keys_base_update ∅ ∅ (T:=Flatten.t)). reflexivity.
  - apply (keys_base_flush ∅ ∅ (T:=Flatten.t)). reflexivity.
  - apply ConvLike_forward_keys.
  - apply ConvLike_backward_keys.
  - apply (keys_base_update _ ∅ (T:=ConvLike.t)). reflexivity.
  - apply (keys_base_flush _ ∅ (T:=ConvLike.t)). reflexivity.
  - apply Conv2D_forward_keys.
  - apply Conv2D_backward_keys.
  - apply (keys_base_update _ ∅ (T:=Conv2D.t)). reflexivity.
  - apply (keys_base_flush _ ∅ (T:=Conv2D.t)). reflexivity.
Qed.

(** The invariant at the fully connected layer of the examples, after its
    first [forward], across the [backward] that stores [Z] and [Y]. *)
Lemma gradient_keys_invariant_witness :
  keys_ok (after (LFullyConnected Ex.fc) (Forward [Ex.fc_X] None)) /\
  keys_ok (after (after (LFullyConnected Ex.fc) (Forward [Ex.fc_X] None))
                 (Backward Ex.fc_dLdY)).
Proof.
  assert (H : keys_ok (after (LFullyConnected Ex.fc) (Forward [Ex.fc_X] None))).
  { split; apply (bool_decide_unpack _); vm_compute; reflexivity. }
  split; [exact H|].
  apply (gradient_keys_invariant _ (Backward Ex.fc_dLdY) H).
Defined.

(** * Arrays of any rank as functions of their index *)

Module NdF.
Import Np.

Lemma inb_nil idx : inb [] idx <-> idx = [].
Proof. split; [inversion 1; reflexivity | intros ->; constructor]. Qed.

Lemma inb_cons n sh idx :
  inb (n :: sh) idx <-> exists i idx', idx = i :: idx' /\ i < n /\ inb sh idx'.
Proof.
  split.
  - inversion 1; subst. eauto.
  - intros (i & idx' & -> & Hi & H). constructor; assumption.
Qed.

Lemma inb_length sh idx : inb sh idx -> length idx = length sh.
Proof. apply Forall2_length. Qed.

Lemma size_cons n sh : size (n :: sh) = n * size sh.
Proof. reflexivity. Qed.

Lemma ravel_lt sh : forall idx, inb sh idx -> ravel sh idx < size sh.
Proof.
  induction sh as [|n sh IH]; intros idx H.
  - apply inb_nil in H. subst. simpl. lia.
  - apply inb_cons in H. destruct H as (i & idx' & -> & Hi & H).
    specialize (IH _ H). simpl ravel. rewrite size_cons. nia.
Qed.

Lemma unravel_ravel sh : forall idx, inb sh idx -> unravel sh (ravel sh idx) = idx.
Proof.
  induction sh as [|n sh IH]; intros idx H.
  - apply inb_nil in H. subst. reflexivity.
  - apply inb_cons in H. destruct H as (i & idx' & -> & Hi & H).
    pose proof (ravel_lt _ _ H) as Hlt. simpl.
    rewrite idx2_div, idx2_mod by exact Hlt. rewrite IH by exact H. reflexivity.
Qed.

Lemma unravel_inb sh : forall k, k < size sh -> inb sh (unravel sh k).
Proof.
  induction sh as [|n sh IH]; intros k Hk; simpl.
  - constructor.
  - rewrite size_cons in Hk. destruct (idx2_decode k n (size sh) Hk) as (H1 & H2 & _).
    constructor; [exact H1 | apply IH; exact H2].
Qed.

Lemma ravel_unravel sh : forall k, k < size sh -> ravel sh (unravel sh k) = k.
Proof.
  induction sh as [|n sh IH]; intros k Hk; simpl.
  - simpl in Hk. lia.
  - rewrite size_cons in Hk. destruct (idx2_decode k n (size sh) Hk) as (H1 & H2 & H3).
    rewrite IH by exact H2. lia.
Qed.

Lemma ravel_inj sh idx1 idx2 :
  inb sh idx1 -> inb sh idx2 -> ravel sh idx1 = ravel sh idx2 -> idx1 = idx2.
Proof.
  intros H1 H2 E. rewrite <- (unravel_ravel sh idx1 H1), <- (unravel_ravel sh idx2 H2), E.
  reflexivity.
Qed.

Lemma wf_of_fun sh F : wf (of_fun sh F).
Proof. unfold wf, of_fun. simpl. apply length_tab. Qed.

Lemma shape_of_fun sh F : shape (of_fun sh F) = sh.
Proof. reflexivity. Qed.

Lemma get_of_fun sh F idx : inb sh idx -> get (of_fun sh F) idx = F idx.
Proof.
  intros H. unfold get, geti, of_fun. simpl.
  rewrite nth_tab by (apply ravel_lt; exact H).
  rewrite unravel_ravel by exact H. reflexivity.
Qed.

Lemma geti_of_fun sh F idx : inb sh idx -> geti (of_fun sh F) (ravel sh idx) = F idx.
Proof. apply get_of_fun. Qed.

Lemma of_fun_ext sh F G :
  (forall idx, inb sh idx -> F idx = G idx) -> of_fun sh F = of_fun sh G.
Proof.
  intros H. unfold of_fun. f_equal. apply tab_ext. intros k Hk.
  apply H, unravel_inb, Hk.
Qed.

Lemma geti_get a k : k < size (shape a) -> geti a k = get a (unravel (shape a) k).
Proof. intros H. unfold get. rewrite ravel_unravel by exact H. reflexivity. Qed.

Lemma of_fun_eta a : wf a -> a = of_fun (shape a) (get a).
Proof.
  intros H. destruct a as [sh d]. unfold wf in H. simpl in H. unfold of_fun. simpl.
  f_equal. apply list_eq_nth.
  - rewrite length_tab. exact H.
  - intros k Hk. rewrite nth_tab by lia.
    rewrite <- (geti_get (mk sh d)) by (simpl; lia). reflexivity.
Qed.

(** Two well-formed arrays of one shape with the same entries are equal. *)
Lemma array_ext a b :
  wf a -> wf b -> shape a = shape b ->
  (forall idx, inb (shape a) idx -> get a idx = get b idx) -> a = b.
Proof.
  intros Ha Hb Hs H. rewrite (of_fun_eta a Ha), (of_fun_eta b Hb), <- Hs.
  apply of_fun_ext. exact H.
Qed.

Lemma tab_of_fun sh f :
  mk sh (tab (size sh) f) = of_fun sh (fun idx => f (ravel sh idx)).
Proof.
  unfold of_fun. f_equal. apply tab_ext. intros k Hk.
  rewrite ravel_unravel by exact Hk. reflexivity.
Qed.

Lemma mk_tab_of_fun sh f F :
  (forall k, k < size sh -> f k = F (unravel sh k)) -> mk sh (tab (size sh) f) = of_fun sh F.
Proof. intros H. unfold of_fun. f_equal. apply tab_ext. exact H. Qed.

Lemma get_zeros sh idx : get (zeros sh) idx = 0%Z.
Proof. unfold get, geti, zeros. simpl. apply nth_repeat_zero. Qed.

Lemma wf_zeros sh : wf (zeros sh).
Proof. unfold wf, zeros. simpl. apply List.repeat_length. Qed.

Lemma wf_map f a : wf a -> wf (map f a).
Proof. unfold wf, map. simpl. rewrite List.length_map. auto. Qed.

(** ** Broadcasting *)

Lemma bshape_rev_same s : bshape_rev s s = Some s.
Proof.
  induction s as [|a s IH]; simpl; [reflexivity|].
  rewrite IH, Nat.eqb_refl. reflexivity.
Qed.

Lemma broadcast_same sh : broadcast_shapes sh sh = Some sh.
Proof.
  unfold broadcast_shapes. rewrite bshape_rev_same. simpl.
  rewrite List.rev_involutive. reflexivity.
Qed.

Lemma broadcast_scalar sh : broadcast_shapes sh [] = Some sh.
Proof.
  assert (H : forall s, bshape_rev s [] = Some s) by (intros [|? ?]; reflexivity).
  unfold broadcast_shapes. change (List.rev []) with (@nil nat). rewrite H.
  cbn [option_map]. rewrite List.rev_involutive. reflexivity.
Qed.

Lemma bidx_same sh : forall idx, inb sh idx -> bidx sh idx = idx.
Proof.
  intros idx H. unfold bidx. rewrite (inb_length _ _ H), Nat.sub_diag.
  change (List.skipn 0 idx) with idx.
  induction H as [|i n idx sh Hi H IH]; simpl; [reflexivity|].
  rewrite IH. destruct (Nat.eqb_spec n 1); [f_equal; lia | reflexivity].
Qed.

Lemma bidx_scalar idx : bidx [] idx = [].
Proof. unfold bidx. simpl. reflexivity. Qed.

Lemma binop_of_fun f a b sh :
  broadcast_shapes (shape a) (shape b) = Some sh ->
  binop f a b =
  Ok (of_fun sh (fun idx => f (get a (bidx (shape a) idx)) (get b (bidx (shape b) idx)))).
Proof. intros H. unfold binop. rewrite H. reflexivity. Qed.

Lemma binop_same_shape f a b :
  shape b = shape a ->
  binop f a b = Ok (of_fun (shape a) (fun idx => f (get a idx) (get b idx))).
Proof.
  intros Hs. rewrite (binop_of_fun f a b (shape a)) by (rewrite Hs; apply broadcast_same).
  f_equal. apply of_fun_ext. intros idx H. rewrite Hs, !bidx_same by exact H. reflexivity.
Qed.

Lemma get_scalar x : get (scalar x) [] = x.
Proof. reflexivity. Qed.

Lemma binop_scalar f a x :
  binop f a (scalar x) = Ok (of_fun (shape a) (fun idx => f (get a idx) x)).
Proof.
  rewrite (binop_of_fun f a (scalar x) (shape a)) by apply broadcast_scalar.
  f_equal. apply of_fun_ext. intros idx H. rewrite bidx_same by exact H. reflexivity.
Qed.

(** ** Basic slicing *)

Lemma getslice_of_fun a sels :
  sel_valid (shape a) sels = true ->
  getslice a sels =
  Ok (of_fun (sel_shape (shape a) sels) (fun p => get a (sel_source sels p))).
Proof. intros H. unfold getslice. rewrite H. reflexivity. Qed.

Lemma sel_len_all n : sel_len n 0 n 1 = n.
Proof.
  unfold sel_len. rewrite Nat.min_id. destruct (Nat.ltb_spec 0 n).
  - rewrite Nat.div_1_r. lia.
  - lia.
Qed.

(** A position that the subscript selects is the source of its place in the
    selection. *)
Lemma sel_locate_source sh : forall sels idx p,
  steps_pos sels -> inb sh idx -> sel_locate sh sels idx = Some p ->
  inb (sel_shape sh sels) p /\ sel_source sels p = idx.
Proof.
  induction sh as [|n sh IH]; intros sels idx p Hst Hin Hloc.
  - apply inb_nil in Hin. subst. destruct sels; simpl in Hloc; [|discriminate].
    injection Hloc as <-. split; [constructor | reflexivity].
  - apply inb_cons in Hin. destruct Hin as (x & idx' & -> & Hx & Hin).
    destruct sels as [|[i|lo hi st] sels]; simpl in Hloc; [discriminate| |].
    + inversion Hst; subst. destruct (Nat.eqb_spec x i); [|discriminate]. subst.
      destruct (IH _ _ _ H2 Hin Hloc) as [H3 H4]. simpl. split; [exact H3 | rewrite H4; reflexivity].
    + inversion Hst as [|? ? Hpos Hst']; subst.
      destruct (Nat.leb_spec lo x); [|discriminate].
      destruct (Nat.ltb_spec x (Nat.min hi n)); [|discriminate].
      destruct (Nat.eqb_spec ((x - lo) mod st) 0) as [Hm|]; [|discriminate].
      simpl in Hloc. destruct (sel_locate sh sels idx') as [p'|] eqn:E; [|discriminate].
      injection Hloc as <-. destruct (IH _ _ _ Hst' Hin E) as [H3 H4].
      pose proof (Nat.div_mod_eq (x - lo) st) as Hd. rewrite Hm in Hd.
      simpl. split.
      * constructor; [|exact H3]. unfold sel_len.
        destruct (Nat.ltb_spec lo (Nat.min hi n)); [|lia].
        apply Nat.div_le_lower_bound; [lia|]. nia.
      * rewrite H4. f_equal. lia.
Qed.

Lemma iadd_slice_of_fun a sels rhs :
  sel_valid (shape a) sels = true -> steps_pos sels ->
  broadcast_shapes (sel_shape (shape a) sels) (shape rhs) = Some (sel_shape (shape a) sels) ->
  iadd_slice a sels rhs =
  Ok (of_fun (shape a) (fun idx =>
        match sel_locate (shape a) sels idx with
        | Some p => sadd (get a idx) (get rhs (bidx (shape rhs) p))
        | None => get a idx
        end)).
Proof.
  intros Hv Hst Hb. unfold iadd_slice. rewrite (getslice_of_fun a sels Hv).
  cbn [mbind res_bind]. unfold add.
  rewrite (binop_of_fun sadd _ rhs (sel_shape (shape a) sels)) by exact Hb.
  cbn [mbind res_bind]. rewrite !shape_of_fun.
  destruct (decide _) as [_|Hne]; [|exfalso; apply Hne; reflexivity].
  f_equal. apply mk_tab_of_fun. intros k Hk.
  pose proof (unravel_inb _ _ Hk) as Hin.
  destruct (sel_locate (shape a) sels (unravel (shape a) k)) as [p|] eqn:E.
  - destruct (sel_locate_source _ _ _ _ Hst Hin E) as [Hp Hsrc].
    rewrite geti_of_fun by exact Hp. rewrite bidx_same by exact Hp.
    rewrite get_of_fun by exact Hp. rewrite Hsrc. reflexivity.
  - apply geti_get. exact Hk.
Qed.

(** ** Transposition *)

Lemma transpose_of_fun a perm :
  length perm = length (shape a) -> List.Forall (fun p => p < length perm) perm ->
  transpose a perm =
  Ok (of_fun (List.map (fun p => List.nth p (shape a) 0) perm)
        (fun idx => get a (List.map (fun ax => List.nth (axis_pos ax perm) idx 0)
                                    (List.seq 0 (length perm))))).
Proof.
  intros H1 H2. unfold transpose.
  destruct (decide _) as [_|Hne]; [reflexivity | exfalso; apply Hne; split; assumption].
Qed.

End NdF.

(** * Further properties of the layer contract *)

Set Warnings "-clear-no-such-hyp".

Section BaseContract.

(** [freeze] changes the flag only.  On the frozen layer [update] and
    [flush_gradients], also with the override of the recurrent cells, raise
    [AssertionError] and leave every attribute as it is; [unfreeze] brings a
    trainable layer back to where it was. *)
Theorem frozen_layer_is_read_only (b : LayerBase.t) :
  let f := (LayerBase.freeze b).2 in
  f = LayerBase.set_trainable false b /\
  LayerBase.update LayerBase.flush_gradients f = (Err AssertionError, f) /\
  LayerBase.update cell_flush f = (Err AssertionError, f) /\
  LayerBase.flush_gradients f = (Err AssertionError, f) /\
  cell_flush f = (Err AssertionError, f) /\
  (LayerBase.trainable b = true -> LayerBase.unfreeze f = (Ok tt, b)).
Proof.
  cbv zeta. split_and!; try reflexivity.
  intros H. destruct b as [X tr o g p d]. simpl in H. subst tr. reflexivity.
Qed.

Lemma zeros_like_val_idem v : zeros_like_val (zeros_like_val v) = zeros_like_val v.
Proof. destruct v as [| |a|[|a l]]; reflexivity. Qed.

(** [flush_gradients] is idempotent: flushing a flushed layer changes
    nothing, for the method of [LayerBase] and for the override of the
    recurrent cells. *)
Theorem flush_gradients_idempotent (b : LayerBase.t) :
  LayerBase.flush_gradients (LayerBase.flush_gradients b).2 = LayerBase.flush_gradients b /\
  cell_flush (cell_flush b).2 = cell_flush b.
Proof.
  split.
  - unfold LayerBase.flush_gradients.
    cbv [mbind mret M_bind M_ret gets modify lift raise py_assert].
    destruct (LayerBase.trainable b) eqn:Htr; cbn; rewrite Htr; [|reflexivity].
    cbn. f_equal. unfold LayerBase.set_gradients, LayerBase.set_derived_variables. cbn.
    f_equal.
    + rewrite <- map_fmap_compose. apply map_fmap_ext. intros k v _. apply zeros_like_val_idem.
    + rewrite <- map_fmap_compose. reflexivity.
  - unfold cell_flush, assert_trainable, put_X, set_dv, upd_base.
    cbv [mbind mret M_bind M_ret gets modify lift raise py_assert get_base put_base
         base_has_base].
    destruct (LayerBase.trainable b) eqn:Htr; cbn; rewrite Htr; [|reflexivity].
    cbn. f_equal. unfold LayerBase.set_gradients, LayerBase.set_derived_variables. cbn.
    f_equal.
    + apply map_eq. intros k. rewrite !cell_flush_grads_spec.
      destruct (LayerBase.parameters b !! k); reflexivity.
    + rewrite !fmap_insert, <- map_fmap_compose. cbn.
      apply map_eq. intros k.
      assert (Hne : "current_step" <> "n_timesteps") by discriminate.
      destruct (decide (k = "current_step")) as [->|H1];
        [rewrite !lookup_insert_eq; reflexivity|].
      destruct (decide (k = "n_timesteps")) as [->|H2].
      { repeat first [rewrite lookup_insert_eq | rewrite lookup_insert_ne by congruence].
        reflexivity. }
      repeat rewrite lookup_insert_ne by congruence.
      rewrite !lookup_fmap. destruct (LayerBase.derived_variables b !! k); reflexivity.
Qed.

End BaseContract.

(** * The Boltzmann machine: construction, empty chains, reconstruction *)

Section RBMEdges.
Import Np NpF.
Import RBM (rbm_ok, rngvar, chain_stats_ok, dv, grads).

(** The constructor cannot succeed: it calls [_init_params] while [n_in] is
    still [None], and the shape [(1, None)] of the visible bias is rejected
    with [TypeError]; nothing is initialised. *)
Theorem RBM_constructor_raises n_out K actV actH iw rs o :
  (RBM.init n_out K actV actH iw rs o).1 = Err TypeError /\
  RBM.is_initialized (RBM.init n_out K actV actH iw rs o).2 = false /\
  LayerBase.gradients (RBM.base (RBM.init n_out K actV actH iw rs o).2) = ∅.
Proof. split_and!; reflexivity. Qed.

(** The statistics that [forward] stores, as a change of the derived
    variables [d]. *)
Ltac rbm_forward_prefix l V W b_out n_ex nin nout ok_draw0 HV ok_W_mat0 ok_b_out_mat0 :=
  unfold RBM.forward;
  cbv [mbind mret M_bind M_ret gets modify lift raise RBM.get_param dict_get RBM.set_dv];
  repeat match goal with H : _ = _ |- _ => rewrite H end;
  cbv [as_array];
  let VW := fresh "VW" in let HVW := fresh "HVW" in
  destruct (dot_spec V W n_ex nin nout (proj1 HV) (proj1 ok_W_mat0)) as (VW & -> & HVW & _);
  let ZH := fresh "ZH" in let EZH := fresh "EZH" in let HZH := fresh "HZH" in
  destruct (binop_row sadd VW b_out _ _ HVW ok_b_out_mat0) as (ZH & EZH & HZH & _);
  unfold add; rewrite EZH; unfold act_fn_of.

Lemma RBM_forward_steps l V Karg n_ex nin nout W b_in b_out :
  rbm_ok l nin nout W b_in b_out -> mat n_ex nin V ->
  (1 <= match Karg with None => RBM.K l | Some k => k end)%Z ->
  exists r pH pg pV pH' ng,
    RBM.forward V Karg l =
      (Ok tt, RBM.set_np_random r (RBM.set_base
         (LayerBase.set_derived_variables
            (<["negative_grad" := VArr ng]> (<["p_H_prime" := VArr pH']>
               (<["p_V_prime" := VArr pV]> (<["positive_grad" := VArr pg]>
                  (<["p_H" := VArr pH]> (<["V" := VArr V]> (dv l)))))))
            (RBM.base l)) l)) /\
    draw r = draw (RBM.np_random l) /\
    mat n_ex nout pH /\ mat nin nout pg /\
    mat n_ex nin pV /\ mat n_ex nout pH' /\ mat nin nout ng.
Proof.
  intros [ok_init0 ok_W0 ok_b_in0 ok_b_out0 ok_W_mat0 ok_b_in_mat0 ok_b_out_mat0 ok_draw0] HV HK.
  rbm_forward_prefix l V W b_out n_ex nin nout ok_draw0 HV ok_W_mat0 ok_b_out_mat0.
  pose proof (map_mat (fn (RBM.act_fn_H l)) _ _ _ HZH) as HpH.
  destruct (sample_ok l l _ _ _ ok_draw0 (rngvar_refl l) HpH) as (h & l' & -> & Hv & Hh).
  destruct (T_spec V _ _ (proj1 HV)) as (VT & -> & HVT & HVTget).
  destruct (dot_spec VT _ nin n_ex nout (proj1 HVT) (proj1 HpH)) as (pg & Epg & Hpg & Hpgget).
  rewrite Epg.
  cbn [RBM.base RBM.set_base LayerBase.derived_variables LayerBase.set_derived_variables
       LayerBase.gradients LayerBase.parameters LayerBase.X LayerBase.trainable LayerBase.optimizer].
  match goal with |- context [RBM.gibbs_loop _ _ _ _ _ ?s] => set (l0 := s) end.
  assert (Hd0 : forall k n m, mat n m (draw (RBM.np_random l0) k [n; m])).
  { destruct Hv as (r & -> & E). subst l0. simpl. rewrite E. exact ok_draw0. }
  destruct (gibbs_loop_ok l0 n_ex nin nout W b_in b_out ok_W_mat0
              (row_bias_ok _ _ _ ok_b_in_mat0) (row_bias_ok _ _ _ ok_b_out_mat0) Hd0
              (seq 0 (Z.to_nat (match Karg with None => RBM.K l | Some k => k end)))
              (RBM.mk_chain h None) l0 (rngvar_refl l0) Hh)
    as (c & l2 & -> & Hv2 & (pV & pH' & Ec & HpV & HpH')).
  { left. destruct (Z.to_nat _) eqn:E; [lia | discriminate]. }
  rewrite Ec.
  destruct (T_spec pV _ _ (proj1 HpV)) as (pVT & -> & HpVT & HpVTget).
  destruct (dot_spec pVT pH' nin n_ex nout (proj1 HpVT) (proj1 HpH')) as (ng & -> & Hng & Hngget).
  destruct Hv2 as (r2 & -> & E2). destruct Hv as (r1 & -> & E1).
  exists r2, (map (fn (RBM.act_fn_H l)) ZH), pg, pV, pH', ng.
  split; [|split_and!; try assumption].
  - subst l0. destruct l. reflexivity.
  - rewrite E2. subst l0. simpl. exact E1.
Qed.




(** [backward] on a machine whose statistics are [None] (as [_init_params]
    and [flush_gradients] leave them) raises [TypeError] at the first
    subtraction and stores no gradient. *)
Theorem RBM_backward_without_statistics l :
  (forall k, k ∈ ["V"; "p_H"; "p_V_prime"; "p_H_prime"; "positive_grad"; "negative_grad"] ->
             dv l !! k = Some VNone) ->
  RBM.backward l = (Err TypeError, l).
Proof.
  intros H. unfold RBM.backward, RBM.get_dv, dict_get.
  cbv [mbind mret M_bind M_ret gets modify lift raise].
  unfold dv in H.
  rewrite !H by set_solver. reflexivity.
Qed.

Lemma rbm_frozen_ok : rbm_ok Ex.rbm_frozen 2 1 Ex.rbm_W Ex.rbm_b_in Ex.rbm_b_out.
Proof.
  constructor; try reflexivity; try (split; reflexivity).
  intros k n m. apply zeros_mat.
Qed.




Lemma RBM_backward_without_statistics_witness :
  RBM.backward Ex.rbm = (Err TypeError, Ex.rbm).
Proof.
  apply RBM_backward_without_statistics.
  intros k Hk. set_unfold in Hk.
  destruct Hk as [->|[->|[->|[->|[->|[->|[]]]]]]]; reflexivity.
Defined.

End RBMEdges.

Set Warnings "-clear-no-such-hyp".

(** * The fully connected layer *)

Section FullyConnectedFacts.
Import Np NpF.

Lemma sum_axis0_keep_spec a n m :
  shape a = [n; m] ->
  exists c, sum_axis0_keep a = Ok c /\ mat 1 m c /\
    forall j, j < m -> get2 c 0 j = sumn n (fun i => get2 a i j).
Proof.
  intros Hs. unfold sum_axis0_keep. rewrite Hs. eexists. split; [reflexivity|].
  split; [split; [reflexivity | simpl; rewrite length_tab; lia]|].
  intros j Hj. unfold get2 at 1, geti. simpl. rewrite nth_tab by lia. reflexivity.
Qed.

Ltac fc_step :=
  cbv [mbind mret M_bind M_ret res_bind res_ret gets modify lift raise py_assert dict_get
       get_base put_base FullyConnected.has_base get_param get_dv get_X put_X put_dvs
       put_grads put_params upd_base assert_trainable as_array the_array];
  cbn [FullyConnected.base FullyConnected.is_initialized FullyConnected.act_fn
       FullyConnected.n_in FullyConnected.n_out FullyConnected.init_weights
       LayerBase.derived_variables LayerBase.set_derived_variables LayerBase.parameters
       LayerBase.set_parameters LayerBase.trainable LayerBase.X LayerBase.set_X
       LayerBase.gradients LayerBase.set_gradients LayerBase.optimizer].

(** [forward] on an initialised layer returns [fn(X W + b)], an [n_ex] by
    [n_out] matrix; it caches [X] and replaces the derived variables by [Z]
    and [Y], and touches nothing else. *)
Theorem FullyConnected_forward_value l X n_ex nin nout W b :
  fc_ok l nin nout W b -> mat n_ex nin X ->
  exists Z Y,
    FullyConnected.forward X l =
      (Ok Y, put_base (LayerBase.set_derived_variables
                         (<["Z" := VArr Z]> (<["Y" := VArr Y]> ∅))
                         (LayerBase.set_X (VArr X) (FullyConnected.base l))) l) /\
    mat n_ex nout Z /\ mat n_ex nout Y /\
    (forall i j, i < n_ex -> j < nout ->
       get2 Z i j = sadd (sumn nin (fun k => smul (get2 X i k) (get2 W k j))) (get2 b 0 j)) /\
    (forall i j, i < n_ex -> j < nout ->
       get2 Y i j = fn (FullyConnected.act_fn l) (get2 Z i j)).
Proof.
  intros [Hini HW Hb HWm Hbm] HX. unfold FullyConnected.forward. fc_step.
  rewrite Hini. fc_step. rewrite HW, Hb. fc_step.
  destruct (dot_spec X W n_ex nin nout (proj1 HX) (proj1 HWm)) as (XW & -> & HXW & HXWget).
  destruct (binop_row sadd XW b _ _ HXW Hbm) as (Z & EZ & HZ & HZget).
  unfold add. rewrite EZ. exists Z, (act_fn_of (FullyConnected.act_fn l) Z).
  split; [rewrite Hini; reflexivity|]. split; [exact HZ|].
  split; [apply map_mat; exact HZ|]. split.
  - intros i j Hi Hj. rewrite HZget, HXWget by assumption. reflexivity.
  - intros i j Hi Hj. unfold act_fn_of. apply (get2_map _ _ n_ex nout); assumption.
Qed.

(** The first [forward] fixes the input width: a layer that is not
    initialised takes [n_in] from the batch, draws [W] of shape
    [(n_in, n_out)], sets [b] and both gradients to zeros, and then computes
    its output. *)
Theorem FullyConnected_first_forward l X n_ex nin :
  FullyConnected.is_initialized l = false ->
  init_ok (FullyConnected.init_weights l) -> mat n_ex nin X ->
  let nout := FullyConnected.n_out l in
  let W := FullyConnected.init_weights l [nin; nout] in
  exists Y l1,
    FullyConnected.forward X l = (Ok Y, l1) /\
    mat n_ex nout Y /\
    fc_ok l1 nin nout W (zeros [1; nout]) /\
    FullyConnected.n_in l1 = Some nin /\
    LayerBase.gradients (FullyConnected.base l1) =
      <["W" := VArr (zeros [nin; nout])]> (<["b" := VArr (zeros [1; nout])]> ∅).
Proof.
  intros Hini Hiw HX nout W.
  pose proof (Hiw nin nout) as HWm. fold W in HWm.
  pose proof (zeros_mat 1 nout) as Hbm.
  unfold FullyConnected.forward. fc_step. rewrite Hini.
  unfold shape_at. rewrite (proj1 HX). cbn [nth_error].
  unfold FullyConnected._init_params. fc_step.
  cbn [FullyConnected.set_n_in FullyConnected.set_is_initialized FullyConnected.n_in
       FullyConnected.n_out FullyConnected.init_weights FullyConnected.base
       FullyConnected.act_fn].
  fc_step. rewrite lookup_insert_eq.
  rewrite (lookup_insert_ne _ "W" "b") by discriminate. rewrite lookup_insert_eq.
  fc_step. fold nout. fold W.
  destruct (dot_spec X W n_ex nin nout (proj1 HX) (proj1 HWm)) as (XW & -> & HXW & _).
  destruct (binop_row sadd XW (zeros [1; nout]) _ _ HXW Hbm) as (Z & EZ & HZ & _).
  unfold add. rewrite EZ.
  eexists _, _. split; [reflexivity|].
  split; [apply map_mat; exact HZ|].
  split; [constructor; try reflexivity; assumption|].
  split; [reflexivity|].
  cbn. unfold zeros_like. rewrite (proj1 HWm). reflexivity.
Qed.

(** A batch whose width differs from the [n_in] of an initialised layer is
    rejected with [ValueError] by the matrix product, after the rejected
    batch has replaced the cached input. *)
Theorem FullyConnected_forward_width_mismatch l X n_ex m nin nout W b :
  fc_ok l nin nout W b -> shape X = [n_ex; m] -> m <> nin ->
  FullyConnected.forward X l =
    (Err ValueError, put_base (LayerBase.set_X (VArr X) (FullyConnected.base l)) l).
Proof.
  intros [Hini HW Hb HWm Hbm] HX Hne. unfold FullyConnected.forward. fc_step.
  rewrite Hini. fc_step. rewrite HW, Hb. fc_step.
  unfold dot. rewrite HX, (proj1 HWm).
  destruct (Nat.eqb_spec m nin); [contradiction|].
  cbv [put_base FullyConnected.has_base]. rewrite Hini. reflexivity.
Qed.

(** [backward] after [forward]: with [dZ = dLdY * grad(Z)] it returns
    [dX = dZ W^T], of the shape of [X], and replaces the gradients by
    [W: X^T dZ], of the shape of [W], [b:] the column sums of [dZ], of the
    shape of [b], and the two extra entries [Z: dZ] and [Y: dLdY]. *)
Theorem FullyConnected_backward_gradients l X dLdY n_ex nin nout W b :
  fc_ok l nin nout W b -> mat n_ex nin X -> mat n_ex nout dLdY ->
  LayerBase.trainable (FullyConnected.base l) = true ->
  exists Z Y l1 dX dW dB dZ,
    FullyConnected.forward X l = (Ok Y, l1) /\
    LayerBase.derived_variables (FullyConnected.base l1) !! "Z" = Some (VArr Z) /\
    FullyConnected.backward dLdY l1 =
      (Ok dX, put_base (LayerBase.set_gradients
                          (<["W" := VArr dW]> (<["b" := VArr dB]>
                             (<["Z" := VArr dZ]> (<["Y" := VArr dLdY]> ∅))))
                          (FullyConnected.base l1)) l1) /\
    mat n_ex nout Z /\ mat n_ex nout dZ /\
    mat n_ex nin dX /\ mat nin nout dW /\ mat 1 nout dB /\
    (forall i j, i < n_ex -> j < nout ->
       get2 dZ i j = smul (get2 dLdY i j) (grad (FullyConnected.act_fn l) (get2 Z i j))) /\
    (forall k j, k < nin -> j < nout ->
       get2 dW k j = sumn n_ex (fun i => smul (get2 X i k) (get2 dZ i j))) /\
    (forall j, j < nout -> get2 dB 0 j = sumn n_ex (fun i => get2 dZ i j)) /\
    (forall i k, i < n_ex -> k < nin ->
       get2 dX i k = sumn nout (fun j => smul (get2 dZ i j) (get2 W k j))).
Proof.
  intros Hok HX HdY Htr.
  destruct (FullyConnected_forward_value l X n_ex nin nout W b Hok HX)
    as (Z & Y & Ef & HZ & HY & _ & _).
  destruct Hok as [Hini HW Hb HWm Hbm].
  exists Z, Y. eexists. rewrite Ef.
  pose proof (map_mat (grad (FullyConnected.act_fn l)) _ _ _ HZ) as HgZ.
  destruct (binop_same smul dLdY _ n_ex nout HdY HgZ) as (dZ & EdZ & HdZ & HdZget).
  destruct (T_spec X _ _ (proj1 HX)) as (XT & EXT & HXT & HXTget).
  destruct (dot_spec XT dZ nin n_ex nout (proj1 HXT) (proj1 HdZ)) as (dW & EdW & HdW & HdWget).
  destruct (sum_axis0_keep_spec dZ n_ex nout (proj1 HdZ)) as (dB & EdB & HdB & HdBget).
  destruct (T_spec W _ _ (proj1 HWm)) as (WT & EWT & HWT & HWTget).
  destruct (dot_spec dZ WT n_ex nout nin (proj1 HdZ) (proj1 HWT)) as (dX & EdX & HdX & HdXget).
  exists dX, dW, dB, dZ. split; [reflexivity|].
  split; [cbn; apply lookup_insert_eq|].
  split.
  - unfold FullyConnected.backward. fc_step. rewrite Htr. fc_step.
    rewrite lookup_insert_eq, HW. fc_step.
    unfold act_grad_of, mul. rewrite EdZ. fc_step.
    rewrite EXT. fc_step. rewrite EdW, EdB. fc_step. rewrite EWT. fc_step. rewrite EdX.
    reflexivity.
  - split_and!; try assumption.
    + intros i j Hi Hj. rewrite HdZget by assumption.
      rewrite (get2_map _ _ n_ex nout) by assumption. reflexivity.
    + intros k j Hk Hj. rewrite HdWget by assumption. apply sumn_ext. intros i Hi.
      rewrite HXTget by assumption. reflexivity.
    + intros i k Hi Hk. rewrite HdXget by assumption. apply sumn_ext. intros j Hj.
      rewrite HWTget by assumption. reflexivity.
Qed.

(** [backward] is rejected with [AssertionError], and nothing is changed,
    when the layer is frozen or has never seen an input. *)
Theorem FullyConnected_backward_rejected l dLdY :
  LayerBase.trainable (FullyConnected.base l) = false \/
  LayerBase.X (FullyConnected.base l) = VNone ->
  FullyConnected.backward dLdY l = (Err AssertionError, l).
Proof.
  intros H. unfold FullyConnected.backward. fc_step.
  destruct (LayerBase.trainable (FullyConnected.base l)) eqn:Htr; [|reflexivity].
  destruct H as [H|H]; [discriminate|]. fc_step. rewrite H. reflexivity.
Qed.

Lemma ones_init_ok : init_ok Ex.ones.
Proof.
  intros n m. split; [reflexivity|]. unfold Ex.ones. simpl.
  rewrite List.repeat_length. lia.
Qed.

Lemma fc_ready_ok : fc_ok Ex.fc_ready 2 1 (Ex.ones [2; 1]) (zeros [1; 1]).
Proof. constructor; try reflexivity; split; reflexivity. Qed.

Lemma fc_X_mat : mat 1 2 Ex.fc_X.
Proof. split; reflexivity. Qed.

Lemma FullyConnected_forward_value_witness :
  exists Y l1, FullyConnected.forward Ex.fc_X Ex.fc_ready = (Ok Y, l1) /\ mat 1 1 Y.
Proof.
  destruct (FullyConnected_forward_value Ex.fc_ready Ex.fc_X 1 2 1 _ _ fc_ready_ok fc_X_mat)
    as (Z & Y & E & _ & HY & _).
  eexists _, _. split; [exact E | exact HY].
Defined.

Lemma FullyConnected_first_forward_witness :
  exists Y l1, FullyConnected.forward Ex.fc_X Ex.fc = (Ok Y, l1) /\
               FullyConnected.n_in l1 = Some 2.
Proof.
  destruct (FullyConnected_first_forward Ex.fc Ex.fc_X 1 2 eq_refl ones_init_ok fc_X_mat)
    as (Y & l1 & E & _ & _ & Hn & _).
  exists Y, l1. split; [exact E | exact Hn].
Defined.

Lemma FullyConnected_forward_width_mismatch_witness :
  (FullyConnected.forward (Ex.matrix [[1; 2; 3]]%Z) Ex.fc_ready).1 = Err ValueError.
Proof.
  rewrite (FullyConnected_forward_width_mismatch Ex.fc_ready (Ex.matrix [[1; 2; 3]]%Z)
             1 3 2 1 _ _ fc_ready_ok eq_refl); [reflexivity | lia].
Defined.

Lemma FullyConnected_backward_gradients_witness :
  exists Y l1 dX l2,
    FullyConnected.forward Ex.fc_X Ex.fc_ready = (Ok Y, l1) /\
    FullyConnected.backward Ex.fc_dLdY l1 = (Ok dX, l2) /\ mat 1 2 dX.
Proof.
  destruct (FullyConnected_backward_gradients Ex.fc_ready Ex.fc_X Ex.fc_dLdY 1 2 1 _ _
              fc_ready_ok fc_X_mat)
    as (Z & Y & l1 & dX & dW & dB & dZ & Ef & _ & Eb & _ & _ & HdX & _).
  - split; reflexivity.
  - reflexivity.
  - eexists _, _, _, _. split; [exact Ef|]. split; [exact Eb | exact HdX].
Defined.

Lemma FullyConnected_backward_rejected_witness :
  FullyConnected.backward Ex.fc_dLdY Ex.fc = (Err AssertionError, Ex.fc).
Proof. apply FullyConnected_backward_rejected. right. reflexivity. Defined.

End FullyConnectedFacts.

Set Warnings "-clear-no-such-hyp".

(** * The recurrent cell: one timestep *)

Section RNNCellFacts.
Import Np NpF.

Lemma py_index_last {A} (l : list A) (d : A) :
  l <> [] -> py_index l (-1) = Ok (List.last l d).
Proof.
  intros Hne. unfold py_index.
  destruct (Z.ltb_spec (-1) 0); [|lia].
  assert (Hlen : 0 < length l) by (destruct l; [congruence | simpl; lia]).
  destruct (Z.leb_spec 0 (-1 + Z.of_nat (length l))); [|lia].
  destruct (Z.ltb_spec (-1 + Z.of_nat (length l)) (Z.of_nat (length l))); [|lia].
  simpl. replace (Z.to_nat (-1 + Z.of_nat (length l))) with (length l - 1) by lia.
  destruct (exists_last Hne) as (l' & a & ->).
  rewrite List.last_last, List.length_app. simpl.
  replace (length l' + 1 - 1) with (length l') by lia.
  rewrite List.nth_error_app2 by lia. rewrite Nat.sub_diag. reflexivity.
Qed.

Ltac rnn_step :=
  cbv [mbind mret M_bind M_ret res_bind res_ret gets modify lift raise py_assert dict_get
       get_base put_base RNNCell.has_base get_param get_dv get_X put_X put_dvs set_dv
       put_grads put_params upd_base assert_trainable as_array the_array the_list the_int
       incr_dv append_dv];
  cbn [RNNCell.base RNNCell.is_initialized RNNCell.act_fn RNNCell.n_in RNNCell.n_out
       RNNCell.init_weights
       LayerBase.derived_variables LayerBase.set_derived_variables LayerBase.parameters
       LayerBase.set_parameters LayerBase.trainable LayerBase.X LayerBase.set_X
       LayerBase.gradients LayerBase.set_gradients LayerBase.optimizer].

Ltac dv_lookup :=
  repeat first [ rewrite lookup_insert_eq
               | rewrite lookup_insert_ne by discriminate ].

(** One timestep of an initialised cell.  [forward] advances both counters
    by one, appends the batch to the cached inputs, the pre-activation
    [Zt = A_prev Waa + ba^T + Xt Wax + bx^T] to [Z] and the new hidden state
    [fn(Zt)] to [A]; on the first timestep the zero initial state is put
    into [A] first.  The parameters and gradients are not touched. *)
Theorem RNNCell_forward_step l Xt n_ex nin nout Waa Wax ba bx T c Xs Zs As :
  rnn_ok l nin nout Waa Wax ba bx -> rnn_caches l n_ex nout T c Xs Zs As ->
  mat n_ex nin Xt ->
  let As0 := with_initial_state n_ex nout As in
  let A_prev := List.last As0 (zeros []) in
  exists Zt At l1,
    RNNCell.forward Xt l = (Ok At, l1) /\
    mat n_ex nout Zt /\ At = act_fn_of (RNNCell.act_fn l) Zt /\
    (forall i j, i < n_ex -> j < nout ->
       get2 Zt i j =
       sadd (sadd (sadd (sumn nout (fun k => smul (get2 A_prev i k) (get2 Waa k j)))
                        (get2 ba j 0))
                  (sumn nin (fun k => smul (get2 Xt i k) (get2 Wax k j))))
            (get2 bx j 0)) /\
    rnn_ok l1 nin nout Waa Wax ba bx /\
    rnn_caches l1 n_ex nout (T + 1) (c + 1) (Xs ++ [Xt]) (Zs ++ [Zt]) (As0 ++ [At]) /\
    LayerBase.gradients (RNNCell.base l1) = LayerBase.gradients (RNNCell.base l).
Proof.
  intros [Hini Hno HWaa HWax Hba Hbx HWaam HWaxm Hbam Hbxm] [HT Hc HAs HZs HXs Hlast] HXt
         As0 A_prev.
  assert (HA0 : As0 <> []) by (subst As0; destruct As; simpl; congruence).
  assert (HAp : mat n_ex nout A_prev).
  { subst A_prev As0. destruct As as [|a As']; [apply zeros_mat|].
    apply Hlast. congruence. }
  destruct (dot_spec A_prev Waa n_ex nout nout (proj1 HAp) (proj1 HWaam))
    as (t1 & Et1 & Ht1 & Ht1get).
  destruct (T_spec ba _ _ (proj1 Hbam)) as (baT & EbaT & HbaT & HbaTget).
  destruct (binop_row sadd t1 baT _ _ Ht1 HbaT) as (t2 & Et2 & Ht2 & Ht2get).
  destruct (dot_spec Xt Wax n_ex nin nout (proj1 HXt) (proj1 HWaxm))
    as (t3 & Et3 & Ht3 & Ht3get).
  destruct (binop_same sadd t2 t3 n_ex nout Ht2 Ht3) as (t4 & Et4 & Ht4 & Ht4get).
  destruct (T_spec bx _ _ (proj1 Hbxm)) as (bxT & EbxT & HbxT & HbxTget).
  destruct (binop_row sadd t4 bxT _ _ Ht4 HbxT) as (Zt & EZt & HZt & HZtget).
  exists Zt, (act_fn_of (RNNCell.act_fn l) Zt).
  assert (Hrun : exists l1,
    RNNCell.forward Xt l = (Ok (act_fn_of (RNNCell.act_fn l) Zt), l1) /\
    RNNCell.is_initialized l1 = true /\ RNNCell.n_out l1 = nout /\
    LayerBase.parameters (RNNCell.base l1) = LayerBase.parameters (RNNCell.base l) /\
    LayerBase.gradients (RNNCell.base l1) = LayerBase.gradients (RNNCell.base l) /\
    LayerBase.X (RNNCell.base l1) = VList (Xs ++ [Xt]) /\
    LayerBase.derived_variables (RNNCell.base l1) !! "n_timesteps" = Some (VInt (T + 1)) /\
    LayerBase.derived_variables (RNNCell.base l1) !! "current_step" = Some (VInt (c + 1)) /\
    LayerBase.derived_variables (RNNCell.base l1) !! "A" =
      Some (VList (As0 ++ [act_fn_of (RNNCell.act_fn l) Zt])) /\
    LayerBase.derived_variables (RNNCell.base l1) !! "Z" = Some (VList (Zs ++ [Zt]))).
  { unfold RNNCell.forward. rnn_step. rewrite Hini.
    repeat first [ progress rnn_step | progress dv_lookup
                 | rewrite HT | rewrite Hc | rewrite Hba | rewrite Hbx | rewrite HWax
                 | rewrite HWaa | rewrite HAs | rewrite HZs | rewrite HXs ].
    destruct As as [|a As'].
    - cbn [length]. destruct (decide (0 = 0)) as [_|Hn]; [|congruence].
      unfold shape2. rewrite (proj1 HXt).
      repeat first [ progress rnn_step | progress dv_lookup
                 | rewrite HT | rewrite Hc | rewrite Hba | rewrite Hbx | rewrite HWax
                 | rewrite HWaa | rewrite HAs | rewrite HZs | rewrite HXs | rewrite Hno ].
      change ([] ++ [zeros [n_ex; nout]]) with As0.
      rewrite (py_index_last As0 (zeros []) HA0). fold A_prev.
      unfold add. rewrite Et1, EbaT, Et2, Et3, Et4, EbxT, EZt.
      repeat first [ progress rnn_step | progress dv_lookup ].
      eexists. split; [reflexivity|]. cbn.
      split_and!; try reflexivity; try assumption; by simplify_map_eq.
    - cbn [length]. destruct (decide (S (length As') = 0)) as [Hn|_]; [discriminate|].
      repeat first [ progress rnn_step | progress dv_lookup
                 | rewrite HT | rewrite Hc | rewrite Hba | rewrite Hbx | rewrite HWax
                 | rewrite HWaa | rewrite HAs | rewrite HZs | rewrite HXs | rewrite Hno ].
      change (a :: As') with As0.
      rewrite (py_index_last As0 (zeros []) HA0). fold A_prev.
      unfold add. rewrite Et1, EbaT, Et2, Et3, Et4, EbxT, EZt.
      repeat first [ progress rnn_step | progress dv_lookup
                   | rewrite HAs | rewrite HZs | rewrite HXs ].
      eexists. split; [reflexivity|]. cbn.
      split_and!; try reflexivity; try assumption; by simplify_map_eq. }
  destruct Hrun as (l1 & Ef & Hini1 & Hno1 & Hps & Hgs & HX1 & HT1 & Hc1 & HA1 & HZ1).
  exists l1. split; [exact Ef|]. split; [exact HZt|]. split; [reflexivity|].
  split.
  { intros i j Hi Hj. rewrite HZtget, Ht4get, Ht2get, Ht1get, Ht3get by assumption.
    rewrite HbaTget, HbxTget by (assumption || lia). reflexivity. }
  split.
  { constructor; try assumption; rewrite Hps; assumption. }
  split; [|exact Hgs].
  constructor; try assumption.
  intros _. rewrite List.last_last. apply map_mat. exact HZt.
Qed.

(** A batch of the wrong width is rejected with [ValueError] by the product
    with [Wax], but only after both counters were advanced (and, on the first
    timestep, the initial state was stored): the counters are then one ahead
    of the cached inputs and pre-activations, which did not grow. *)
Theorem RNNCell_forward_rejected_batch l Xt n_ex m nin nout Waa Wax ba bx T c Xs Zs As :
  rnn_ok l nin nout Waa Wax ba bx -> rnn_caches l n_ex nout T c Xs Zs As ->
  shape Xt = [n_ex; m] -> m <> nin ->
  exists l1,
    RNNCell.forward Xt l = (Err ValueError, l1) /\
    rnn_caches l1 n_ex nout (T + 1) (c + 1) Xs Zs (with_initial_state n_ex nout As).
Proof.
  intros [Hini Hno HWaa HWax Hba Hbx HWaam HWaxm Hbam Hbxm] [HT Hc HAs HZs HXs Hlast] HXt Hne.
  set (As0 := with_initial_state n_ex nout As).
  set (A_prev := List.last As0 (zeros [])).
  assert (HA0 : As0 <> []) by (subst As0; destruct As; simpl; congruence).
  assert (HAp : mat n_ex nout A_prev).
  { subst A_prev As0. destruct As as [|a As']; [apply zeros_mat|].
    apply Hlast. congruence. }
  destruct (dot_spec A_prev Waa n_ex nout nout (proj1 HAp) (proj1 HWaam))
    as (t1 & Et1 & Ht1 & Ht1get).
  destruct (T_spec ba _ _ (proj1 Hbam)) as (baT & EbaT & HbaT & HbaTget).
  destruct (binop_row sadd t1 baT _ _ Ht1 HbaT) as (t2 & Et2 & Ht2 & Ht2get).
  assert (Et3 : dot Xt Wax = Err ValueError).
  { unfold dot. rewrite HXt, (proj1 HWaxm). destruct (Nat.eqb_spec m nin); congruence. }
  unfold RNNCell.forward. rnn_step. rewrite Hini.
  repeat first [ progress rnn_step | progress dv_lookup
               | rewrite HT | rewrite Hc | rewrite Hba | rewrite Hbx | rewrite HWax
               | rewrite HWaa | rewrite HAs | rewrite HZs | rewrite HXs ].
  destruct As as [|a As'].
  - cbn [length]. destruct (decide (0 = 0)) as [_|Hn]; [|congruence].
    unfold shape2. rewrite HXt.
    repeat first [ progress rnn_step | progress dv_lookup
               | rewrite HT | rewrite Hc | rewrite Hba | rewrite Hbx | rewrite HWax
               | rewrite HWaa | rewrite HAs | rewrite HZs | rewrite HXs | rewrite Hno ].
    change ([] ++ [zeros [n_ex; nout]]) with As0.
    rewrite (py_index_last As0 (zeros []) HA0). fold A_prev.
    unfold add. rewrite Et1, EbaT, Et2, Et3.
    eexists. split; [reflexivity|].
    constructor; cbn; try (by simplify_map_eq); try assumption;
      try (intros _; apply zeros_mat).
  - cbn [length]. destruct (decide (S (length As') = 0)) as [Hn|_]; [discriminate|].
    repeat first [ progress rnn_step | progress dv_lookup
               | rewrite HT | rewrite Hc | rewrite Hba | rewrite Hbx | rewrite HWax
               | rewrite HWaa | rewrite HAs | rewrite HZs | rewrite HXs | rewrite Hno ].
    change (a :: As') with As0.
    rewrite (py_index_last As0 (zeros []) HA0). fold A_prev.
    unfold add. rewrite Et1, EbaT, Et2, Et3.
    eexists. split; [reflexivity|].
    constructor; cbn; try (by simplify_map_eq); try assumption.
Qed.

Lemma rnn_ready_ok :
  rnn_ok Ex.rnn_ready 1 2 (Ex.ones [2; 2]) (Ex.ones [1; 2]) (zeros [2; 1]) (zeros [2; 1]).
Proof. constructor; try reflexivity; split; reflexivity. Qed.

Lemma rnn_ready_caches :
  rnn_caches Ex.rnn_ready 1 2 1 1 [Ex.rnn_X] (Ex.rnn_cache "Z") (Ex.rnn_cache "A").
Proof.
  constructor; try (vm_compute; reflexivity).
  intros _. split; vm_compute; reflexivity.
Qed.

Lemma RNNCell_forward_step_witness :
  exists At l1,
    RNNCell.forward Ex.rnn_X Ex.rnn_ready = (Ok At, l1) /\
    LayerBase.derived_variables (RNNCell.base l1) !! "n_timesteps" = Some (VInt 2).
Proof.
  destruct (RNNCell_forward_step Ex.rnn_ready Ex.rnn_X 1 1 2 _ _ _ _ 1 1 _ _ _
              rnn_ready_ok rnn_ready_caches)
    as (Zt & At & l1 & E & _ & _ & _ & _ & [HT _ _ _ _ _] & _).
  - split; reflexivity.
  - exists At, l1. split; [exact E | exact HT].
Defined.

Lemma RNNCell_forward_rejected_batch_witness :
  exists l1,
    RNNCell.forward (Ex.matrix [[1; 2]]%Z) Ex.rnn_ready = (Err ValueError, l1) /\
    LayerBase.derived_variables (RNNCell.base l1) !! "n_timesteps" = Some (VInt 2) /\
    LayerBase.X (RNNCell.base l1) = VList [Ex.rnn_X].
Proof.
  destruct (RNNCell_forward_rejected_batch Ex.rnn_ready (Ex.matrix [[1; 2]]%Z) 1 2 1 2
              _ _ _ _ 1 1 _ _ _ rnn_ready_ok rnn_ready_caches eq_refl)
    as (l1 & E & [HT _ _ _ HX _]).
  - lia.
  - exists l1. split; [exact E|]. split; [exact HT | exact HX].
Defined.

End RNNCellFacts.

Set Warnings "-clear-no-such-hyp".

(** * Flatten *)

Section FlattenFacts.
Import Np NdF.

Lemma size_app a b : size (a ++ b) = size a * size b.
Proof.
  induction a as [|n a IH].
  - change (size []) with 1. simpl. lia.
  - rewrite <- List.app_comm_cons, !size_cons, IH. apply Nat.mul_assoc.
Qed.

Lemma size_one n : size [n] = n.
Proof. unfold size. simpl. lia. Qed.

(** The state in which [forward] leaves the layer. *)
Lemma Flatten_forward_state X l r l1 :
  Flatten.forward X l = (r, l1) ->
  l1 = Flatten.mk (Flatten.base l) (Flatten.keep_dim l) (Some (shape X)).
Proof.
  unfold Flatten.forward.
  cbv [mbind mret M_bind M_ret gets modify lift raise]. cbn.
  destruct (Flatten.keep_dim l); cbn; intros H; injection H as _ <-; reflexivity.
Qed.

(** The shape that [forward] produces.  With [keep_dim = -1] the result has
    one row; with ['first'] the first axis is kept and the others are merged,
    with any other value the last axis is kept.  The data are those of the
    input, in the same order, and the shape of the input is remembered. *)
Theorem Flatten_forward_shape l X :
  wf X ->
  let l1 := Flatten.mk (Flatten.base l) (Flatten.keep_dim l) (Some (shape X)) in
  match Flatten.keep_dim l with
  | Flatten.AllDims =>
      Flatten.forward X l = (Ok (mk [1; size (shape X)] (data X)), l1)
  | Flatten.First =>
      forall n sh, shape X = n :: sh -> 0 < n ->
        Flatten.forward X l = (Ok (mk [n; size sh] (data X)), l1)
  | Flatten.Last =>
      forall n sh, shape X = sh ++ [n] -> 0 < n ->
        Flatten.forward X l = (Ok (mk [size sh; n] (data X)), l1)
  end.
Proof.
  intros Hwf l1. unfold wf in Hwf. unfold Flatten.forward.
  cbv [mbind mret M_bind M_ret gets modify lift raise]. cbn.
  destruct (Flatten.keep_dim l); cbn.
  - intros n sh Hs Hn. unfold shape_at. rewrite Hs. cbn.
    unfold reshape_rows. rewrite Hwf, Hs, size_cons.
    destruct (Nat.eqb_spec n 0); [lia|].
    rewrite Nat.mul_comm, Nat.Div0.mod_mul, Nat.div_mul by lia.
    subst l1. rewrite Hs. reflexivity.
  - intros n sh Hs Hn. unfold shape_at. rewrite Hs.
    rewrite List.length_app. cbn [length].
    replace (length sh + 1 - 1) with (length sh) by lia.
    rewrite List.nth_error_app2 by lia. rewrite Nat.sub_diag. cbn.
    destruct (Nat.eqb_spec n 0); [lia|].
    rewrite Hwf, Hs, size_app, size_one.
    rewrite Nat.Div0.mod_mul, Nat.div_mul by lia.
    subst l1. rewrite Hs. reflexivity.
  - rewrite Hwf. reflexivity.
Qed.

(** Round trip: whatever [keep_dim] is, a successful [forward] returns a
    two-dimensional array with the data of the input.  When the input has at
    least one axis, [backward] gives any gradient of that shape the shape of
    the input back, and in particular [backward(forward(X))] is [X].  When
    the input is zero-dimensional (which [forward] accepts with
    [keep_dim = -1]), the remembered shape is the empty tuple and [backward]
    raises [TypeError] on every gradient. *)
Theorem Flatten_round_trip l X Y l1 :
  wf X -> Flatten.forward X l = (Ok Y, l1) ->
  wf Y /\ data Y = data X /\ length (shape Y) = 2 /\
  (shape X <> [] ->
     Flatten.backward Y l1 = (Ok X, l1) /\
     (forall d, wf d -> shape d = shape Y ->
        Flatten.backward d l1 = (Ok (mk (shape X) (data d)), l1))) /\
  (shape X = [] -> forall d, Flatten.backward d l1 = (Err TypeError, l1)).
Proof.
  intros Hwf Hf. pose proof (Flatten_forward_state _ _ _ _ Hf) as Hl1.
  assert (HY : wf Y /\ data Y = data X /\ length (shape Y) = 2).
  { revert Hf. unfold Flatten.forward.
    cbv [mbind mret M_bind M_ret gets modify lift raise]. cbn.
    destruct (Flatten.keep_dim l); cbn.
    - destruct (shape_at X 0) as [n|]; cbn; [|discriminate].
      unfold reshape_rows. destruct (Nat.eqb_spec n 0); [discriminate|].
      destruct (Nat.eqb_spec (length (data X) mod n) 0) as [Hm|]; [|discriminate].
      intros H. injection H as <- _. unfold wf. cbn [shape data]. split; [|split; reflexivity].
      rewrite size_cons, size_one. pose proof (Nat.div_mod_eq (length (data X)) n). lia.
    - destruct (shape_at X _) as [n|]; cbn; [|discriminate].
      destruct (Nat.eqb_spec n 0); [discriminate|].
      destruct (Nat.eqb_spec (length (data X) mod n) 0) as [Hm|]; [|discriminate].
      intros H. injection H as <- _. unfold wf. cbn [shape data]. split; [|split; reflexivity].
      rewrite size_cons, size_one. pose proof (Nat.div_mod_eq (length (data X)) n). lia.
    - intros H. injection H as <- _. unfold wf. cbn [shape data]. split; [|split; reflexivity].
      rewrite size_cons, size_one. lia. }
  destruct HY as (HwY & Hd & Hlen).
  assert (Hback : shape X <> [] -> forall d, wf d -> shape d = shape Y ->
     Flatten.backward d l1 = (Ok (mk (shape X) (data d)), l1)).
  { intros Hne d Hwd Hsd. unfold Flatten.backward.
    cbv [mbind mret M_bind M_ret gets modify lift raise]. rewrite Hl1.
    cbn [Flatten.in_dims].
    destruct (shape X) as [|n sh] eqn:Hs; [congruence|].
    unfold reshape. unfold wf in *.
    replace (length (data d)) with (size (n :: sh))
      by (rewrite Hwd, Hsd, <- HwY, Hd, <- Hs; auto).
    rewrite Nat.eqb_refl. reflexivity. }
  split_and!; try assumption.
  - intros Hne. split; [|exact (Hback Hne)].
    rewrite (Hback Hne Y HwY eq_refl), Hd. destruct X; reflexivity.
  - intros Hs d. unfold Flatten.backward.
    cbv [mbind mret M_bind M_ret gets modify lift raise]. rewrite Hl1.
    cbn [Flatten.in_dims]. rewrite Hs. reflexivity.
Qed.

Lemma Flatten_forward_shape_witness :
  (Flatten.forward (zeros [2; 3; 4]) (Flatten.init Flatten.First Ex.sgd)).1 =
  Ok (mk [2; 12] (data (zeros [2; 3; 4]))).
Proof.
  pose proof (Flatten_forward_shape (Flatten.init Flatten.First Ex.sgd) (zeros [2; 3; 4])
                (wf_zeros _) 2 [3; 4] eq_refl) as H.
  rewrite H by lia. reflexivity.
Defined.

Lemma Flatten_round_trip_witness :
  exists Y l1,
    Flatten.forward (zeros [2; 3; 4]) (Flatten.init Flatten.Last Ex.sgd) = (Ok Y, l1) /\
    Flatten.backward Y l1 = (Ok (zeros [2; 3; 4]), l1).
Proof.
  destruct (Flatten.forward (zeros [2; 3; 4]) (Flatten.init Flatten.Last Ex.sgd))
    as [[Y|e] l1] eqn:E.
  - exists Y, l1. split; [reflexivity|].
    destruct (Flatten_round_trip _ _ _ _ (wf_zeros [2; 3; 4]) E) as (_ & _ & _ & H & _).
    apply H. discriminate.
  - vm_compute in E. discriminate.
Defined.

End FlattenFacts.

(** * Add and Multiply *)

Section CombinatorFacts.
Import Np NdF.

Lemma get_map f a idx : wf a -> inb (shape a) idx -> get (map f a) idx = f (get a idx).
Proof.
  intros Hwf Hin. unfold get, geti, map. cbn [shape data].
  pose proof (ravel_lt _ _ Hin) as Hlt. unfold wf in Hwf.
  rewrite (List.nth_indep _ 0%Z (f 0%Z)) by (rewrite List.length_map; lia).
  apply List.map_nth.
Qed.

Lemma py_index_head {A} (x : A) (xs : list A) : py_index (x :: xs) 0 = Ok x.
Proof.
  unfold py_index. cbn [length Z.ltb Z.compare Z.leb andb].
  destruct (Z.ltb_spec 0 (Z.of_nat (S (length xs)))); [reflexivity | lia].
Qed.

Lemma inplace_same op acc x :
  shape x = shape acc ->
  Combinator.inplace (binop op) acc x =
    Ok (of_fun (shape acc) (fun idx => op (get acc idx) (get x idx))).
Proof.
  intros Hs. unfold Combinator.inplace. rewrite (binop_same_shape op acc x Hs).
  cbn [mbind res_bind shape of_fun].
  destruct (decide _) as [_|Hn]; [reflexivity | congruence].
Qed.

Lemma accumulate_inputs op sh xs : forall acc,
  shape acc = sh -> wf acc -> same_shape sh xs ->
  exists out, foldM (fun acc x => Combinator.inplace (binop op) acc x) xs acc = Ok out /\
    shape out = sh /\ wf out /\
    forall idx, inb sh idx -> get out idx = fold_entries op acc xs idx.
Proof.
  induction xs as [|x xs IH]; intros acc Hs Hwf Hxs.
  - exists acc. split_and!; auto.
  - inversion Hxs as [|? ? [Hsx Hwx] Hxs']; subst.
    cbn [foldM]. rewrite inplace_same by congruence. cbn [mbind res_bind].
    destruct (IH (of_fun (shape acc) (fun idx => op (get acc idx) (get x idx))))
      as (out & E & Hso & Hwo & Hget); [reflexivity | apply wf_of_fun | exact Hxs' |].
    exists out. split_and!; try assumption.
    intros idx Hin. rewrite (Hget idx Hin). unfold fold_entries. cbn [List.fold_left].
    rewrite get_of_fun by exact Hin. reflexivity.
Qed.

Ltac comb_step :=
  cbv [mbind mret M_bind M_ret res_bind res_ret gets modify lift raise py_assert dict_get
       get_base put_base Combinator.has_base get_param get_dv get_X put_X put_dvs set_dv
       upd_base as_array the_array the_list];
  cbn [Combinator.base Combinator.which Combinator.act_fn
       LayerBase.derived_variables LayerBase.set_derived_variables LayerBase.parameters
       LayerBase.trainable LayerBase.X LayerBase.set_X
       LayerBase.gradients LayerBase.optimizer].

(** [forward] of Add and Multiply on inputs of one shape: the inputs are
    combined entry by entry, from the left, into the first one; the result
    is cached under [sum] or [product], the list of inputs is cached too,
    and the activation of the result is returned. *)
Theorem Combinator_forward_accumulates l x0 xs sh :
  same_shape sh (x0 :: xs) ->
  exists out,
    Combinator.forward (x0 :: xs) l =
      (Ok (act_fn_of (Combinator.act_fn l) out),
       put_base (LayerBase.set_derived_variables
                   (<[combine_key (Combinator.which l) := VArr out]>
                      (LayerBase.derived_variables (Combinator.base l)))
                   (LayerBase.set_X (VList (x0 :: xs)) (Combinator.base l))) l) /\
    shape out = sh /\ wf out /\
    forall idx, inb sh idx ->
      get out idx = fold_entries (combine_op (Combinator.which l)) x0 xs idx.
Proof.
  intros Hall. inversion Hall as [|? ? [Hs0 Hw0] Hxs]; subst.
  destruct (accumulate_inputs (combine_op (Combinator.which l)) (shape x0) xs x0
              eq_refl Hw0 Hxs) as (out & E & Hso & Hwo & Hget).
  exists out. split; [|split_and!; assumption].
  unfold Combinator.forward. comb_step. rewrite py_index_head. cbn [List.tl].
  assert (E' : foldM (fun acc x => match Combinator.which l with
                                   | Combinator.Add => Combinator.inplace add acc x
                                   | Combinator.Multiply => Combinator.inplace mul acc x
                                   end) xs x0 = Ok out).
  { rewrite <- E. destruct (Combinator.which l); reflexivity. }
  rewrite E'. destruct (Combinator.which l); reflexivity.
Qed.

(** Inputs are needed: on the empty list [forward] raises [IndexError],
    after the empty list has replaced the cached inputs. *)
Lemma Combinator_forward_no_input l :
  Combinator.forward [] l =
    (Err IndexError, put_base (LayerBase.set_X (VList []) (Combinator.base l)) l).
Proof. reflexivity. Qed.

Lemma repeat_gradient {A} (g : Np.ndarray) (X : list A) : forall acc,
  foldM (fun acc (_ : A) => gi ← Ok g; Ok (acc ++ [gi])) X acc = Ok (acc ++ List.repeat g (length X)).
Proof.
  induction X as [|x X IH]; intros acc; cbn.
  - rewrite List.app_nil_r. reflexivity.
  - rewrite IH, <- List.app_assoc. reflexivity.
Qed.

(** [backward] of Add returns one gradient per cached input, and they are
    all the same array [dLdY * grad(sum)]; the layer is not changed. *)
Theorem Add_backward_copies l dLdY out X :
  Combinator.which l = Combinator.Add ->
  LayerBase.derived_variables (Combinator.base l) !! "sum" = Some (VArr out) ->
  LayerBase.X (Combinator.base l) = VList X ->
  wf out -> shape dLdY = shape out ->
  exists g,
    Combinator.backward dLdY l = (Ok (List.repeat g (length X)), l) /\
    shape g = shape out /\ wf g /\
    forall idx, inb (shape out) idx ->
      get g idx = smul (get dLdY idx) (grad (Combinator.act_fn l) (get out idx)).
Proof.
  intros Hk Hsum HX Hwf Hs.
  exists (of_fun (shape dLdY) (fun idx => smul (get dLdY idx)
                                 (get (act_grad_of (Combinator.act_fn l) out) idx))).
  split; [|split_and!].
  - unfold Combinator.backward. comb_step. rewrite Hk, Hsum, HX. comb_step.
    unfold mul. rewrite binop_same_shape by (cbn; congruence).
    pose proof (repeat_gradient (of_fun (shape dLdY) (fun idx => smul (get dLdY idx)
                   (get (act_grad_of (Combinator.act_fn l) out) idx))) X []) as Hr.
    cbn [mbind res_bind] in Hr. cbn [mbind res_bind]. rewrite Hr. reflexivity.
  - cbn. exact Hs.
  - apply wf_of_fun.
  - intros idx Hin. rewrite get_of_fun by (rewrite Hs; exact Hin).
    unfold act_grad_of. rewrite get_map by assumption. reflexivity.
Qed.

Lemma multiply_pass sh i x grads : forall k acc,
  shape x = sh -> same_shape sh grads ->
  foldM (fun acc '(j, gj) =>
           if Nat.eqb j i then Ok (acc ++ [gj])
           else (p ← mul gj x; Ok (acc ++ [p])))
        (List.combine (List.seq k (length grads)) grads) acc =
  Ok (acc ++ zip_with (times_input sh i x) (List.seq k (length grads)) grads).
Proof.
  induction grads as [|g grads IH]; intros k acc Hx Hg.
  - cbn. rewrite List.app_nil_r. reflexivity.
  - apply Forall_cons in Hg. destruct Hg as [[Hsg Hwg] Hg'].
    cbn [length List.seq List.combine foldM zip_with]. unfold times_input at 1.
    destruct (Nat.eqb k i).
    + cbn [mbind res_bind]. rewrite (IH _ _ Hx Hg').
      rewrite <- List.app_assoc. reflexivity.
    + unfold mul. rewrite binop_same_shape by congruence.
      cbn [mbind res_bind]. rewrite (IH _ _ Hx Hg'), Hsg.
      rewrite <- List.app_assoc. reflexivity.
Qed.

Lemma times_input_ok sh i x j gj :
  shape gj = sh /\ wf gj -> shape (times_input sh i x j gj) = sh /\ wf (times_input sh i x j gj).
Proof.
  intros [Hs Hw]. unfold times_input. destruct (Nat.eqb j i); [auto|].
  split; [reflexivity | apply wf_of_fun].
Qed.

Lemma multiply_passes sh ps : forall grads,
  List.Forall (fun p => shape p.2 = sh) ps -> same_shape sh grads ->
  exists gs,
    foldM (fun grads '(i, x) =>
             foldM (fun acc '(j, gj) =>
                      if Nat.eqb j i then Ok (acc ++ [gj])
                      else (p ← mul gj x; Ok (acc ++ [p])))
                   (List.combine (List.seq 0 (length grads)) grads) [])
          ps grads = Ok gs /\
    length gs = length grads /\
    forall j gj0, grads !! j = Some gj0 ->
      exists gj, gs !! j = Some gj /\ shape gj = sh /\ wf gj /\
        forall idx, inb sh idx ->
          get gj idx =
          List.fold_left (fun acc '(i, x) => if Nat.eqb i j then acc else smul acc (get x idx))
                         ps (get gj0 idx).
Proof.
  induction ps as [|[i x] ps IH]; intros grads Hps Hg.
  - exists grads. split; [reflexivity|]. split; [reflexivity|].
    intros j gj0 Hj. exists gj0. split; [exact Hj|].
    unfold same_shape in Hg. rewrite Forall_lookup in Hg.
    destruct (Hg j gj0 Hj) as [Hs Hw]. split_and!; auto.
  - apply Forall_cons in Hps. destruct Hps as [Hx Hps']. cbn [snd] in Hx.
    cbn [foldM]. rewrite (multiply_pass sh i x grads 0 [] Hx Hg).
    cbn [mbind res_bind app].
    set (grads' := zip_with (times_input sh i x) (List.seq 0 (length grads)) grads).
    assert (Hg' : same_shape sh grads').
    { unfold same_shape. rewrite Forall_lookup. intros j g Hj. subst grads'.
      apply lookup_zip_with_Some in Hj. destruct Hj as (j' & gj0 & -> & _ & Hj).
      apply times_input_ok. unfold same_shape in Hg. rewrite Forall_lookup in Hg. eauto. }
    assert (Hlen : length grads' = length grads).
    { subst grads'. rewrite length_zip_with, List.length_seq. lia. }
    destruct (IH grads' Hps' Hg') as (gs & E & Hl & Hget).
    exists gs. split; [exact E|]. split; [lia|].
    intros j gj0 Hj.
    assert (Hj' : grads' !! j = Some (times_input sh i x j gj0)).
    { subst grads'. apply lookup_zip_with_Some. exists j, gj0.
      split; [reflexivity|]. split; [|exact Hj].
      apply lookup_seq. split; [reflexivity|]. apply lookup_lt_Some in Hj. exact Hj. }
    destruct (Hget j _ Hj') as (gj & Egj & Hs & Hw & Hv).
    exists gj. split_and!; try assumption.
    intros idx Hin. rewrite (Hv idx Hin). cbn [List.fold_left]. f_equal.
    unfold times_input. rewrite (Nat.eqb_sym i j).
    destruct (Nat.eqb j i); [reflexivity|].
    rewrite get_of_fun by exact Hin. reflexivity.
Qed.

(** [backward] of Multiply returns one gradient per cached input; the
    gradient for the [j]-th input is [dLdY * grad(product)] times all the
    other inputs, entry by entry; the layer is not changed. *)
Theorem Multiply_backward_products l dLdY out X sh :
  Combinator.which l = Combinator.Multiply ->
  LayerBase.derived_variables (Combinator.base l) !! "product" = Some (VArr out) ->
  LayerBase.X (Combinator.base l) = VList X ->
  same_shape sh X -> shape out = sh -> wf out -> shape dLdY = sh ->
  exists gs,
    Combinator.backward dLdY l = (Ok gs, l) /\
    length gs = length X /\
    forall j, j < length X ->
      exists gj, gs !! j = Some gj /\ shape gj = sh /\ wf gj /\
        forall idx, inb sh idx ->
          get gj idx =
          prod_except j (smul (get dLdY idx) (grad (Combinator.act_fn l) (get out idx))) X idx.
Proof.
  intros Hk Hprod HX HXs Hso Hwo Hsd.
  set (g := of_fun sh (fun idx => smul (get dLdY idx)
                         (get (act_grad_of (Combinator.act_fn l) out) idx))).
  assert (Hgs : same_shape sh (List.map (fun _ => g) X)).
  { unfold same_shape. apply List.Forall_map, List.Forall_forall. intros ? _.
    split; [reflexivity | apply wf_of_fun]. }
  assert (Hps : List.Forall (fun p : nat * ndarray => shape p.2 = sh)
                  (List.combine (List.seq 0 (length X)) X)).
  { apply List.Forall_forall. intros [i x] Hin. apply List.in_combine_r in Hin.
    unfold same_shape in HXs. rewrite List.Forall_forall in HXs.
    apply (HXs x Hin). }
  destruct (multiply_passes sh _ _ Hps Hgs) as (gs & E & Hl & Hget).
  exists gs. split; [|split].
  - unfold Combinator.backward. comb_step. rewrite Hk, Hprod, HX. comb_step.
    unfold mul at 1. rewrite binop_same_shape by (cbn; congruence).
    cbn [mbind res_bind]. rewrite Hsd. fold g.
    rewrite <- E. reflexivity.
  - rewrite Hl, List.length_map. reflexivity.
  - intros j Hj.
    assert (Hj0 : List.map (fun _ => g) X !! j = Some g).
    { rewrite list_lookup_fmap. destruct (lookup_lt_is_Some_2 X j Hj) as [x ->]. reflexivity. }
    destruct (Hget j g Hj0) as (gj & Egj & Hs & Hw & Hv).
    exists gj. split_and!; try assumption.
    intros idx Hin. rewrite (Hv idx Hin). unfold prod_except. f_equal.
    subst g. rewrite get_of_fun by exact Hin.
    unfold act_grad_of. rewrite get_map by (rewrite ?Hso; assumption). reflexivity.
Qed.

Lemma pair_same_shape : same_shape [1; 2] Ex.pair.
Proof. repeat constructor. Qed.

Lemma Combinator_forward_accumulates_witness :
  exists out l1,
    Combinator.forward Ex.pair Ex.add_layer =
      (Ok (act_fn_of Ex.Square out), l1) /\
    get out [0; 1] = 6%Z.
Proof.
  destruct (Combinator_forward_accumulates Ex.add_layer _ _ _ pair_same_shape)
    as (out & E & _ & _ & Hget).
  eexists out, _. split; [exact E|].
  rewrite Hget by (repeat constructor). reflexivity.
Defined.

Lemma Add_backward_copies_witness :
  exists g, Combinator.backward (Ex.matrix [[1; 1]]%Z) Ex.add_ready = (Ok [g; g], Ex.add_ready).
Proof.
  destruct (Add_backward_copies Ex.add_ready (Ex.matrix [[1; 1]]%Z)
              (Ex.matrix [[4; 6]]%Z) Ex.pair eq_refl eq_refl eq_refl)
    as (g & E & _).
  - reflexivity.
  - reflexivity.
  - exists g. exact E.
Defined.

Lemma Multiply_backward_products_witness :
  exists g0 g1,
    Combinator.backward (Ex.matrix [[1; 1]]%Z) Ex.mul_ready = (Ok [g0; g1], Ex.mul_ready) /\
    get g0 [0; 0] = 3%Z /\ get g1 [0; 0] = 1%Z.
Proof.
  destruct (Multiply_backward_products Ex.mul_ready (Ex.matrix [[1; 1]]%Z)
              (Ex.matrix [[3; 8]]%Z) Ex.pair [1; 2] eq_refl eq_refl eq_refl pair_same_shape
              eq_refl eq_refl eq_refl)
    as (gs & E & Hl & Hget).
  destruct gs as [|g0 [|g1 [|? ?]]]; try discriminate.
  exists g0, g1. split; [exact E|].
  destruct (Hget 0) as (a & Ea & _ & _ & Ha); [simpl; lia|].
  destruct (Hget 1) as (b & Eb & _ & _ & Hb); [simpl; lia|].
  injection Ea as <-. injection Eb as <-.
  rewrite Ha, Hb by (repeat constructor). split; reflexivity.
Defined.

End CombinatorFacts.

Set Warnings "-clear-no-such-hyp".

(** * What [backward] and [flush_gradients] leave alone *)

Section ParametersKept.
Variable ps0 : gmap string pyval.
Local Abbreviation P := (fun (ps gs : gmap string pyval) => ps = ps0).

Section OnLayer.
Context {T : Type} `{HasBase T}.
Hypothesis get_put : forall b (l : T), get_base (put_base b l) = b.

Lemma params_set_grad k v : keeps P (set_grad (T:=T) k v).
Proof. apply keeps_upd_base; [exact get_put|]. intros b Hb. exact Hb. Qed.

Lemma params_put_grads d : keeps P (put_grads (T:=T) d).
Proof. apply keeps_upd_base; [exact get_put|]. intros b Hb. exact Hb. Qed.

Lemma params_iadd_grad k v : keeps P (iadd_grad (T:=T) k v).
Proof.
  apply keeps_bind; [apply keeps_get_grad|]. intros g.
  apply keeps_bind; [apply keeps_lift|]. intros a.
  apply keeps_bind; [apply keeps_lift|]. intros s.
  destruct (decide _); [apply params_set_grad | apply keeps_raise].
Qed.

Lemma params_flush_on : keeps P (on_base (T:=T) LayerBase.flush_gradients).
Proof.
  apply keeps_on_base; [exact get_put|]. intros b Hb.
  unfold LayerBase.flush_gradients.
  cbv [mbind mret M_bind M_ret gets modify lift raise py_assert].
  destruct (LayerBase.trainable b); exact Hb.
Qed.

Lemma params_cell_flush_on : keeps P (on_base (T:=T) cell_flush).
Proof.
  apply keeps_on_base; [exact get_put|]. intros b Hb.
  unfold cell_flush, assert_trainable, put_X, set_dv, upd_base.
  cbv [mbind mret M_bind M_ret gets modify lift raise py_assert get_base put_base
       base_has_base].
  destruct (LayerBase.trainable b); exact Hb.
Qed.

End OnLayer.

Ltac params_leaf :=
  first [ apply params_set_grad; reflexivity
        | apply params_put_grads; reflexivity
        | apply params_iadd_grad; reflexivity ].

Lemma params_FC_backward d : keeps P (FullyConnected.backward d).
Proof. unfold FullyConnected.backward. keeps_walk_with params_leaf. Qed.

Lemma params_RNNCell_backward d : keeps P (RNNCell.backward d).
Proof. unfold RNNCell.backward. keeps_walk_with params_leaf. Qed.

Lemma params_LSTMCell_backward d : keeps P (LSTMCell.backward d).
Proof.
  unfold LSTMCell.backward, LSTMCell._get_params, LSTMCell.dv_list.
  keeps_walk_with params_leaf.
Qed.

Lemma params_Conv2D_backward d : keeps P (Conv2D.backward d).
Proof. unfold Conv2D.backward. keeps_walk_with params_leaf. Qed.

Lemma params_ConvLike_backward d : keeps P (ConvLike.backward d).
Proof. unfold ConvLike.backward. keeps_walk_with params_leaf. Qed.

Lemma params_BatchNorm_backward d : keeps P (BatchNorm.backward d).
Proof. unfold BatchNorm.backward. keeps_walk_with params_leaf. Qed.

Lemma params_Pool2D_backward d : keeps P (Pool2D.backward d).
Proof. unfold Pool2D.backward. keeps_walk_with params_leaf. Qed.

Lemma params_Combinator_backward d : keeps P (Combinator.backward d).
Proof. unfold Combinator.backward. keeps_walk_with params_leaf. Qed.

Lemma params_Flatten_backward d : keeps P (Flatten.backward d).
Proof. unfold Flatten.backward. keeps_walk_with params_leaf. Qed.

Lemma params_RBM_backward : keeps P RBM.backward.
Proof.
  unfold RBM.backward.
  keeps_walk_with ltac:(first
    [ exact (keeps_pure P _ (fun _ => eq_refl))
    | refine (params_set_grad (T:=RBM.t) (fun _ _ => eq_refl) _ _) ]).
Qed.

End ParametersKept.

(** Only [update] (and the initialisation and running statistics written by
    [forward]) changes parameters: for every layer, [backward] and
    [flush_gradients] leave the [parameters] mapping exactly as it was,
    whether they return or raise. *)
Theorem backward_and_flush_keep_parameters (l : layer) (d : Np.ndarray) :
  LayerBase.parameters (layer_base (after l (Backward d))) =
    LayerBase.parameters (layer_base l) /\
  LayerBase.parameters (layer_base (after l Flush)) =
    LayerBase.parameters (layer_base l).
Proof.
  destruct l as [l|l|l|l|l|l|l|l|l|l]; unfold after, layer_base; split.
  - exact (params_RBM_backward _ l eq_refl).
  - exact (params_flush_on _ (T:=RBM.t) (fun _ _ => eq_refl) l eq_refl).
  - exact (params_Combinator_backward _ d l eq_refl).
  - exact (params_flush_on _ (T:=Combinator.t) (fun _ _ => eq_refl) l eq_refl).
  - exact (params_BatchNorm_backward _ d l eq_refl).
  - exact (params_flush_on _ (T:=BatchNorm.t) (fun _ _ => eq_refl) l eq_refl).
  - exact (params_FC_backward _ d l eq_refl).
  - exact (params_flush_on _ (T:=FullyConnected.t) (fun _ _ => eq_refl) l eq_refl).
  - exact (params_RNNCell_backward _ d l eq_refl).
  - exact (params_cell_flush_on _ (T:=RNNCell.t) (fun _ _ => eq_refl) l eq_refl).
  - exact (params_LSTMCell_backward _ d l eq_refl).
  - exact (params_cell_flush_on _ (T:=LSTMCell.t) (fun _ _ => eq_refl) l eq_refl).
  - exact (params_Pool2D_backward _ d l eq_refl).
  - exact (params_flush_on _ (T:=Pool2D.t) (fun _ _ => eq_refl) l eq_refl).
  - exact (params_Flatten_backward _ d l eq_refl).
  - exact (params_flush_on _ (T:=Flatten.t) (fun _ _ => eq_refl) l eq_refl).
  - exact (params_ConvLike_backward _ d l eq_refl).
  - exact (params_flush_on _ (T:=ConvLike.t) (fun _ _ => eq_refl) l eq_refl).
  - exact (params_Conv2D_backward _ d l eq_refl).
  - exact (params_flush_on _ (T:=Conv2D.t) (fun _ _ => eq_refl) l eq_refl).
Qed.

Set Warnings "-clear-no-such-hyp".

(** * Calls out of order *)

Section OutOfOrder.

Ltac run_head :=
  cbv [mbind mret M_bind M_ret res_bind res_ret gets modify lift raise py_assert dict_get
       get_param get_dv get_X assert_trainable the_array as_array].

(** [backward] of a convolution before any [forward]: there is no cached
    [Z], the lookup raises [KeyError] and nothing is changed; the same holds
    for the loop implementation [_backward_naive]. *)
Theorem Conv2D_backward_before_forward (l : Conv2D.t) (dLdY : Np.ndarray) :
  LayerBase.derived_variables (Conv2D.base l) !! "Z" = None ->
  Conv2D.backward dLdY l = (Err KeyError, l) /\
  Conv2D._backward_naive dLdY l = (Err KeyError, l).
Proof.
  intros HZ. unfold Conv2D.backward, Conv2D._backward_naive. run_head.
  cbn [get_base Conv2D.has_base]. rewrite HZ.
  destruct (LayerBase.parameters (Conv2D.base l) !! "W");
    destruct (LayerBase.parameters (Conv2D.base l) !! "b"); split; reflexivity.
Qed.

Lemma Conv2D_backward_before_forward_witness :
  Conv2D.backward Ex.conv_dLdY Ex.conv = (Err KeyError, Ex.conv) /\
  Conv2D._backward_naive Ex.conv_dLdY Ex.conv = (Err KeyError, Ex.conv).
Proof. apply Conv2D_backward_before_forward. reflexivity. Defined.

(** The layers that guard [backward] with [assert self.trainable]:
    on a frozen layer, [backward] of RNNCell, LSTMCell, the batch
    normalisations and Pool2D raises [AssertionError] before anything is
    read or written, so that the cursor of the recurrent cells does not move.
    A trainable pooling layer that has seen no input fails with
    [AttributeError] on the shape of [None], unchanged too. *)
Theorem guarded_backward_rejections :
  (forall (l : RNNCell.t) d, LayerBase.trainable (RNNCell.base l) = false ->
     RNNCell.backward d l = (Err AssertionError, l)) /\
  (forall (l : LSTMCell.t) d, LayerBase.trainable (LSTMCell.base l) = false ->
     LSTMCell.backward d l = (Err AssertionError, l)) /\
  (forall (l : BatchNorm.t) d, LayerBase.trainable (BatchNorm.base l) = false ->
     BatchNorm.backward d l = (Err AssertionError, l)) /\
  (forall (l : Pool2D.t) d, LayerBase.trainable (Pool2D.base l) = false ->
     Pool2D.backward d l = (Err AssertionError, l)) /\
  (forall (l : Pool2D.t) d, LayerBase.trainable (Pool2D.base l) = true ->
     LayerBase.X (Pool2D.base l) = VNone ->
     Pool2D.backward d l = (Err AttributeError, l)).
Proof.
  split_and!; intros l d H.
  - unfold RNNCell.backward. run_head. cbn [get_base RNNCell.has_base]. rewrite H. reflexivity.
  - unfold LSTMCell.backward. run_head. cbn [get_base LSTMCell.has_base]. rewrite H.
    reflexivity.
  - unfold BatchNorm.backward. run_head. cbn [get_base BatchNorm.has_base]. rewrite H.
    reflexivity.
  - unfold Pool2D.backward. run_head. cbn [get_base Pool2D.has_base]. rewrite H. reflexivity.
  - intros HX. unfold Pool2D.backward. run_head. cbn [get_base Pool2D.has_base].
    rewrite H, HX. reflexivity.
Qed.

End OutOfOrder.

Set Warnings "-clear-no-such-hyp".

(** * The recurrent cell: one step of backpropagation through time *)

Section RNNCellBackward.
Import Np NpF.

Lemma py_index_at {A} (l : list A) (t : Z) (x : A) :
  (0 <= t)%Z -> List.nth_error l (Z.to_nat t) = Some x -> py_index l t = Ok x.
Proof.
  intros Ht Hx. unfold py_index.
  destruct (Z.ltb_spec t 0); [lia|].
  assert (Hlt : Z.to_nat t < length l) by (apply List.nth_error_Some; congruence).
  destruct (Z.leb_spec 0 t); [|lia].
  destruct (Z.ltb_spec t (Z.of_nat (length l))); [|lia].
  cbn [andb]. rewrite Hx. reflexivity.
Qed.

Ltac rnn_step :=
  cbv [mbind mret M_bind M_ret res_bind res_ret gets modify lift raise py_assert dict_get
       get_base put_base RNNCell.has_base get_param get_dv get_X put_X put_dvs set_dv
       put_grads put_params upd_base assert_trainable as_array the_array the_list the_int
       incr_dv append_dv iadd_grad get_grad set_grad];
  cbn [RNNCell.base RNNCell.is_initialized RNNCell.act_fn RNNCell.n_in RNNCell.n_out
       RNNCell.init_weights
       LayerBase.derived_variables LayerBase.set_derived_variables LayerBase.parameters
       LayerBase.set_parameters LayerBase.trainable LayerBase.X LayerBase.set_X
       LayerBase.gradients LayerBase.set_gradients LayerBase.optimizer].

Ltac dv_lookup :=
  repeat first [ rewrite lookup_insert_eq
               | rewrite lookup_insert_ne by discriminate ].

(** [self.gradients[k] += u] on a stored gradient [g] of the shape of [u]. *)
Ltac iadd_ok Hg E Hm' Hm :=
  rewrite Hg; rnn_step; rewrite E;
  let Hn := fresh "Hn" in
  destruct (decide _) as [_|Hn];
    [|exfalso; apply Hn; rewrite (proj1 Hm'), (proj1 Hm); reflexivity];
  repeat first [progress rnn_step | progress dv_lookup].

(** One step of backpropagation through time on a trainable cell.  The
    cursor is decremented to [t]; with the incoming gradient [acc] (the
    accumulator, or zeros when none is stored) and
    [dZ = grad(Z[t]) * (dLdAt + acc)], the call returns [dZ Wax^T], adds
    [A[t]^T dZ] to the gradient of [Waa], [X[t]^T dZ] to that of [Wax] and
    the column sums of [dZ], transposed, to those of [ba] and [bx], and
    stores [dZ Waa^T] as the new accumulator.  Parameters and caches are
    not changed. *)
Theorem RNNCell_backward_step l dLdAt n_ex nin nout Waa Wax ba bx gWaa gWax gba gbx
    c Zs As Xs Zt At Xt acc :
  rnn_ok l nin nout Waa Wax ba bx -> rnn_grads l nin nout gWaa gWax gba gbx ->
  LayerBase.trainable (RNNCell.base l) = true ->
  LayerBase.derived_variables (RNNCell.base l) !! "current_step" = Some (VInt c) ->
  LayerBase.derived_variables (RNNCell.base l) !! "Z" = Some (VList Zs) ->
  LayerBase.derived_variables (RNNCell.base l) !! "A" = Some (VList As) ->
  LayerBase.X (RNNCell.base l) = VList Xs ->
  (0 <= c - 1)%Z ->
  List.nth_error Zs (Z.to_nat (c - 1)) = Some Zt -> mat n_ex nout Zt ->
  List.nth_error As (Z.to_nat (c - 1)) = Some At -> mat n_ex nout At ->
  List.nth_error Xs (Z.to_nat (c - 1)) = Some Xt -> mat n_ex nin Xt ->
  rnn_incoming l n_ex nout As acc -> mat n_ex nout dLdAt ->
  exists dZ dXt gWaa' gWax' gba' gbx' acc' l1,
    RNNCell.backward dLdAt l = (Ok dXt, l1) /\
    mat n_ex nout dZ /\ mat n_ex nin dXt /\
    (forall i j, i < n_ex -> j < nout ->
       get2 dZ i j = smul (grad (RNNCell.act_fn l) (get2 Zt i j))
                          (sadd (get2 dLdAt i j) (get2 acc i j))) /\
    (forall i k, i < n_ex -> k < nin ->
       get2 dXt i k = sumn nout (fun j => smul (get2 dZ i j) (get2 Wax k j))) /\
    rnn_grads l1 nin nout gWaa' gWax' gba' gbx' /\
    (forall k j, k < nout -> j < nout ->
       get2 gWaa' k j = sadd (get2 gWaa k j) (sumn n_ex (fun i => smul (get2 At i k) (get2 dZ i j)))) /\
    (forall k j, k < nin -> j < nout ->
       get2 gWax' k j = sadd (get2 gWax k j) (sumn n_ex (fun i => smul (get2 Xt i k) (get2 dZ i j)))) /\
    (forall j, j < nout ->
       get2 gba' j 0 = sadd (get2 gba j 0) (sumn n_ex (fun i => get2 dZ i j)) /\
       get2 gbx' j 0 = sadd (get2 gbx j 0) (sumn n_ex (fun i => get2 dZ i j))) /\
    LayerBase.derived_variables (RNNCell.base l1) =
      <["dLdA_accumulator" := VArr acc']>
        (<["current_step" := VInt (c - 1)]> (LayerBase.derived_variables (RNNCell.base l))) /\
    mat n_ex nout acc' /\
    (forall i k, i < n_ex -> k < nout ->
       get2 acc' i k = sumn nout (fun j => smul (get2 dZ i j) (get2 Waa k j))) /\
    LayerBase.parameters (RNNCell.base l1) = LayerBase.parameters (RNNCell.base l) /\
    LayerBase.X (RNNCell.base l1) = LayerBase.X (RNNCell.base l).
Proof.
  intros [Hini Hno HWaa HWax Hba Hbx HWaam HWaxm Hbam Hbxm]
         [HgWaa HgWax Hgba Hgbx HgWaam HgWaxm Hgbam Hgbxm]
         Htr Hc HZs HAs HXs Ht HZt HZtm HAt HAtm HXt HXtm Hacc HdL.
  assert (Haccm : mat n_ex nout acc).
  { destruct Hacc as [(_ & _ & ->) | (_ & H)]; [apply zeros_mat | exact H]. }
  destruct (binop_same sadd dLdAt acc n_ex nout HdL Haccm) as (dA & EdA & HdA & HdAget).
  pose proof (map_mat (grad (RNNCell.act_fn l)) _ _ _ HZtm) as HgZ.
  destruct (binop_same smul _ dA n_ex nout HgZ HdA) as (dZ & EdZ & HdZ & HdZget).
  destruct (T_spec Wax _ _ (proj1 HWaxm)) as (WaxT & EWaxT & HWaxT & HWaxTget).
  destruct (dot_spec dZ WaxT n_ex nout nin (proj1 HdZ) (proj1 HWaxT))
    as (dXt & EdXt & HdXt & HdXtget).
  destruct (T_spec At _ _ (proj1 HAtm)) as (AtT & EAtT & HAtT & HAtTget).
  destruct (dot_spec AtT dZ nout n_ex nout (proj1 HAtT) (proj1 HdZ))
    as (uWaa & EuWaa & HuWaa & HuWaaget).
  destruct (binop_same sadd gWaa uWaa nout nout HgWaam HuWaa) as (gWaa' & EgWaa' & HgWaa' & HgWaa'get).
  destruct (T_spec Xt _ _ (proj1 HXtm)) as (XtT & EXtT & HXtT & HXtTget).
  destruct (dot_spec XtT dZ nin n_ex nout (proj1 HXtT) (proj1 HdZ))
    as (uWax & EuWax & HuWax & HuWaxget).
  destruct (binop_same sadd gWax uWax nin nout HgWaxm HuWax) as (gWax' & EgWax' & HgWax' & HgWax'get).
  destruct (sum_axis0_keep_spec dZ n_ex nout (proj1 HdZ)) as (sb & Esb & Hsb & Hsbget).
  destruct (T_spec sb _ _ (proj1 Hsb)) as (gb & Egb & Hgb & Hgbget).
  destruct (binop_same sadd gba gb nout 1 Hgbam Hgb) as (gba' & Egba' & Hgba' & Hgba'get).
  destruct (binop_same sadd gbx gb nout 1 Hgbxm Hgb) as (gbx' & Egbx' & Hgbx' & Hgbx'get).
  destruct (T_spec Waa _ _ (proj1 HWaam)) as (WaaT & EWaaT & HWaaT & HWaaTget).
  destruct (dot_spec dZ WaaT n_ex nout nout (proj1 HdZ) (proj1 HWaaT))
    as (acc' & Eacc' & Hacc' & Hacc'get).
  exists dZ, dXt, gWaa', gWax', gba', gbx', acc'.
  assert (Hrun : exists l1,
    RNNCell.backward dLdAt l = (Ok dXt, l1) /\
    LayerBase.gradients (RNNCell.base l1) =
      <["bx" := VArr gbx']> (<["ba" := VArr gba']> (<["Wax" := VArr gWax']>
        (<["Waa" := VArr gWaa']> (LayerBase.gradients (RNNCell.base l))))) /\
    LayerBase.derived_variables (RNNCell.base l1) =
      <["dLdA_accumulator" := VArr acc']>
        (<["current_step" := VInt (c - 1)]> (LayerBase.derived_variables (RNNCell.base l))) /\
    LayerBase.parameters (RNNCell.base l1) = LayerBase.parameters (RNNCell.base l) /\
    LayerBase.X (RNNCell.base l1) = LayerBase.X (RNNCell.base l)).
  { unfold RNNCell.backward. rnn_step. rewrite Htr. rnn_step. rewrite Hc. rnn_step.
    dv_lookup. rewrite HZs, HAs.
    replace (c + -1)%Z with (c - 1)%Z by lia.
    repeat first [progress rnn_step | progress dv_lookup].
    destruct Hacc as [(Hd & (A0 & HA0 & HA0m) & Hz) | (Hd & _)];
      [ rewrite Hd; rnn_step; rewrite (py_index_at As 0 A0) by (lia || exact HA0);
        rnn_step; unfold zeros_like; rewrite (proj1 HA0m), <- Hz
      | rewrite Hd; rnn_step ].
    all: rewrite HWax, HWaa; rnn_step; unfold add, mul, act_grad_of; rewrite EdA.
    all: rnn_step; rewrite (py_index_at Zs (c - 1) Zt Ht HZt); rnn_step; rewrite EdZ.
    all: rnn_step; rewrite EWaxT; rnn_step; rewrite EdXt; rnn_step.
    all: rewrite (py_index_at As (c - 1) At Ht HAt); rnn_step; rewrite EAtT, EuWaa.
    all: repeat first [progress rnn_step | progress dv_lookup].
    all: iadd_ok HgWaa EgWaa' HgWaa' HgWaam.
    all: rewrite HXs; rnn_step; rewrite (py_index_at Xs (c - 1) Xt Ht HXt); rnn_step.
    all: rewrite EXtT, EuWax; repeat first [progress rnn_step | progress dv_lookup].
    all: iadd_ok HgWax EgWax' HgWax' HgWaxm.
    all: rewrite Esb; rnn_step; rewrite Egb;
         repeat first [progress rnn_step | progress dv_lookup].
    all: iadd_ok Hgba Egba' Hgba' Hgbam.
    all: iadd_ok Hgbx Egbx' Hgbx' Hgbxm.
    all: rewrite EWaaT; rnn_step; rewrite Eacc';
         repeat first [progress rnn_step | progress dv_lookup].
    all: eexists; split; [reflexivity|]; cbn; split_and!; try reflexivity;
         exact HXs. }
  destruct Hrun as (l1 & Eb & Hg1 & Hd1 & Hp1 & HX1).
  exists l1. split; [exact Eb|]. split; [exact HdZ|]. split; [exact HdXt|].
  split.
  { intros i j Hi Hj. rewrite HdZget, HdAget by assumption.
    rewrite (get2_map _ _ n_ex nout) by assumption. reflexivity. }
  split.
  { intros i k Hi Hk. rewrite HdXtget by assumption. apply sumn_ext. intros j Hj.
    rewrite HWaxTget by assumption. reflexivity. }
  split.
  { constructor; try assumption; rewrite Hg1; by simplify_map_eq. }
  split.
  { intros k j Hk Hj. rewrite HgWaa'get, HuWaaget by assumption. f_equal.
    apply sumn_ext. intros i Hi. rewrite HAtTget by assumption. reflexivity. }
  split.
  { intros k j Hk Hj. rewrite HgWax'get, HuWaxget by assumption. f_equal.
    apply sumn_ext. intros i Hi. rewrite HXtTget by assumption. reflexivity. }
  split.
  { intros j Hj. rewrite Hgba'get, Hgbx'get, Hgbget, Hsbget by (assumption || lia).
    split; reflexivity. }
  split; [exact Hd1|]. split; [exact Hacc'|].
  split; [|split; assumption].
  intros i k Hi Hk. rewrite Hacc'get by assumption. apply sumn_ext. intros j Hj.
  rewrite HWaaTget by assumption. reflexivity.
Qed.

Lemma rnn_ready_grads :
  rnn_grads Ex.rnn_ready 1 2 (zeros [2; 2]) (zeros [1; 2]) (zeros [2; 1]) (zeros [2; 1]).
Proof. constructor; try reflexivity; split; reflexivity. Qed.

Lemma RNNCell_backward_step_witness :
  exists dXt l1,
    RNNCell.backward Ex.rnn_dLdA Ex.rnn_ready = (Ok dXt, l1) /\
    LayerBase.derived_variables (RNNCell.base l1) !! "current_step" = Some (VInt 0) /\
    mat 1 1 dXt.
Proof.
  destruct (RNNCell_backward_step Ex.rnn_ready Ex.rnn_dLdA 1 1 2 _ _ _ _ _ _ _ _
              1 (Ex.rnn_cache "Z") (Ex.rnn_cache "A") [Ex.rnn_X]
              (List.nth 0 (Ex.rnn_cache "Z") (zeros []))
              (List.nth 0 (Ex.rnn_cache "A") (zeros []))
              Ex.rnn_X (zeros [1; 2])
              rnn_ready_ok rnn_ready_grads)
    as (dZ & dXt & g1 & g2 & g3 & g4 & acc' & l1 & E & _ & HdX & _ & _ & _ & _ & _ & _ & Hd & _);
    try (vm_compute; reflexivity); try (split; vm_compute; reflexivity); try lia.
  - left. split; [vm_compute; reflexivity|]. split; [|reflexivity].
    eexists. split; [vm_compute; reflexivity | split; vm_compute; reflexivity].
  - exists dXt, l1. split; [exact E|]. split; [|exact HdX].
    rewrite Hd. rewrite lookup_insert_ne by discriminate. apply lookup_insert_eq.
Defined.

End RNNCellBackward.

Set Warnings "-clear-no-such-hyp".

(** * The LSTM cell: one timestep *)

Section LSTMCellFacts.
Import Np NpF.

Lemma hstack_spec a b n m1 m2 :
  mat n m1 a -> mat n m2 b ->
  exists c, hstack a b = Ok c /\ mat n (m1 + m2) c /\
    forall i j, i < n -> j < m1 + m2 ->
      get2 c i j = if Nat.ltb j m1 then get2 a i j else get2 b i (j - m1).
Proof.
  intros [Ha _] [Hb _]. unfold hstack. rewrite Ha, Hb, Nat.eqb_refl.
  eexists. split; [reflexivity|]. split; [apply mat_mk|].
  intros i j Hi Hj. rewrite get2_mk by assumption. cbv zeta.
  rewrite idx2_div, idx2_mod by assumption. reflexivity.
Qed.

(** [fn(np.dot(Z, W) + b)] for a gate. *)
Lemma activate_spec f Zt W b n k m :
  mat n k Zt -> mat k m W -> mat 1 m b ->
  exists G, LSTMCell.activate f Zt (VArr W) (VArr b) = Ok G /\ mat n m G /\
    forall i j, i < n -> j < m -> get2 G i j = fn f (affine_entry k Zt W b i j).
Proof.
  intros HZ HW Hb. unfold LSTMCell.activate, LSTMCell.affine.
  cbv [mbind res_bind as_array].
  destruct (dot_spec Zt W n k m (proj1 HZ) (proj1 HW)) as (ZW & -> & HZW & HZWget).
  destruct (binop_row sadd ZW b _ _ HZW Hb) as (S & ES & HS & HSget).
  unfold add. rewrite ES. eexists. split; [reflexivity|].
  split; [apply map_mat; exact HS|].
  intros i j Hi Hj. unfold act_fn_of. rewrite (get2_map _ _ n m) by assumption.
  rewrite HSget, HZWget by assumption. reflexivity.
Qed.

Ltac lstm_step :=
  cbv [mbind mret M_bind M_ret res_bind res_ret gets modify lift raise py_assert dict_get
       get_base put_base LSTMCell.has_base get_dv get_X put_X put_dvs set_dv
       upd_base assert_trainable as_array the_array the_list the_int
       incr_dv append_dv LSTMCell.dv_list];
  cbn [LSTMCell.base LSTMCell.is_initialized LSTMCell.act_fn LSTMCell.gate_fn LSTMCell.n_in
       LSTMCell.n_out LSTMCell.init_weights
       LSTMCell.Wf LSTMCell.Wu LSTMCell.Wc LSTMCell.Wo
       LSTMCell.bf LSTMCell.bu LSTMCell.bc LSTMCell.bo
       LayerBase.derived_variables LayerBase.set_derived_variables LayerBase.parameters
       LayerBase.set_parameters LayerBase.trainable LayerBase.X LayerBase.set_X
       LayerBase.gradients LayerBase.set_gradients LayerBase.optimizer].

Ltac dv_lookup :=
  repeat first [ rewrite lookup_insert_eq
               | rewrite lookup_insert_ne by discriminate ].

Ltac lstm_run := repeat first [progress lstm_step | progress dv_lookup].

(** One timestep of an initialised LSTM cell.  [forward] advances both
    counters by one; with [Zt] the previous hidden state next to the batch,
    the gates are [Gf, Gu, Go = gate(Zt W + b)] and the candidate is
    [Cc = act(Zt Wc + bc)]; the new cell state is [Gf * C_prev + Gu * Cc] and
    the new hidden state [Go * act(Ct)].  The batch is appended to the cached
    inputs and the six arrays to their caches (the zero initial states
    first, on the first timestep); parameters and gradients are untouched. *)
Theorem LSTMCell_forward_step l Xt n_ex nin nout p Wf Wu Wc Wo bf bu bc bo
    T c Xs As Cs Gfs Gus Gos Ccs :
  lstm_ok l nin nout p Wf Wu Wc Wo bf bu bc bo ->
  lstm_caches l n_ex nout T c Xs As Cs ->
  lstm_list l "Gf" Gfs -> lstm_list l "Gu" Gus ->
  lstm_list l "Go" Gos -> lstm_list l "Cc" Ccs ->
  mat n_ex nin Xt ->
  let As0 := with_initial_state n_ex nout As in
  let Cs0 := with_initial_cell n_ex nout As Cs in
  let A_prev := List.last As0 (zeros []) in
  let C_prev := List.last Cs0 (zeros []) in
  let gate := LSTMCell.gate_fn l in
  let act := LSTMCell.act_fn l in
  exists Zt Gf Gu Go Cc Ct At l1,
    LSTMCell.forward Xt l = (Ok (At, Ct), l1) /\
    mat n_ex (nout + nin) Zt /\
    (forall i j, i < n_ex -> j < nout + nin ->
       get2 Zt i j = if Nat.ltb j nout then get2 A_prev i j else get2 Xt i (j - nout)) /\
    (forall i j, i < n_ex -> j < nout ->
       get2 Gf i j = fn gate (affine_entry (nout + nin) Zt Wf bf i j) /\
       get2 Gu i j = fn gate (affine_entry (nout + nin) Zt Wu bu i j) /\
       get2 Go i j = fn gate (affine_entry (nout + nin) Zt Wo bo i j) /\
       get2 Cc i j = fn act (affine_entry (nout + nin) Zt Wc bc i j) /\
       get2 Ct i j = sadd (smul (get2 Gf i j) (get2 C_prev i j))
                          (smul (get2 Gu i j) (get2 Cc i j)) /\
       get2 At i j = smul (get2 Go i j) (fn act (get2 Ct i j))) /\
    mat n_ex nout At /\ mat n_ex nout Ct /\
    lstm_caches l1 n_ex nout (T + 1) (c + 1) (Xs ++ [Xt]) (As0 ++ [At]) (Cs0 ++ [Ct]) /\
    lstm_list l1 "Gf" (Gfs ++ [Gf]) /\ lstm_list l1 "Gu" (Gus ++ [Gu]) /\
    lstm_list l1 "Go" (Gos ++ [Go]) /\ lstm_list l1 "Cc" (Ccs ++ [Cc]) /\
    LayerBase.parameters (LSTMCell.base l1) = LayerBase.parameters (LSTMCell.base l) /\
    LayerBase.gradients (LSTMCell.base l1) = LayerBase.gradients (LSTMCell.base l).
Proof.
  intros [Hini Hno Hget Hp HWf HWu HWc HWo Hbf Hbu Hbc Hbo]
         [HT Hc HAs HCs HXs HlastA HlastC] HGf HGu HGo HCc HXt
         As0 Cs0 A_prev C_prev gate act.
  unfold lstm_list in *.
  rewrite (Nat.add_comm nin nout) in HWf, HWu, HWc, HWo.
  assert (HA0 : As0 <> []) by (subst As0; destruct As; simpl; congruence).
  assert (HC0 : Cs0 <> []).
  { subst Cs0. destruct As; simpl; [destruct Cs; discriminate|].
    apply HlastC. congruence. }
  assert (HAp : mat n_ex nout A_prev).
  { subst A_prev As0. destruct As as [|a As']; [apply zeros_mat|].
    apply HlastA. congruence. }
  assert (HCp : mat n_ex nout C_prev).
  { subst C_prev Cs0. destruct As as [|a As'].
    - simpl. rewrite List.last_last. apply zeros_mat.
    - apply HlastC. congruence. }
  destruct (hstack_spec A_prev Xt n_ex nout nin HAp HXt) as (Zt & EZt & HZt & HZtget).
  destruct (activate_spec gate Zt Wf bf _ _ _ HZt HWf Hbf) as (Gf & EGf & HGfm & HGfget).
  destruct (activate_spec gate Zt Wu bu _ _ _ HZt HWu Hbu) as (Gu & EGu & HGum & HGuget).
  destruct (activate_spec gate Zt Wo bo _ _ _ HZt HWo Hbo) as (Go & EGo & HGom & HGoget).
  destruct (activate_spec act Zt Wc bc _ _ _ HZt HWc Hbc) as (Cc & ECc & HCcm & HCcget).
  destruct (binop_same smul Gf C_prev n_ex nout HGfm HCp) as (t1 & Et1 & Ht1 & Ht1get).
  destruct (binop_same smul Gu Cc n_ex nout HGum HCcm) as (t2 & Et2 & Ht2 & Ht2get).
  destruct (binop_same sadd t1 t2 n_ex nout Ht1 Ht2) as (Ct & ECt & HCt & HCtget).
  pose proof (map_mat (fn act) _ _ _ HCt) as HaCt.
  destruct (binop_same smul Go _ n_ex nout HGom HaCt) as (At & EAt & HAtm & HAtget).
  exists Zt, Gf, Gu, Go, Cc, Ct, At.
  assert (Hrun : exists l1,
    LSTMCell.forward Xt l = (Ok (At, Ct), l1) /\
    LayerBase.parameters (LSTMCell.base l1) = LayerBase.parameters (LSTMCell.base l) /\
    LayerBase.gradients (LSTMCell.base l1) = LayerBase.gradients (LSTMCell.base l) /\
    LayerBase.X (LSTMCell.base l1) = VList (Xs ++ [Xt]) /\
    LayerBase.derived_variables (LSTMCell.base l1) !! "n_timesteps" = Some (VInt (T + 1)) /\
    LayerBase.derived_variables (LSTMCell.base l1) !! "current_step" = Some (VInt (c + 1)) /\
    LayerBase.derived_variables (LSTMCell.base l1) !! "A" = Some (VList (As0 ++ [At])) /\
    LayerBase.derived_variables (LSTMCell.base l1) !! "C" = Some (VList (Cs0 ++ [Ct])) /\
    LayerBase.derived_variables (LSTMCell.base l1) !! "Gf" = Some (VList (Gfs ++ [Gf])) /\
    LayerBase.derived_variables (LSTMCell.base l1) !! "Gu" = Some (VList (Gus ++ [Gu])) /\
    LayerBase.derived_variables (LSTMCell.base l1) !! "Go" = Some (VList (Gos ++ [Go])) /\
    LayerBase.derived_variables (LSTMCell.base l1) !! "Cc" = Some (VList (Ccs ++ [Cc]))).
  { unfold LSTMCell.forward. lstm_step. rewrite Hini. lstm_step. rewrite Hget, Hp.
    repeat first [ progress lstm_step | progress dv_lookup
                 | rewrite HT | rewrite Hc | rewrite HAs | rewrite HCs | rewrite HXs
                 | rewrite HGf | rewrite HGu | rewrite HGo | rewrite HCc ].
    destruct As as [|a As'].
    - cbn [length]. destruct (decide (0 = 0)) as [_|Hn]; [|congruence].
      unfold shape2. rewrite (proj1 HXt).
      repeat first [ progress lstm_step | progress dv_lookup
                 | rewrite HT | rewrite Hc | rewrite HAs | rewrite HCs | rewrite HXs
                 | rewrite HGf | rewrite HGu | rewrite HGo | rewrite HCc | rewrite Hno ].
      change ([] ++ [zeros [n_ex; nout]]) with As0.
      change (Cs ++ [zeros [n_ex; nout]]) with Cs0.
      rewrite (py_index_last As0 (zeros []) HA0), (py_index_last Cs0 (zeros []) HC0).
      fold A_prev C_prev gate act. rewrite EZt, EGf, EGu, EGo, ECc.
      unfold mul, add, act_fn_of. rewrite Et1, Et2, ECt, EAt.
      repeat first [ progress lstm_step | progress dv_lookup
                 | rewrite HT | rewrite Hc | rewrite HAs | rewrite HCs | rewrite HXs
                 | rewrite HGf | rewrite HGu | rewrite HGo | rewrite HCc ].
      eexists. split; [reflexivity|]. cbn.
      split_and!; try reflexivity; by simplify_map_eq.
    - cbn [length]. destruct (decide (S (length As') = 0)) as [Hn|_]; [discriminate|].
      repeat first [ progress lstm_step | progress dv_lookup
                 | rewrite HT | rewrite Hc | rewrite HAs | rewrite HCs | rewrite HXs
                 | rewrite HGf | rewrite HGu | rewrite HGo | rewrite HCc | rewrite Hno ].
      change (a :: As') with As0. change Cs with Cs0.
      rewrite (py_index_last As0 (zeros []) HA0), (py_index_last Cs0 (zeros []) HC0).
      fold A_prev C_prev gate act. rewrite EZt, EGf, EGu, EGo, ECc.
      unfold mul, add, act_fn_of. rewrite Et1, Et2, ECt, EAt.
      repeat first [ progress lstm_step | progress dv_lookup
                 | rewrite HT | rewrite Hc | rewrite HAs | rewrite HCs | rewrite HXs
                 | rewrite HGf | rewrite HGu | rewrite HGo | rewrite HCc ].
      eexists. split; [reflexivity|]. cbn.
      split_and!; try reflexivity; by simplify_map_eq.
  }
  destruct Hrun as (l1 & Ef & Hps & Hgs & HX1 & HT1 & Hc1 & HA1 & HC1 & HGf1 & HGu1 & HGo1 & HCc1).
  exists l1. split; [exact Ef|]. split; [exact HZt|]. split; [exact HZtget|].
  split.
  { intros i j Hi Hj.
    repeat first [ rewrite HAtget by assumption | rewrite HCtget by assumption
                 | rewrite Ht1get by assumption | rewrite Ht2get by assumption
                 | rewrite (get2_map (fn act) Ct n_ex nout) by assumption
                 | rewrite HGfget by assumption | rewrite HGuget by assumption
                 | rewrite HGoget by assumption | rewrite HCcget by assumption ].
    split_and!; reflexivity. }
  split; [exact HAtm|]. split; [exact HCt|].
  split.
  { constructor; try assumption.
    - intros _. rewrite List.last_last. exact HAtm.
    - intros _. split; [destruct Cs0; discriminate|]. rewrite List.last_last. exact HCt. }
  unfold lstm_list. split_and!; assumption.
Qed.

Lemma lstm_ex_ok :
  lstm_ok Ex.lstm 1 1
    (LSTMCell.mk_params (VArr (Ex.ones [2; 1])) (VArr (Ex.ones [2; 1])) (VArr (Ex.ones [2; 1]))
       (VArr (Ex.ones [2; 1])) (VArr (zeros [1; 1])) (VArr (Ex.matrix [[1]]%Z))
       (VArr (zeros [1; 1])) (VArr (zeros [1; 1])))
    (Ex.ones [2; 1]) (Ex.ones [2; 1]) (Ex.ones [2; 1]) (Ex.ones [2; 1])
    (zeros [1; 1]) (Ex.matrix [[1]]%Z) (zeros [1; 1]) (zeros [1; 1]).
Proof. constructor; try (vm_compute; reflexivity); split; reflexivity. Qed.

Lemma lstm_ex_caches : lstm_caches Ex.lstm 1 1 0 0 [] [] [].
Proof. constructor; try (vm_compute; reflexivity); intros H; congruence. Qed.

Lemma LSTMCell_forward_step_witness :
  exists At Ct l1,
    LSTMCell.forward Ex.lstm_X Ex.lstm = (Ok (At, Ct), l1) /\
    mat 1 1 At /\ mat 1 1 Ct /\
    LayerBase.derived_variables (LSTMCell.base l1) !! "n_timesteps" = Some (VInt 1).
Proof.
  destruct (LSTMCell_forward_step Ex.lstm Ex.lstm_X 1 1 1 _ _ _ _ _ _ _ _ _ 0 0 [] [] []
              [] [] [] [] lstm_ex_ok lstm_ex_caches)
    as (Zt & Gf & Gu & Go & Cc & Ct & At & l1 & E & _ & _ & _ & HA & HC & [HT _ _ _ _ _ _] & _);
    try (vm_compute; reflexivity); try (split; reflexivity).
  exists At, Ct, l1. split_and!; assumption.
Defined.

End LSTMCellFacts.

(** * Recurrent cells: counting the backward calls *)

Set Warnings "-clear-no-such-hyp".

Section Fixes.
Context {S V : Type} (view : S -> V).

Lemma fixes_bind {A B} (m : M S A) (k : A -> M S B) :
  fixes view m -> (forall a, fixes view (k a)) -> fixes view (m ≫= k).
Proof.
  intros Hm Hk l. unfold mbind, M_bind. specialize (Hm l).
  destruct (m l) as [[a|e] l1]; simpl in *; [|exact Hm].
  rewrite Hk. exact Hm.
Qed.

Lemma fixes_pure {A} (m : M S A) : (forall l, (m l).2 = l) -> fixes view m.
Proof. intros E l. rewrite E. reflexivity. Qed.

Lemma fixes_assert b : fixes view (py_assert b : M S unit).
Proof. apply fixes_pure. destruct b; reflexivity. Qed.

Lemma fixes_modify (f : S -> S) : (forall l, view (f l) = view l) -> fixes view (modify f).
Proof. intros E l. simpl. apply E. Qed.

End Fixes.

Lemma bind_ok {S A B} (m : M S A) (k : A -> M S B) l a l1 :
  m l = (Ok a, l1) -> (m ≫= k) l = k a l1.
Proof. intros E. unfold mbind, M_bind. rewrite E. reflexivity. Qed.

Lemma bind_inv {S A B} (m : M S A) (k : A -> M S B) l b l2 :
  (m ≫= k) l = (Ok b, l2) -> exists a l1, m l = (Ok a, l1) /\ k a l1 = (Ok b, l2).
Proof.
  unfold mbind, M_bind. destruct (m l) as [[a|e] l1]; [eauto | discriminate].
Qed.

(** A change of the object that the view does not see. *)
Ltac unseen :=
  intros [? ? ? ? ? ?] || intros [? ? ? ? ? ? ? ?] || intros ?;
  cbv [upd_base get_base put_base RNNCell.has_base LSTMCell.has_base
       rnn_view rnn_frame rnn_cursor lstm_view lstm_frame lstm_cursor
       RNNCell.set_n_in RNNCell.set_is_initialized
       LSTMCell.set_n_in LSTMCell.set_is_initialized];
  cbn [RNNCell.base RNNCell.is_initialized LSTMCell.base LSTMCell.is_initialized
       LayerBase.derived_variables LayerBase.set_derived_variables
       LayerBase.parameters LayerBase.set_parameters LayerBase.trainable
       LayerBase.gradients LayerBase.set_gradients LayerBase.X LayerBase.set_X];
  rewrite ?lookup_insert_ne by discriminate; reflexivity.

Ltac fixes_walk :=
  unfold assert_trainable, incr_dv, append_dv, iadd_grad, set_dv, set_grad, put_X,
    LSTMCell._get_params, LSTMCell.dv_list;
  repeat lazymatch goal with
    | |- fixes _ (_ ≫= _) => apply fixes_bind; [ | intros ? ]
    | |- fixes _ (match ?x with _ => _ end) => destruct x
    | |- fixes _ (py_assert _) => apply fixes_assert
    | |- fixes _ (modify _) => apply fixes_modify; unseen
    | |- fixes _ _ => apply fixes_pure; intros ?; reflexivity
    end.

Lemma RNNCell_backward_frame d : fixes rnn_frame (RNNCell.backward d).
Proof. unfold RNNCell.backward. fixes_walk. Qed.

Lemma LSTMCell_backward_frame d : fixes lstm_frame (LSTMCell.backward d).
Proof. unfold LSTMCell.backward. fixes_walk. Qed.

(** ** Backward: the cursor goes down by one *)

Lemma RNNCell_backward_cursor d l c :
  LayerBase.trainable (RNNCell.base l) = true ->
  rnn_cursor l = Some (VInt c) ->
  rnn_cursor (RNNCell.backward d l).2 = Some (VInt (c - 1)).
Proof.
  intros Htr Hc. unfold RNNCell.backward.
  erewrite bind_ok;
    [| unfold assert_trainable; cbv [mbind M_bind gets py_assert get_base RNNCell.has_base];
       rewrite Htr; reflexivity].
  erewrite bind_ok;
    [| unfold incr_dv, get_dv, set_dv; cbv [mbind M_bind dict_get modify get_base RNNCell.has_base];
       unfold rnn_cursor in Hc; rewrite Hc; reflexivity].
  cbv beta.
  match goal with
  | |- rnn_cursor (?m ?s).2 = _ =>
      assert (Hf : fixes rnn_cursor m) by fixes_walk; rewrite (Hf s)
  end.
  unfold rnn_cursor, upd_base. cbn. rewrite lookup_insert_eq. reflexivity.
Qed.

Lemma LSTMCell_get_params_pure l : (LSTMCell._get_params l).2 = l.
Proof.
  assert (H : fixes (fun l : LSTMCell.t => l) LSTMCell._get_params) by fixes_walk.
  apply H.
Qed.

(** [_get_params] reads the parameters only. *)
Lemma LSTMCell_get_params_same l l' :
  LayerBase.parameters (LSTMCell.base l) = LayerBase.parameters (LSTMCell.base l') ->
  (LSTMCell._get_params l).1 = (LSTMCell._get_params l').1.
Proof.
  intros E. unfold LSTMCell._get_params, get_param.
  cbv [mbind mret M_bind M_ret dict_get get_base LSTMCell.has_base]. rewrite E.
  repeat match goal with
    | |- context [match ?x with _ => _ end] => destruct x
    end; reflexivity.
Qed.

Lemma LSTMCell_backward_cursor d l c p :
  LayerBase.trainable (LSTMCell.base l) = true ->
  (LSTMCell._get_params l).1 = Ok p ->
  lstm_cursor l = Some (VInt c) ->
  lstm_cursor (LSTMCell.backward d l).2 = Some (VInt (c - 1)).
Proof.
  intros Htr Hp Hc. unfold LSTMCell.backward.
  erewrite bind_ok;
    [| unfold assert_trainable; cbv [mbind M_bind gets py_assert get_base LSTMCell.has_base];
       rewrite Htr; reflexivity].
  erewrite bind_ok;
    [| rewrite (surjective_pairing (LSTMCell._get_params l)), Hp, LSTMCell_get_params_pure;
       reflexivity].
  erewrite bind_ok;
    [| unfold incr_dv, get_dv, set_dv; cbv [mbind M_bind dict_get modify get_base LSTMCell.has_base];
       unfold lstm_cursor in Hc; rewrite Hc; reflexivity].
  cbv beta.
  match goal with
  | |- lstm_cursor (?m ?s).2 = _ =>
      assert (Hf : fixes lstm_cursor m) by fixes_walk; rewrite (Hf s)
  end.
  unfold lstm_cursor, upd_base. cbn. rewrite lookup_insert_eq. reflexivity.
Qed.

(** When the cell is frozen, or its parameters cannot be read, [backward]
    raises at once. *)
Lemma RNNCell_backward_frozen d l :
  LayerBase.trainable (RNNCell.base l) = false -> failed (RNNCell.backward d l).
Proof.
  intros Htr. unfold failed, RNNCell.backward, assert_trainable.
  cbv [mbind M_bind gets py_assert get_base RNNCell.has_base].
  rewrite Htr. eexists; reflexivity.
Qed.

Lemma LSTMCell_backward_frozen d l :
  LayerBase.trainable (LSTMCell.base l) = false -> failed (LSTMCell.backward d l).
Proof.
  intros Htr. unfold failed, LSTMCell.backward, assert_trainable.
  cbv [mbind M_bind gets py_assert get_base LSTMCell.has_base].
  rewrite Htr. eexists; reflexivity.
Qed.

Lemma LSTMCell_backward_no_params d l e :
  (LSTMCell._get_params l).1 = Err e -> failed (LSTMCell.backward d l).
Proof.
  intros Hp.
  destruct (LayerBase.trainable (LSTMCell.base l)) eqn:Htr;
    [| apply LSTMCell_backward_frozen; exact Htr].
  unfold failed, LSTMCell.backward.
  erewrite bind_ok;
    [| unfold assert_trainable; cbv [mbind M_bind gets py_assert get_base LSTMCell.has_base];
       rewrite Htr; reflexivity].
  cbv beta. unfold mbind at 1. unfold M_bind at 1.
  rewrite (surjective_pairing (LSTMCell._get_params l)), Hp. eexists; reflexivity.
Qed.

(** ** Any number of backward calls *)

Lemma RNNCell_backwards_frame ds : forall l,
  rnn_frame (after_calls RNNCell.backward ds l) = rnn_frame l.
Proof.
  induction ds as [|d ds IH]; intros l; [reflexivity|].
  simpl. rewrite IH. apply RNNCell_backward_frame.
Qed.

Lemma RNNCell_backwards_cursor ds : forall l c,
  LayerBase.trainable (RNNCell.base l) = true -> rnn_cursor l = Some (VInt c) ->
  rnn_cursor (after_calls RNNCell.backward ds l) = Some (VInt (c - Z.of_nat (length ds))).
Proof.
  induction ds as [|d ds IH]; intros l c Htr Hc.
  - simpl. rewrite Z.sub_0_r. exact Hc.
  - cbn [after_calls length].
    rewrite (IH _ (c - 1)%Z).
    + do 2 f_equal. lia.
    + pose proof (RNNCell_backward_frame d l) as Hf. unfold rnn_frame in Hf.
      injection Hf as _ Ht _. rewrite Ht. exact Htr.
    + apply RNNCell_backward_cursor; assumption.
Qed.

Lemma LSTMCell_backwards_frame ds : forall l,
  lstm_frame (after_calls LSTMCell.backward ds l) = lstm_frame l.
Proof.
  induction ds as [|d ds IH]; intros l; [reflexivity|].
  simpl. rewrite IH. apply LSTMCell_backward_frame.
Qed.

Lemma LSTMCell_backwards_cursor ds : forall l c p,
  LayerBase.trainable (LSTMCell.base l) = true ->
  (LSTMCell._get_params l).1 = Ok p ->
  lstm_cursor l = Some (VInt c) ->
  lstm_cursor (after_calls LSTMCell.backward ds l) = Some (VInt (c - Z.of_nat (length ds))).
Proof.
  induction ds as [|d ds IH]; intros l c p Htr Hp Hc.
  - simpl. rewrite Z.sub_0_r. exact Hc.
  - cbn [after_calls length].
    pose proof (LSTMCell_backward_frame d l) as Hf. unfold lstm_frame in Hf.
    injection Hf as _ Ht Hps _.
    rewrite (IH _ (c - 1)%Z p).
    + do 2 f_equal. lia.
    + rewrite Ht. exact Htr.
    + rewrite <- Hp. apply LSTMCell_get_params_same. exact Hps.
    + apply (LSTMCell_backward_cursor d l c p); assumption.
Qed.

(** After [T] timesteps, [2T] backward calls, returned or not, leave the
    cursor where the next backward call cannot index the cache. *)
Lemma RNNCell_over_called (l : RNNCell.t) T ds d :
  cell_window (LayerBase.derived_variables (RNNCell.base l)) "Z" T ->
  length ds = 2 * T ->
  failed (RNNCell.backward d (after_calls RNNCell.backward ds l)).
Proof.
  intros (Hc & Zs & HZ & HT) Hds.
  pose proof (RNNCell_backwards_frame ds l) as Hf. unfold rnn_frame in Hf.
  injection Hf as _ Htr HZ'.
  destruct (LayerBase.trainable (RNNCell.base l)) eqn:Et.
  - apply RNNCell_backward_rejects. right.
    exists Zs, (Z.of_nat T - Z.of_nat (length ds))%Z.
    split; [rewrite HZ'; exact HZ|]. split.
    + apply (RNNCell_backwards_cursor ds l _ Et Hc).
    + lia.
  - apply RNNCell_backward_frozen. exact Htr.
Qed.

Lemma LSTMCell_over_called (l : LSTMCell.t) T ds d :
  cell_window (LayerBase.derived_variables (LSTMCell.base l)) "Go" T ->
  length ds = 2 * T ->
  failed (LSTMCell.backward d (after_calls LSTMCell.backward ds l)).
Proof.
  intros (Hc & Zs & HZ & HT) Hds.
  pose proof (LSTMCell_backwards_frame ds l) as Hf. unfold lstm_frame in Hf.
  injection Hf as _ Htr Hps HZ'.
  destruct (LayerBase.trainable (LSTMCell.base l)) eqn:Et;
    [| apply LSTMCell_backward_frozen; exact Htr].
  destruct (LSTMCell._get_params l).1 as [p|e] eqn:Ep.
  - apply LSTMCell_backward_rejects. right.
    exists Zs, (Z.of_nat T - Z.of_nat (length ds))%Z.
    split; [rewrite HZ'; exact HZ|]. split.
    + apply (LSTMCell_backwards_cursor ds l _ p Et Ep Hc).
    + lia.
  - apply (LSTMCell_backward_no_params d _ e).
    rewrite <- Ep. apply LSTMCell_get_params_same. exact Hps.
Qed.

(** On a trainable cell the cursor is then at [-T]: one step further it is
    below every index of the cache. *)
Lemma RNNCell_over_called_cursor (l : RNNCell.t) T ds :
  cell_window (LayerBase.derived_variables (RNNCell.base l)) "Z" T ->
  LayerBase.trainable (RNNCell.base l) = true ->
  length ds = 2 * T ->
  cursor_exhausted
    (LayerBase.derived_variables (RNNCell.base (after_calls RNNCell.backward ds l))) "Z".
Proof.
  intros (Hc & Zs & HZ & HT) Et Hds.
  pose proof (RNNCell_backwards_frame ds l) as Hf. unfold rnn_frame in Hf.
  injection Hf as _ Htr HZ'.
  right. exists Zs, (Z.of_nat T - Z.of_nat (length ds))%Z.
  split; [rewrite HZ'; exact HZ|]. split.
  - apply (RNNCell_backwards_cursor ds l _ Et Hc).
  - lia.
Qed.

Lemma LSTMCell_over_called_cursor (l : LSTMCell.t) T ds p :
  cell_window (LayerBase.derived_variables (LSTMCell.base l)) "Go" T ->
  LayerBase.trainable (LSTMCell.base l) = true ->
  (LSTMCell._get_params l).1 = Ok p ->
  length ds = 2 * T ->
  cursor_exhausted
    (LayerBase.derived_variables (LSTMCell.base (after_calls LSTMCell.backward ds l))) "Go".
Proof.
  intros (Hc & Zs & HZ & HT) Et Ep Hds.
  pose proof (LSTMCell_backwards_frame ds l) as Hf. unfold lstm_frame in Hf.
  injection Hf as _ Htr Hps HZ'.
  right. exists Zs, (Z.of_nat T - Z.of_nat (length ds))%Z.
  split; [rewrite HZ'; exact HZ|]. split.
  - apply (LSTMCell_backwards_cursor ds l _ p Et Ep Hc).
  - lia.
Qed.

(** ** Forward: one more timestep *)

(** The next call of the method in [H] returned; it changes neither view. *)
Ltac step_fixed fr cu H Hfr Hcu :=
  let a := fresh "a" in
  let s := fresh "s" in
  let Hm := fresh "Hm" in
  apply bind_inv in H as (a & s & Hm & H);
  lazymatch type of Hm with
  | ?m ?l0 = _ =>
      let Hf := fresh in
      let Hg := fresh in
      assert (Hf : fixes fr m) by fixes_walk;
      assert (Hg : fixes cu m) by fixes_walk;
      specialize (Hf l0); specialize (Hg l0);
      rewrite Hm in Hf, Hg; cbn [snd] in Hf, Hg;
      rewrite Hfr in Hf; rewrite Hcu in Hg;
      clear Hfr Hcu Hm; rename Hf into Hfr; rename Hg into Hcu
  end;
  cbv beta in H.

(** The next call is [incr_dv "current_step" 1]. *)
Ltac step_cursor fr cu H Hfr Hcu T :=
  let u := fresh "u" in
  let sc := fresh "sc" in
  let Hm := fresh "Hm" in
  let Hf := fresh in
  let Hg := fresh in
  apply bind_inv in H as (u & sc & Hm & H);
  lazymatch type of Hm with
  | ?m ?l0 = _ =>
      assert (Hf : fixes fr m) by fixes_walk;
      specialize (Hf l0); rewrite Hm in Hf; cbn [snd] in Hf; rewrite Hfr in Hf
  end;
  assert (Hg : cu sc = Some (VInt (Z.of_nat (S T))));
  [ revert Hm; unfold incr_dv, get_dv, set_dv;
    cbv [mbind M_bind dict_get modify get_base RNNCell.has_base LSTMCell.has_base];
    unfold cu in Hcu; rewrite Hcu; intros Hm; injection Hm as _ <-;
    unfold cu, upd_base; cbn; rewrite lookup_insert_eq; do 2 f_equal; lia
  | clear Hfr Hcu Hm; rename Hf into Hfr; rename Hg into Hcu; cbv beta in H ].

Lemma RNNCell_forward_window X l A l1 T :
  RNNCell.is_initialized l = true ->
  cell_window (LayerBase.derived_variables (RNNCell.base l)) "Z" T ->
  RNNCell.forward X l = (Ok A, l1) ->
  RNNCell.is_initialized l1 = true /\
  cell_window (LayerBase.derived_variables (RNNCell.base l1)) "Z" (S T).
Proof.
  intros Hini (Hc & Zs & HZ & HT) H.
  assert (Hfr : rnn_frame l = (true, LayerBase.trainable (RNNCell.base l), Some (VList Zs)))
    by (unfold rnn_frame; rewrite Hini, HZ; reflexivity).
  assert (Hcu : rnn_cursor l = Some (VInt (Z.of_nat T))) by exact Hc.
  clear Hc HZ.
  unfold RNNCell.forward in H.
  apply bind_inv in H as (ini & s & Hm & H).
  cbv [gets] in Hm. injection Hm as <- <-. rewrite Hini in H.
  step_fixed rnn_frame rnn_cursor H Hfr Hcu.
  step_fixed rnn_frame rnn_cursor H Hfr Hcu.
  step_cursor rnn_frame rnn_cursor H Hfr Hcu T.
  do 11 step_fixed rnn_frame rnn_cursor H Hfr Hcu.
  (* the cache grows *)
  apply bind_inv in H as (u' & sz & Hm & H).
  lazymatch type of Hm with
  | append_dv "Z" ?z ?l0 = _ =>
      assert (Hg : fixes rnn_cursor (append_dv (T:=RNNCell.t) "Z" z)) by fixes_walk;
      specialize (Hg l0); rewrite Hm in Hg; cbn [snd] in Hg; rewrite Hcu in Hg;
      assert (Hf : rnn_frame sz =
                   (true, LayerBase.trainable (RNNCell.base l), Some (VList (Zs ++ [z]))))
  end.
  { revert Hm. unfold append_dv, get_dv, set_dv.
    cbv [mbind M_bind dict_get modify get_base RNNCell.has_base].
    unfold rnn_frame in Hfr. injection Hfr as Hi Ht Hz. rewrite Hz.
    intros Hm. injection Hm as _ <-.
    unfold rnn_frame, upd_base. cbn. rewrite lookup_insert_eq, Hi, Ht. reflexivity. }
  clear Hfr Hcu Hm. rename Hf into Hfr. rename Hg into Hcu. cbv beta in H.
  step_fixed rnn_frame rnn_cursor H Hfr Hcu.
  cbv [mret M_ret] in H. injection H as _ <-.
  unfold rnn_frame in Hfr. injection Hfr as Hi Ht Hz.
  split; [exact Hi|]. split; [exact Hcu|].
  eexists. split; [exact Hz|]. rewrite length_app. simpl. lia.
Qed.

(** The first forward call initialises the cell and then goes on as on an
    initialised cell with empty caches. *)
Lemma RNNCell_forward_first X l A l1 :
  RNNCell.is_initialized l = false ->
  RNNCell.forward X l = (Ok A, l1) ->
  RNNCell.is_initialized l1 = true /\
  cell_window (LayerBase.derived_variables (RNNCell.base l1)) "Z" 1.
Proof.
  intros Hini H.
  destruct (shape_at X 1) as [n|e] eqn:En.
  - apply (RNNCell_forward_window X (RNNCell._init_params (RNNCell.set_n_in (Some n) l)).2 A l1 0).
    + reflexivity.
    + split; [reflexivity|]. exists []. split; reflexivity.
    + rewrite <- H. unfold RNNCell.forward at 2.
      cbv [mbind mret M_bind M_ret res_bind gets modify lift raise].
      rewrite Hini, En.
      unfold RNNCell.forward, RNNCell._init_params.
      cbv [mbind mret M_bind M_ret res_bind gets modify lift raise put_X put_params put_grads
           put_dvs upd_base get_base put_base RNNCell.has_base].
      cbn [RNNCell.n_in RNNCell.set_n_in RNNCell.is_initialized RNNCell.set_is_initialized
           snd fst].
      reflexivity.
  - revert H. unfold RNNCell.forward.
    cbv [mbind mret M_bind M_ret res_bind gets modify lift raise].
    rewrite Hini, En. discriminate.
Qed.

Lemma RNNCell_forwards_window Xs : forall l l1 T,
  RNNCell.is_initialized l = true ->
  cell_window (LayerBase.derived_variables (RNNCell.base l)) "Z" T ->
  returned RNNCell.forward Xs l = Some l1 ->
  cell_window (LayerBase.derived_variables (RNNCell.base l1)) "Z" (T + length Xs).
Proof.
  induction Xs as [|X Xs IH]; intros l l1 T Hini Hw H.
  - simpl in H. injection H as <-. rewrite Nat.add_0_r. exact Hw.
  - simpl in H. destruct (RNNCell.forward X l) as [[A|e] l'] eqn:E; [|discriminate].
    destruct (RNNCell_forward_window X l A l' T Hini Hw E) as [Hini' Hw'].
    cbn [length]. replace (T + S (length Xs)) with (S T + length Xs) by lia.
    apply (IH l'); assumption.
Qed.

(** After the forward calls of a sequence that all returned, the cell is as
    [__init__] made it (no call at all) or holds one timestep for each
    call. *)
Lemma RNNCell_sequence_window l Xs l1 :
  rnn_start l -> returned RNNCell.forward Xs l = Some l1 ->
  (Xs = [] /\ l1 = l /\
   LayerBase.derived_variables (RNNCell.base l) !! "current_step" = None) \/
  cell_window (LayerBase.derived_variables (RNNCell.base l1)) "Z" (length Xs).
Proof.
  intros Hs Hr.
  destruct Hs as [[Hini Hc] | [Hini Hw]].
  - destruct Xs as [|X Xs].
    + simpl in Hr. injection Hr as <-. left. auto.
    + simpl in Hr. destruct (RNNCell.forward X l) as [[A|e] l'] eqn:E; [|discriminate].
      destruct (RNNCell_forward_first X l A l' Hini E) as [Hini' Hw'].
      right. apply (RNNCell_forwards_window Xs l' l1 1); assumption.
  - right. apply (RNNCell_forwards_window Xs l l1 0); assumption.
Qed.

Lemma LSTMCell_forward_window X l A l1 T :
  LSTMCell.is_initialized l = true ->
  cell_window (LayerBase.derived_variables (LSTMCell.base l)) "Go" T ->
  LSTMCell.forward X l = (Ok A, l1) ->
  LSTMCell.is_initialized l1 = true /\
  cell_window (LayerBase.derived_variables (LSTMCell.base l1)) "Go" (S T).
Proof.
  intros Hini (Hc & Zs & HZ & HT) H.
  assert (Hfr : lstm_frame l =
                (true, LayerBase.trainable (LSTMCell.base l),
                 LayerBase.parameters (LSTMCell.base l), Some (VList Zs)))
    by (unfold lstm_frame; rewrite Hini, HZ; reflexivity).
  assert (Hcu : lstm_cursor l = Some (VInt (Z.of_nat T))) by exact Hc.
  clear Hc HZ.
  unfold LSTMCell.forward in H.
  apply bind_inv in H as (ini & s & Hm & H).
  cbv [gets] in Hm. injection Hm as <- <-. rewrite Hini in H.
  do 3 step_fixed lstm_frame lstm_cursor H Hfr Hcu.
  step_cursor lstm_frame lstm_cursor H Hfr Hcu T.
  do 19 step_fixed lstm_frame lstm_cursor H Hfr Hcu.
  (* the cache grows *)
  apply bind_inv in H as (u' & sz & Hm & H).
  lazymatch type of Hm with
  | append_dv "Go" ?z ?l0 = _ =>
      assert (Hg : fixes lstm_cursor (append_dv (T:=LSTMCell.t) "Go" z)) by fixes_walk;
      specialize (Hg l0); rewrite Hm in Hg; cbn [snd] in Hg; rewrite Hcu in Hg;
      assert (Hf : lstm_frame sz =
                   (true, LayerBase.trainable (LSTMCell.base l),
                    LayerBase.parameters (LSTMCell.base l), Some (VList (Zs ++ [z]))))
  end.
  { revert Hm. unfold append_dv, get_dv, set_dv.
    cbv [mbind M_bind dict_get modify get_base LSTMCell.has_base].
    unfold lstm_frame in Hfr. injection Hfr as Hi Ht Hp Hz. rewrite Hz.
    intros Hm. injection Hm as _ <-.
    unfold lstm_frame, upd_base. cbn. rewrite lookup_insert_eq, Hi, Ht, Hp. reflexivity. }
  clear Hfr Hcu Hm. rename Hf into Hfr. rename Hg into Hcu. cbv beta in H.
  step_fixed lstm_frame lstm_cursor H Hfr Hcu.
  cbv [mret M_ret] in H. injection H as _ <-.
  unfold lstm_frame in Hfr. injection Hfr as Hi Ht Hp Hz.
  split; [exact Hi|]. split; [exact Hcu|].
  eexists. split; [exact Hz|]. rewrite length_app. simpl. lia.
Qed.

Lemma LSTMCell_forward_first X l A l1 :
  LSTMCell.is_initialized l = false ->
  LSTMCell.forward X l = (Ok A, l1) ->
  LSTMCell.is_initialized l1 = true /\
  cell_window (LayerBase.derived_variables (LSTMCell.base l1)) "Go" 1.
Proof.
  intros Hini H.
  destruct (shape_at X 1) as [n|e] eqn:En.
  - apply (LSTMCell_forward_window X
             (LSTMCell._init_params (LSTMCell.set_n_in (Some n) l)).2 A l1 0).
    + reflexivity.
    + split; [reflexivity|]. exists []. split; reflexivity.
    + rewrite <- H. unfold LSTMCell.forward at 2.
      cbv [mbind mret M_bind M_ret res_bind gets modify lift raise].
      rewrite Hini, En.
      unfold LSTMCell.forward, LSTMCell._init_params.
      cbv [mbind mret M_bind M_ret res_bind gets modify lift raise put_X put_params put_grads
           put_dvs upd_base get_base put_base LSTMCell.has_base].
      cbn [LSTMCell.n_in LSTMCell.set_n_in LSTMCell.is_initialized
           LSTMCell.set_is_initialized snd fst].
      reflexivity.
  - revert H. unfold LSTMCell.forward.
    cbv [mbind mret M_bind M_ret res_bind gets modify lift raise].
    rewrite Hini, En. discriminate.
Qed.

Lemma LSTMCell_forwards_window Xs : forall l l1 T,
  LSTMCell.is_initialized l = true ->
  cell_window (LayerBase.derived_variables (LSTMCell.base l)) "Go" T ->
  returned LSTMCell.forward Xs l = Some l1 ->
  cell_window (LayerBase.derived_variables (LSTMCell.base l1)) "Go" (T + length Xs).
Proof.
  induction Xs as [|X Xs IH]; intros l l1 T Hini Hw H.
  - simpl in H. injection H as <-. rewrite Nat.add_0_r. exact Hw.
  - simpl in H. destruct (LSTMCell.forward X l) as [[A|e] l'] eqn:E; [|discriminate].
    destruct (LSTMCell_forward_window X l A l' T Hini Hw E) as [Hini' Hw'].
    cbn [length]. replace (T + S (length Xs)) with (S T + length Xs) by lia.
    apply (IH l'); assumption.
Qed.

Lemma LSTMCell_sequence_window l Xs l1 :
  lstm_start l -> returned LSTMCell.forward Xs l = Some l1 ->
  (Xs = [] /\ l1 = l /\
   LayerBase.derived_variables (LSTMCell.base l) !! "current_step" = None) \/
  cell_window (LayerBase.derived_variables (LSTMCell.base l1)) "Go" (length Xs).
Proof.
  intros Hs Hr.
  destruct Hs as [[Hini Hc] | [Hini Hw]].
  - destruct Xs as [|X Xs].
    + simpl in Hr. injection Hr as <-. left. auto.
    + simpl in Hr. destruct (LSTMCell.forward X l) as [[A|e] l'] eqn:E; [|discriminate].
      destruct (LSTMCell_forward_first X l A l' Hini E) as [Hini' Hw'].
      right. apply (LSTMCell_forwards_window Xs l' l1 1); assumption.
  - right. apply (LSTMCell_forwards_window Xs l l1 0); assumption.
Qed.

(** * The claim *)

(** C5 (as amended).  The cells do not count outstanding forward calls; what
    rejects a backward call is the cursor.  A backward call is rejected when
    the cell was never initialised by a forward call, and when the cursor,
    once decremented, lies below [-T] for [T] cached timesteps.  After the
    [T] forward calls of a sequence and [2T] further backward calls,
    whatever their arguments and whether they returned or raised, the cursor
    of a trainable cell is in that position, and the next backward call,
    the [(2T+1)]-th, is rejected. *)
Theorem cells_backward_rejects :
  (forall (r : RNNCell.t) d,
     cursor_exhausted (LayerBase.derived_variables (RNNCell.base r)) "Z" ->
     failed (RNNCell.backward d r)) /\
  (forall (s : LSTMCell.t) d,
     cursor_exhausted (LayerBase.derived_variables (LSTMCell.base s)) "Go" ->
     failed (LSTMCell.backward d s)) /\
  (forall (r r1 : RNNCell.t) Xs ds d,
     rnn_start r -> returned RNNCell.forward Xs r = Some r1 ->
     length ds = 2 * length Xs ->
     let r2 := after_calls RNNCell.backward ds r1 in
     failed (RNNCell.backward d r2) /\
     (LayerBase.trainable (RNNCell.base r1) = true ->
      cursor_exhausted (LayerBase.derived_variables (RNNCell.base r2)) "Z")) /\
  (forall (s s1 : LSTMCell.t) Xs ds d,
     lstm_start s -> returned LSTMCell.forward Xs s = Some s1 ->
     length ds = 2 * length Xs ->
     let s2 := after_calls LSTMCell.backward ds s1 in
     failed (LSTMCell.backward d s2) /\
     (LayerBase.trainable (LSTMCell.base s1) = true ->
      (exists p, (LSTMCell._get_params s1).1 = Ok p) ->
      cursor_exhausted (LayerBase.derived_variables (LSTMCell.base s2)) "Go")).
Proof.
  split; [exact RNNCell_backward_rejects|].
  split; [exact LSTMCell_backward_rejects|].
  split.
  - intros r r1 Xs ds d Hs Hr Hds r2. subst r2.
    destruct (RNNCell_sequence_window r Xs r1 Hs Hr) as [(-> & -> & Hc) | Hw].
    + destruct ds; [|discriminate]. simpl.
      split; [apply RNNCell_backward_rejects|]; left; exact Hc.
    + split; [exact (RNNCell_over_called r1 _ ds d Hw Hds)|].
      intros Et. exact (RNNCell_over_called_cursor r1 _ ds Hw Et Hds).
  - intros s s1 Xs ds d Hs Hr Hds s2. subst s2.
    destruct (LSTMCell_sequence_window s Xs s1 Hs Hr) as [(-> & -> & Hc) | Hw].
    + destruct ds; [|discriminate]. simpl.
      split; [apply LSTMCell_backward_rejects|]; left; exact Hc.
    + split; [exact (LSTMCell_over_called s1 _ ds d Hw Hds)|].
      intros Et [p Ep]. exact (LSTMCell_over_called_cursor s1 _ ds p Hw Et Ep Hds).
Qed.

Lemma cells_backward_rejects_witness :
  let r1 := (RNNCell.forward Ex.rnn_X Ex.rnn).2 in
  let r3 := after_calls RNNCell.backward [Ex.rnn_dLdA; Ex.rnn_dLdA] r1 in
  let s1 := (LSTMCell.forward Ex.lstm_X Ex.lstm_fresh).2 in
  let s3 := after_calls LSTMCell.backward [Ex.lstm_dLdA; Ex.lstm_dLdA] s1 in
  (LayerBase.derived_variables (RNNCell.base r3) !! "current_step" = Some (VInt (-1)) /\
   cursor_exhausted (LayerBase.derived_variables (RNNCell.base r3)) "Z" /\
   failed (RNNCell.backward Ex.rnn_dLdA r3)) /\
  (LayerBase.derived_variables (LSTMCell.base s3) !! "current_step" = Some (VInt (-1)) /\
   cursor_exhausted (LayerBase.derived_variables (LSTMCell.base s3)) "Go" /\
   failed (LSTMCell.backward Ex.lstm_dLdA s3)).
Proof.
  intros r1 r3 s1 s3.
  destruct cells_backward_rejects as (H1 & H2 & H3 & H4).
  split.
  - assert (Hx : cursor_exhausted (LayerBase.derived_variables (RNNCell.base r3)) "Z").
    { apply (H3 Ex.rnn r1 [Ex.rnn_X] [Ex.rnn_dLdA; Ex.rnn_dLdA] Ex.rnn_dLdA).
      - left. split; reflexivity.
      - vm_compute. reflexivity.
      - reflexivity.
      - vm_compute. reflexivity. }
    split; [vm_compute; reflexivity|]. split; [exact Hx|].
    apply H1. exact Hx.
  - assert (Hx : cursor_exhausted (LayerBase.derived_variables (LSTMCell.base s3)) "Go").
    { apply (H4 Ex.lstm_fresh s1 [Ex.lstm_X] [Ex.lstm_dLdA; Ex.lstm_dLdA] Ex.lstm_dLdA).
      - left. split; reflexivity.
      - vm_compute. reflexivity.
      - reflexivity.
      - vm_compute. reflexivity.
      - eexists. vm_compute. reflexivity. }
    split; [vm_compute; reflexivity|]. split; [exact Hx|].
    apply H2. exact Hx.
Defined.
